(** * REINFORCE trainers of [algorithms.py]: a shallow embedding

    The two trainer classes [ReinforceBaselineAlg] and [HRLReinforceAlg]
    are embedded as functions in a state-and-exception monad over the
    trainer object and the stream of calls made to the logger, the
    checkpoint sink and the optimizers.

    Numbers.  Python [int]s are [Z].  numpy and torch floating-point
    numbers are idealised as real numbers [R]: rounding, infinities and
    nan are not modelled, every statement below is about the exact
    arithmetic of the formulas the code evaluates.  [int(a / b)] is
    therefore truncation of the exact quotient, [Z.quot].

    Arrays.  A two-dimensional numpy array or torch tensor is the list of
    its rows (a matrix without rows has no column count here).

    Gradients.  A torch scalar is a value together with its partial
    derivatives with respect to the parameters of each of the three
    networks and its [requires_grad] flag ([Tensor]); [detach] keeps the
    value and forgets the rest.

    Not modelled: [print] to standard output, the CUDA allocator
    ([torch.cuda.memory_allocated], [memory_cached], [empty_cache] and the
    two per-sample memory reports sent to the logger), the device a tensor
    lives on, and [evaluate], whose body is calls to the environment and
    to the agent of [cutsel_agent_parallel]. *)

From Stdlib Require Import Reals Lra Lia ZArith List String Bool DecimalString FunctionalExtensionality
  RelationClasses.
Import ListNotations.

Local Open Scope Z_scope.

(** ** Python built-ins used by the trainers *)

Module Py.

(** Exceptions the embedded code can raise. *)
Inductive exn :=
| AttributeError (what : string)
| IndexError
| KeyError (key : string)
| ValueError (what : string)
| ZeroDivisionError
| UnboundLocalError (name : string)
| RuntimeError (what : string).

Inductive result (A : Type) :=
| Ok (a : A)
| Raise (e : exn).
Arguments Ok {A} a.
Arguments Raise {A} e.

(** [len(l)] *)
Definition len {A} (l : list A) : Z := Z.of_nat (List.length l).

(** [range(n)]: empty when [n <= 0]. *)
Definition range (n : Z) : list Z := map Z.of_nat (seq 0 (Z.to_nat n)).

(** Bound of a slice: a negative bound counts from the end, and the
    outcome is clipped to [0 .. n]. *)
Definition clip_index (n k : Z) : Z :=
  if k <? 0 then Z.max (n + k) 0 else Z.min k n.

(** [l[a:]] *)
Definition slice_from {A} (a : Z) (l : list A) : list A :=
  skipn (Z.to_nat (clip_index (len l) a)) l.

(** [l[a:b]] *)
Definition slice {A} (a b : Z) (l : list A) : list A :=
  let lo := clip_index (len l) a in
  let hi := clip_index (len l) b in
  firstn (Z.to_nat (hi - lo)) (skipn (Z.to_nat lo) l).

(** [l[k]]: a negative index counts from the end. *)
Definition index {A} (l : list A) (k : Z) : result A :=
  let k' := if k <? 0 then len l + k else k in
  if k' <? 0 then Raise IndexError
  else match nth_error l (Z.to_nat k') with
       | Some x => Ok x
       | None => Raise IndexError
       end.

(** [a % b] on ints: the sign follows the divisor, as [Z.modulo]. *)
Definition mod_ (a b : Z) : result Z :=
  if b =? 0 then Raise ZeroDivisionError else Ok (a mod b).

(** [int(a / b)] on ints: true division, then truncation toward zero. *)
Definition int_truediv (a b : Z) : result Z :=
  if b =? 0 then Raise ZeroDivisionError else Ok (Z.quot a b).

(** A [dict] with string keys, in insertion order. *)
Definition dict (V : Type) := list (string * V).

(** [d[k]] *)
Fixpoint dict_get {V} (d : dict V) (k : string) : result V :=
  match d with
  | [] => Raise (KeyError k)
  | (k', v) :: d' => if String.eqb k k' then Ok v else dict_get d' k
  end.

(** [d[k] = v] *)
Fixpoint dict_set {V} (d : dict V) (k : string) (v : V) : dict V :=
  match d with
  | [] => [(k, v)]
  | (k', v') :: d' =>
      if String.eqb k k' then (k, v) :: d' else (k', v') :: dict_set d' k v
  end.

(** [d.update(d2)] *)
Definition dict_update {V} (d d2 : dict V) : dict V :=
  fold_left (fun acc kv => dict_set acc (fst kv) (snd kv)) d2 d.

(** [t[j] = x] for [0 <= j < len(t)]. *)
Fixpoint set_nth {A} (j : nat) (x : A) (l : list A) : list A :=
  match l, j with
  | [], _ => []
  | _ :: l', O => x :: l'
  | y :: l', S j' => y :: set_nth j' x l'
  end.

(** *** Computations that mutate a state [S] and may raise.  The state
    reached when an exception is raised is kept, as in Python. *)
Definition M (S A : Type) : Type := S -> result A * S.

Definition ret {S A} (a : A) : M S A := fun s => (Ok a, s).

Definition bind {S A B} (m : M S A) (k : A -> M S B) : M S B :=
  fun s => match m s with
           | (Ok a, s') => k a s'
           | (Raise e, s') => (Raise e, s')
           end.

Definition raise {S A} (e : exn) : M S A := fun s => (Raise e, s).

Definition lift {S A} (r : result A) : M S A := fun s => (r, s).

Definition gets {S A} (f : S -> A) : M S A := fun s => (Ok (f s), s).

Definition modify {S} (f : S -> S) : M S unit := fun s => (Ok tt, f s).

(** [x] when the optional attribute or local variable is bound. *)
Definition bound {S A} (e : exn) (o : option A) : M S A :=
  match o with
  | Some a => ret a
  | None => raise e
  end.

(** [for x in xs: body], the local variables the body assigns being
    threaded through as [a]. *)
Fixpoint foldM {S X A} (body : A -> X -> M S A) (xs : list X) (a : A) : M S A :=
  match xs with
  | [] => ret a
  | x :: xs' => bind (body a x) (foldM body xs')
  end.

Definition when {S} (b : bool) (m : M S unit) : M S unit :=
  if b then m else ret tt.

(** Every run of [m] takes a state to one related to it by [rel]. *)
Definition steps {S A} (rel : S -> S -> Prop) (m : M S A) : Prop :=
  forall s r s', m s = (r, s') -> rel s s'.

(** The observation [f] of the state is as it was. *)
Definition kept {S X} (f : S -> X) : S -> S -> Prop := fun s s' => f s' = f s.

End Py.
Import Py.

Notation "x <- c ;; k" := (bind c (fun x => k))
  (at level 61, c at next level, right associativity).
Notation "c ;;; k" := (bind c (fun _ => k))
  (at level 61, right associativity).

(** ** Mini-batch partition (lines 226-232, 241-244 and 256 of [train];
    lines 476-482, 490-493 and 500 of [_train_highlevel]) *)

(** The number of mini-batch loops computed from [len(states)] and the
    configured batch size. *)
Definition train_loop_of (total_num_samples batch_size : Z) : result Z :=
  if total_num_samples <? batch_size then Ok 1
  else match mod_ total_num_samples batch_size with
       | Raise e => Raise e
       | Ok 0 => int_truediv total_num_samples batch_size
       | Ok _ => match int_truediv total_num_samples batch_size with
                 | Ok q => Ok (q + 1)
                 | Raise e => Raise e
                 end
       end.

(** The size of loop [i]: the rest of the list for the last loop, the
    configured batch size for the others. *)
Definition minibatch_size {A} (states : list A) (self_batch_size train_loop i : Z) : Z :=
  if i =? train_loop - 1
  then len (slice_from (i * self_batch_size) states)
  else self_batch_size.

(** The sizes of all loops, in order. *)
Definition minibatch_sizes {A} (states : list A) (self_batch_size train_loop : Z) : list Z :=
  map (minibatch_size states self_batch_size train_loop) (range train_loop).

(** [cur_index] of every sample visited, loop by loop. *)
Definition visited_indices {A} (states : list A) (self_batch_size train_loop : Z) : list Z :=
  flat_map (fun i =>
              map (fun j => i * self_batch_size + j)
                  (range (minibatch_size states self_batch_size train_loop i)))
           (range train_loop).

(** [ceil(n / b)] for a positive [b]. *)
Definition ceil_div (n b : Z) : Z := (n + b - 1) / b.

(** ** numpy arrays of floats *)

Module Np.
Local Open Scope R_scope.

Definition ndarray := list (list R).

(** [np.vstack] of a list of scalars: one row of one entry for each. *)
Definition vstack_scalars (xs : list R) : result ndarray :=
  match xs with
  | [] => Raise (ValueError "need at least one array to concatenate")
  | _ => Ok (map (fun x => [x]) xs)
  end.

(** [np.vstack] of a list of matrices. *)
Definition vstack (ms : list ndarray) : result ndarray :=
  match ms with
  | [] => Raise (ValueError "need at least one array to concatenate")
  | _ => Ok (List.concat ms)
  end.

Definition flat (a : ndarray) : list R := List.concat a.

Definition total (xs : list R) : R := fold_right Rplus 0 xs.

(** [xs.mean()] over all entries. *)
Definition mean_of (xs : list R) : R := total xs / IZR (len xs).

Definition mean (a : ndarray) : R := mean_of (flat a).

(** [np.std]: the square root of the mean squared deviation. *)
Definition std (a : ndarray) : R :=
  sqrt (mean_of (map (fun x => (x - mean a) * (x - mean a)) (flat a))).

(** [c * a] *)
Definition scale (c : R) (a : ndarray) : ndarray := map (map (Rmult c)) a.

(** [(a - m) / d] with scalars [m] and [d]. *)
Definition center_scale (a : ndarray) (m d : R) : ndarray :=
  map (map (fun x => (x - m) / d)) a.

(** [a.shape[1]] *)
Definition shape1 (a : ndarray) : Z :=
  match a with
  | [] => 0%Z
  | row :: _ => len row
  end.

(** [a[:, i:i+1]], flattened. *)
Definition column (i : Z) (a : ndarray) : list R :=
  flat (map (slice i (i + 1)) a).

(** Elementwise operation of two one-dimensional arrays under
    broadcasting: equal lengths, or one of them of length one. *)
Definition broadcast {A B C} (f : A -> B -> C) (x : list A) (y : list B)
  : result (list C) :=
  if (len x =? len y)%Z then Ok (map (fun p => f (fst p) (snd p)) (combine x y))
  else match x, y with
       | [a], _ => Ok (map (f a) y)
       | _, [b] => Ok (map (fun a => f a b) x)
       | _, _ => Raise (ValueError "operands could not be broadcast together")
       end.

(** [all] of a list of outcomes: the first exception, else the values. *)
Fixpoint collect {A} (rs : list (result A)) : result (list A) :=
  match rs with
  | [] => Ok []
  | Raise e :: _ => Raise e
  | Ok a :: rs' => match collect rs' with
                   | Ok l => Ok (a :: l)
                   | Raise e => Raise e
                   end
  end.

(** The same for two matrices: rows are matched by [broadcast], then the
    entries of two matched rows. *)
Definition broadcast2 {A B C} (f : A -> B -> C) (x : list (list A)) (y : list (list B))
  : result (list (list C)) :=
  match broadcast (broadcast f) x y with
  | Ok rows => collect rows
  | Raise e => Raise e
  end.

End Np.
Import Np.

(** ** torch tensors with automatic differentiation *)

Module Torch.
Local Open Scope R_scope.

(** The three networks whose parameters are trained. *)
Inductive net_id := PointerNet | ValueNet | PercentNet.

Definition net_eqb (a b : net_id) : bool :=
  match a, b with
  | PointerNet, PointerNet | ValueNet, ValueNet | PercentNet, PercentNet => true
  | _, _ => false
  end.

(** Partial derivatives: for each network, for each parameter index. *)
Definition Grad := net_id -> nat -> R.

Definition gzero : Grad := fun _ _ => 0.
Definition gadd (f g : Grad) : Grad := fun n k => f n k + g n k.
Definition gscale (c : R) (f : Grad) : Grad := fun n k => c * f n k.

(** The derivatives [g] with respect to network [n] alone. *)
Definition only (n : net_id) (g : nat -> R) : Grad :=
  fun m k => if net_eqb m n then g k else 0.

Record Tensor := mkTensor { item : R; grad : Grad; requires_grad : bool }.

(** A tensor of one or two dimensions. *)
Definition Tensor2 := list (list Tensor).

Definition const (x : R) : Tensor := mkTensor x gzero false.

(** The output of network [n]: value and derivatives. *)
Definition output (n : net_id) (vg : R * (nat -> R)) : Tensor :=
  mkTensor (fst vg) (only n (snd vg)) true.

(** [t.detach()] *)
Definition detach (t : Tensor) : Tensor := mkTensor (item t) gzero false.

Definition add (a b : Tensor) : Tensor :=
  mkTensor (item a + item b) (gadd (grad a) (grad b))
           (requires_grad a || requires_grad b).

Definition sub (a b : Tensor) : Tensor :=
  mkTensor (item a - item b) (gadd (grad a) (gscale (-1) (grad b)))
           (requires_grad a || requires_grad b).

Definition mul (a b : Tensor) : Tensor :=
  mkTensor (item a * item b)
           (gadd (gscale (item b) (grad a)) (gscale (item a) (grad b)))
           (requires_grad a || requires_grad b).

Definition div_const (a : Tensor) (c : R) : Tensor :=
  mkTensor (item a / c) (gscale (/ c) (grad a)) (requires_grad a).

Definition sum (ts : list Tensor) : Tensor := fold_right add (const 0) ts.

(** [t.mean()] over all entries. *)
Definition mean (t : Tensor2) : Tensor :=
  div_const (sum (List.concat t)) (IZR (len (List.concat t))).

(** [torch.zeros((n, 1))] *)
Definition zeros (n : Z) : result Tensor2 :=
  if (n <? 0)%Z then Raise (RuntimeError "negative dimension")
  else Ok (repeat [const 0] (Z.to_nat n)).

(** [torch.from_numpy(a).float()] *)
Definition from_numpy (a : ndarray) : Tensor2 := map (map const) a.

(** [t[j, :] = x] *)
Definition set_row (j : Z) (x : Tensor) (t : Tensor2) : Tensor2 :=
  set_nth (Z.to_nat j) (map (fun _ => x) (nth (Z.to_nat j) t [])) t.

(** [torch.nn.MSELoss()(input, target)] *)
Definition MSELoss (input target : Tensor2) : result Tensor :=
  match broadcast2 sub input target with
  | Ok d => Ok (mean (map (map (fun x => mul x x)) d))
  | Raise e => Raise e
  end.

(** What [loss.backward()] adds to the [.grad] of the parameters. *)
Definition backward (loss : Tensor) : result Grad :=
  if requires_grad loss then Ok (grad loss)
  else Raise (RuntimeError "element 0 of tensors does not require grad").

Definition Rltb (x y : R) : bool := if Rlt_dec x y then true else false.

(** [torch.log(t)] where it is a real number: at zero it is [-inf] and
    below zero [nan], and no sum brings either back to a real number. *)
Definition log (t : Tensor) : option Tensor :=
  if Rltb 0 (item t)
  then Some (mkTensor (ln (item t)) (gscale (/ item t) (grad t)) (requires_grad t))
  else None.

End Torch.
Import Torch.

(** [str(z)] for an int. *)
Definition str (z : Z) : string := NilZero.string_of_int (Z.to_int z).

(** ** Episode results handed to the trainers *)

(** [result[1]]: the low-level dataset of one episode. *)
Record LowLevelDataset := {
  state : list ndarray;
  action : list (list Z);
  sel_cuts_num : list Z;
  neg_reward : list R }.

(** The four lists of a low-level dataset have one entry per sample. *)
Definition well_formed (d : LowLevelDataset) : Prop :=
  List.length (state d) = List.length (action d) /\
  List.length (action d) = List.length (sel_cuts_num d) /\
  List.length (sel_cuts_num d) = List.length (neg_reward d).

(** [result[2]]: the high-level dataset of one episode. *)
Record HighLevelDataset := {
  hl_state : list ndarray;
  hl_action : list R;
  hl_neg_reward : list R }.

(** One element of [raw_results]: [(env_step_info, low-level dataset)]
    followed, in the hierarchical variant, by the high-level dataset. *)
Record EpisodeResult := {
  env_step_info : dict (list R);
  low_level : LowLevelDataset;
  high_level : option HighLevelDataset }.

(** [self.training_highlevel_dataset] *)
Record Buffer := {
  states : list ndarray;
  actions : list R;
  neg_rewards : list R }.

Definition empty_buffer : Buffer :=
  {| states := []; actions := []; neg_rewards := [] |}.

(** What [_process_data] returns. *)
Record Batch := {
  b_neg_rewards : ndarray;
  b_states : list ndarray;
  b_actions : list (list Z);
  b_sel_cuts_nums : list Z;
  b_step_infos : dict (list R) }.

(** A piece of a formatted log line. *)
Inductive piece :=
| Text (s : string)
| Float (x : R).

Inductive histogram_tag :=
| SelectedIdxes
| PositionProbability (pos : Z)
| NegRewards.

(** ** External collaborators *)

(** What the trainers are given from outside this file: torch's networks
    and optimizers, and two helpers of the repository ([RunningMeanStd]
    of [utilss.mean_std], [create_stats_ordered_dict] of [utils]). *)
Class Collaborators := {
  (** A network: a torch module with its current parameters. *)
  Net : Type;
  (** An optimizer with its internal state and, once attached, its
      [StepLR] scheduler. *)
  Optim : Type;
  (** An attribute of [torch.optim]. *)
  OptimClass : Type;
  (** The running normaliser of features. *)
  RunningMeanStd : Type;
  (** [eval('optim.' + name)]: [None] when [torch.optim] has no such
      attribute. *)
  optim_attr : string -> option OptimClass;
  (** [optimizer_class(net.parameters(), lr=lr)] *)
  optim_new : OptimClass -> Net -> R -> Optim;
  (** [optimizer.step()] with the gradients found on the parameters. *)
  optim_step : Optim -> Net -> (nat -> R) -> Optim * Net;
  (** [optimizer.param_groups[0]['lr']] *)
  optim_lr : Optim -> R;
  (** [lr_scheduler.StepLR(optimizer, step, gamma=rate)] and its [step()]. *)
  StepLR : Optim -> Z -> R -> Optim;
  scheduler_step : Optim -> Optim;
  (** [torch.nn.utils.clip_grad_norm(params, max_norm, norm_type=2)]: the
      gradients it leaves on the parameters. *)
  clip_grad_norm : (nat -> R) -> R -> (nat -> R);
  (** [pointer_net.logprobs(state, sel_cuts_num, action)]: the probability
      distributions per position, and the summed log-probability with its
      derivatives. *)
  pointer_logprobs : Net -> ndarray -> Z -> list Z -> list (list R) * (R * (nat -> R));
  (** [value_net(state).squeeze()] *)
  value_forward : Net -> ndarray -> R * (nat -> R);
  (** [cutsel_percent_policy.log_prob(state, action=action)] *)
  percent_log_prob : Net -> ndarray -> R -> (R * (nat -> R)) * dict R;
  (** [pointer_net.embedding_dim] *)
  embedding_dim : Net -> Z;
  (** [RunningMeanStd(shape)], [update] and the three attributes read. *)
  rms_new : Z -> RunningMeanStd;
  rms_update : RunningMeanStd -> ndarray -> RunningMeanStd;
  rms_mean : RunningMeanStd -> list R;
  rms_std : RunningMeanStd -> list R;
  rms_epsilon : RunningMeanStd -> R;
  (** [create_stats_ordered_dict(name, data)]: summary entries of the
      numbers in [data]. *)
  create_stats_ordered_dict : string -> list R -> dict R }.

Section Trainers.

Context `{Collaborators}.

(** *** The trainer object *)

(** An entry of the [state_dict] given to [logger.save_itr_params]. *)
Inductive blob :=
| Weights (net : Net)
| Vector (v : list R)
| Scalar (x : R).

(** Calls to the logger and to torch's optimisation machinery. *)
Inductive event :=
| Log (msg : list piece)
| RecordTabular (key : string) (v : R)
| RecordDict (d : dict R)
| AddHistogram (tag : histogram_tag) (values : list R) (global_step : Z)
| SaveItrParams (epoch : Z) (state_dict : dict blob)
| ZeroGrad (n : net_id)
| Backward (loss : Tensor)
| ClipGradNorm (n : net_id) (max_norm : R)
| OptimizerStep (n : net_id)
| SchedulerStep (n : net_id).

(** Attributes set by [__init__] and never assigned again (those the
    embedded methods read). *)
Record Config := {
  actor_net_lr : R;
  critic_net_lr : R;
  reward_scale : R;
  max_grad_norm : R;
  batch_size : Z;
  optimizer_class : option OptimClass;
  baseline_type : string;
  critic_beta : R;
  lr_decay : bool;
  lr_decay_step : Z;
  lr_decay_rate : R;
  normalize : bool;
  normalize_reward : bool }.

(** The attributes [HRLReinforceAlg.__init__] adds. *)
Record HRL := {
  highlevel_actor_lr : R;
  cutsel_percent_policy : Net;
  cutsel_percent_policy_optimizer : Optim;
  train_highlevel_policy_freq : Z;
  train_highlevel_batch_size : Z;
  train_highlevel_epoch : Z;
  training_highlevel_dataset : Buffer;
  critic_exp_mvg_avg_high_level : R }.

(** The attributes that change, and the [.grad] of the parameters of the
    networks.  An attribute that [__init__] sets on some paths only is
    optional; [hrl] is present on an [HRLReinforceAlg]. *)
Record Attrs := {
  pointer_net : Net;
  value_net : Net;
  policy_optimizer : Optim;
  value_optimizer : option Optim;
  critic_exp_mvg_avg : option R;
  mean_std : option RunningMeanStd;
  grads : Grad;
  hrl : option HRL }.

Record Heap := {
  self : Attrs;
  sink : list event }.

Definition T := M Heap.

Definition set_pointer_net (v : Net) (a : Attrs) : Attrs :=
  {| pointer_net := v; value_net := value_net a;
     policy_optimizer := policy_optimizer a; value_optimizer := value_optimizer a;
     critic_exp_mvg_avg := critic_exp_mvg_avg a; mean_std := mean_std a;
     grads := grads a; hrl := hrl a |}.

Definition set_value_net (v : Net) (a : Attrs) : Attrs :=
  {| pointer_net := pointer_net a; value_net := v;
     policy_optimizer := policy_optimizer a; value_optimizer := value_optimizer a;
     critic_exp_mvg_avg := critic_exp_mvg_avg a; mean_std := mean_std a;
     grads := grads a; hrl := hrl a |}.

Definition set_policy_optimizer (v : Optim) (a : Attrs) : Attrs :=
  {| pointer_net := pointer_net a; value_net := value_net a;
     policy_optimizer := v; value_optimizer := value_optimizer a;
     critic_exp_mvg_avg := critic_exp_mvg_avg a; mean_std := mean_std a;
     grads := grads a; hrl := hrl a |}.

Definition set_value_optimizer (v : option Optim) (a : Attrs) : Attrs :=
  {| pointer_net := pointer_net a; value_net := value_net a;
     policy_optimizer := policy_optimizer a; value_optimizer := v;
     critic_exp_mvg_avg := critic_exp_mvg_avg a; mean_std := mean_std a;
     grads := grads a; hrl := hrl a |}.

Definition set_critic_exp_mvg_avg (v : option R) (a : Attrs) : Attrs :=
  {| pointer_net := pointer_net a; value_net := value_net a;
     policy_optimizer := policy_optimizer a; value_optimizer := value_optimizer a;
     critic_exp_mvg_avg := v; mean_std := mean_std a;
     grads := grads a; hrl := hrl a |}.

Definition set_mean_std (v : option RunningMeanStd) (a : Attrs) : Attrs :=
  {| pointer_net := pointer_net a; value_net := value_net a;
     policy_optimizer := policy_optimizer a; value_optimizer := value_optimizer a;
     critic_exp_mvg_avg := critic_exp_mvg_avg a; mean_std := v;
     grads := grads a; hrl := hrl a |}.

Definition set_grads (v : Grad) (a : Attrs) : Attrs :=
  {| pointer_net := pointer_net a; value_net := value_net a;
     policy_optimizer := policy_optimizer a; value_optimizer := value_optimizer a;
     critic_exp_mvg_avg := critic_exp_mvg_avg a; mean_std := mean_std a;
     grads := v; hrl := hrl a |}.

Definition set_hrl (v : option HRL) (a : Attrs) : Attrs :=
  {| pointer_net := pointer_net a; value_net := value_net a;
     policy_optimizer := policy_optimizer a; value_optimizer := value_optimizer a;
     critic_exp_mvg_avg := critic_exp_mvg_avg a; mean_std := mean_std a;
     grads := grads a; hrl := v |}.

(** A call to a collaborator that is recorded. *)
Definition emit (e : event) : T unit :=
  modify (fun h => {| self := self h; sink := sink h ++ [e] |}).

(** [self.x] *)
Definition attr {A} (f : Attrs -> A) : T A := gets (fun h => f (self h)).

(** [self.x = v] *)
Definition assign (f : Attrs -> Attrs) : T unit :=
  modify (fun h => {| self := f (self h); sink := sink h |}).

(** [self.x] for an attribute that exists on some objects only. *)
Definition attr_opt {A} (name : string) (f : Attrs -> option A) : T A :=
  o <- attr f ;; bound (AttributeError name) o.

(** *** Optimisation steps *)

(** [optimizer.zero_grad()] for the optimizer of network [n]. *)
Definition zero_grad (n : net_id) : T unit :=
  g <- attr grads ;;
  assign (set_grads (fun m k => if net_eqb m n then 0%R else g m k)) ;;;
  emit (ZeroGrad n).

(** [loss.backward()] *)
Definition loss_backward (loss : Tensor) : T unit :=
  d <- lift (backward loss) ;;
  g <- attr grads ;;
  assign (set_grads (gadd g d)) ;;;
  emit (Backward loss).

(** [torch.nn.utils.clip_grad_norm(net.parameters(), float(max_norm),
    norm_type=2)] *)
Definition clip (n : net_id) (max_norm : R) : T unit :=
  g <- attr grads ;;
  assign (set_grads (fun m k => if net_eqb m n
                                then clip_grad_norm (g n) max_norm k
                                else g m k)) ;;;
  emit (ClipGradNorm n max_norm).

(** [self.policy_optimizer.step()] *)
Definition policy_optimizer_step : T unit :=
  opt <- attr policy_optimizer ;;
  net <- attr pointer_net ;;
  g <- attr grads ;;
  let r := optim_step opt net (g PointerNet) in
  assign (set_policy_optimizer (fst r)) ;;;
  assign (set_pointer_net (snd r)) ;;;
  emit (OptimizerStep PointerNet).

(** [self.value_optimizer.step()] *)
Definition value_optimizer_step : T unit :=
  opt <- attr_opt "value_optimizer" value_optimizer ;;
  net <- attr value_net ;;
  g <- attr grads ;;
  let r := optim_step opt net (g ValueNet) in
  assign (set_value_optimizer (Some (fst r))) ;;;
  assign (set_value_net (snd r)) ;;;
  emit (OptimizerStep ValueNet).

(** *** [ReinforceBaselineAlg] *)

(** The keyword arguments of [__init__] that the embedded methods
    depend on; [optimizer_class] is a name or an optimizer class. *)
Record InitArgs := {
  arg_pointer_net : Net;
  arg_value_net : Net;
  arg_optimizer_class : string + OptimClass;
  arg_actor_net_lr : R;
  arg_critic_net_lr : R;
  arg_reward_scale : R;
  arg_max_grad_norm : R;
  arg_batch_size : Z;
  arg_baseline_type : string;
  arg_critic_beta : R;
  arg_lr_decay : bool;
  arg_lr_decay_step : Z;
  arg_lr_decay_rate : R;
  arg_normalize : bool;
  arg_normalize_reward : bool }.

(** [ReinforceBaselineAlg.__init__] (lines 22-112): the object built,
    or the exception raised. *)
Definition __init__ (args : InitArgs) : result (Config * Attrs) :=
  match (match arg_optimizer_class args with
         | inl name =>
             match optim_attr name with
             | Some c => Ok (c, Some c)
             | None => Raise (AttributeError name)
             end
         | inr c => Ok (c, None)
         end) with
  | Raise e => Raise e
  | Ok (optimizer_class', self_optimizer_class) =>
      let policy_optimizer' :=
        optim_new optimizer_class' (arg_pointer_net args) (arg_actor_net_lr args) in
      let value_optimizer' :=
        if (arg_baseline_type args =? "net")%string
        then Some (optim_new optimizer_class' (arg_value_net args) (arg_critic_net_lr args))
        else None in
      let critic_exp_mvg_avg' :=
        if (arg_baseline_type args =? "net")%string then None
        else if (arg_baseline_type args =? "simple")%string then Some 0%R
        else None in
      let policy_optimizer'' :=
        if arg_lr_decay args
        then StepLR policy_optimizer' (arg_lr_decay_step args) (arg_lr_decay_rate args)
        else policy_optimizer' in
      let mean_std' :=
        if arg_normalize args
        then Some (rms_new (embedding_dim (arg_pointer_net args)))
        else None in
      Ok ({| actor_net_lr := arg_actor_net_lr args;
             critic_net_lr := arg_critic_net_lr args;
             reward_scale := arg_reward_scale args;
             max_grad_norm := arg_max_grad_norm args;
             batch_size := arg_batch_size args;
             optimizer_class := self_optimizer_class;
             baseline_type := arg_baseline_type args;
             critic_beta := arg_critic_beta args;
             lr_decay := arg_lr_decay args;
             lr_decay_step := arg_lr_decay_step args;
             lr_decay_rate := arg_lr_decay_rate args;
             normalize := arg_normalize args;
             normalize_reward := arg_normalize_reward args |},
          {| pointer_net := arg_pointer_net args;
             value_net := arg_value_net args;
             policy_optimizer := policy_optimizer'';
             value_optimizer := value_optimizer';
             critic_exp_mvg_avg := critic_exp_mvg_avg';
             mean_std := mean_std';
             grads := gzero;
             hrl := None |})
  end.

(** The normaliser's entries of a checkpoint (lines 147-150, 452-455). *)
Definition with_normalizer (cfg : Config) (state_dict : dict blob) : T (dict blob) :=
  if normalize cfg then
    ms <- attr_opt "mean_std" mean_std ;;
    let state_dict := dict_set state_dict "mean" (Vector (rms_mean ms)) in
    let state_dict := dict_set state_dict "std" (Vector (rms_std ms)) in
    ret (dict_set state_dict "epsilon" (Scalar (rms_epsilon ms)))
  else ret state_dict.

(** [ReinforceBaselineAlg.save_checkpoint] (lines 144-152) *)
Definition save_checkpoint (cfg : Config) (epoch : Z) : T unit :=
  net <- attr pointer_net ;;
  let state_dict := dict_set [] "pointer_net" (Weights net) in
  state_dict <- with_normalizer cfg state_dict ;;
  emit (SaveItrParams epoch state_dict).

(** [HRLReinforceAlg.save_checkpoint] (lines 445-456) *)
Definition HRL_save_checkpoint (cfg : Config) (h : HRL) (epoch : Z) : T unit :=
  model_state_dict <- attr pointer_net ;;
  let state_dict :=
    [("pointer_net"%string, Weights model_state_dict);
     ("cutsel_percent_net"%string, Weights (cutsel_percent_policy h))] in
  state_dict <- with_normalizer cfg state_dict ;;
  emit (SaveItrParams epoch state_dict).

(** [self.save_checkpoint(epoch)]: the method of the object's class. *)
Definition self_save_checkpoint (cfg : Config) (epoch : Z) : T unit :=
  o <- attr hrl ;;
  match o with
  | None => save_checkpoint cfg epoch
  | Some h => HRL_save_checkpoint cfg h epoch
  end.

(** [self._normalize_state(state)] (lines 163-168), the normaliser
    being [ms]. *)
Definition _normalize_state (ms : RunningMeanStd) (state : ndarray) : result ndarray :=
  let mean := rms_mean ms in
  let std := rms_std ms in
  let epsilon := rms_epsilon ms in
  match broadcast2 Rminus state [mean] with
  | Raise e => Raise e
  | Ok centered =>
      broadcast2 Rdiv centered [map (fun s => (s + epsilon)%R) std]
  end.

(** [for k in info.keys(): acc[k].extend(info[k])] (lines 197-198) *)
Definition extend_infos (acc info : dict (list R)) : T (dict (list R)) :=
  foldM (fun acc kv =>
           old <- lift (dict_get acc (fst kv)) ;;
           ret (dict_set acc (fst kv) (old ++ snd kv)))
        info acc.

(** [self._process_data(raw_results)] (lines 170-212) *)
Definition _process_data (cfg : Config) (raw_results : list EpisodeResult) : T Batch :=
  let env_step_infos := map env_step_info raw_results in
  let training_datasets := map low_level raw_results in
  let states := fold_left (fun acc d => acc ++ state d) training_datasets [] in
  let actions := fold_left (fun acc d => acc ++ action d) training_datasets [] in
  let sel_cuts_nums := fold_left (fun acc d => acc ++ sel_cuts_num d) training_datasets [] in
  let neg_rewards := fold_left (fun acc d => acc ++ neg_reward d) training_datasets [] in
  neg_rewards <- lift (vstack_scalars neg_rewards) ;;
  let neg_rewards := Np.scale (reward_scale cfg) neg_rewards in
  neg_rewards <-
    (if normalize_reward cfg then
       emit (RecordDict (create_stats_ordered_dict
                           "training/Nonnormalize Neg Reward" (flat neg_rewards))) ;;;
       let neg_rewards_mean := Np.mean neg_rewards in
       let neg_rewards_std := Np.std neg_rewards in
       ret (center_scale neg_rewards neg_rewards_mean (neg_rewards_std + 1 / 1000)%R)
     else ret neg_rewards) ;;
  first <- lift (index env_step_infos 0) ;;
  let new_step_infos := fold_left (fun acc kv => dict_set acc (fst kv) []) first [] in
  new_step_infos <- foldM extend_infos env_step_infos new_step_infos ;;
  if normalize cfg then
    emit (Log [Text "normalizing data ....."]) ;;;
    stack_states <- lift (vstack states) ;;
    ms <- attr_opt "mean_std" mean_std ;;
    assign (set_mean_std (Some (rms_update ms stack_states))) ;;;
    let feature_len := shape1 stack_states in
    foldM (fun _ i =>
             emit (RecordDict (create_stats_ordered_dict
                     ("training/cut " ++ str (i + 1) ++ " th non-normalize feature")
                     (column i stack_states))))
          (range feature_len) tt ;;;
    ms <- attr_opt "mean_std" mean_std ;;
    normalize_states <- lift (collect (map (_normalize_state ms) states)) ;;
    ret {| b_neg_rewards := neg_rewards; b_states := normalize_states;
           b_actions := actions; b_sel_cuts_nums := sel_cuts_nums;
           b_step_infos := new_step_infos |}
  else
    ret {| b_neg_rewards := neg_rewards; b_states := states;
           b_actions := actions; b_sel_cuts_nums := sel_cuts_nums;
           b_step_infos := new_step_infos |}.

(** [self._compute_sm_entropy(probs)] (lines 214-219) *)
Definition _compute_sm_entropy (probs : list R) : R :=
  fold_left (fun entropy prob => (entropy - prob * ln prob)%R) probs 0%R.

(** The local variables of [train] and of [_train_highlevel] that are
    assigned inside the loops; [None] while unbound. *)
Record Locals := {
  pointer_probs : option (list (list R));
  logprobs : option Tensor2;
  neg_baseline_value : option Tensor2;
  neg_advantage : option Tensor2;
  reinforce_loss : option Tensor;
  critic_loss : option Tensor }.

Definition unbound : Locals :=
  {| pointer_probs := None; logprobs := None; neg_baseline_value := None;
     neg_advantage := None; reinforce_loss := None; critic_loss := None |}.

(** [enumerate(l)] *)
Definition enumerate {A} (l : list A) : list (Z * A) := combine (range (len l)) l.

(** What is stored in [logprobs[j, :]] (lines 264-268): the detached
    value below the threshold, the tensor itself otherwise. *)
Definition stored_logprob (threshold : R) (logprob : Tensor) : Tensor :=
  if Rltb (item logprob) threshold then detach logprob else logprob.

(** One pass of the loop over [j] of [train] (lines 251-275). *)
Definition sample_step (cfg : Config) (epoch : Z) (b : Batch) (i : Z)
           (loc : Locals) (j : Z) : T Locals :=
  let cur_index := i * batch_size cfg + j in
  state <- lift (index (b_states b) cur_index) ;;
  action <- lift (index (b_actions b) cur_index) ;;
  sel_cuts_num <- lift (index (b_sel_cuts_nums b) cur_index) ;;
  net <- attr pointer_net ;;
  let out := pointer_logprobs net state sel_cuts_num action in
  let logprob := output PointerNet (snd out) in
  lps <- bound (UnboundLocalError "logprobs") (logprobs loc) ;;
  let lps := set_row j (stored_logprob (-4000) logprob) lps in
  when (Rltb (item logprob) (-4000))
       (emit (Log [Text "warning: logprob too small, we drop it!!!"])) ;;;
  nbv <- (if (baseline_type cfg =? "net")%string then
            v <- bound (UnboundLocalError "neg_baseline_value") (neg_baseline_value loc) ;;
            vnet <- attr value_net ;;
            ret (Some (set_row j (output ValueNet (value_forward vnet state)) v))
          else ret (neg_baseline_value loc)) ;;
  when ((i =? 0) && (j =? 0))
       (emit (AddHistogram SelectedIdxes (map IZR action) epoch) ;;;
        foldM (fun _ pd =>
                 emit (AddHistogram (PositionProbability (fst pd)) (snd pd) epoch))
              (enumerate (fst out)) tt) ;;;
  ret {| pointer_probs := Some (fst out); logprobs := Some lps;
         neg_baseline_value := nbv; neg_advantage := neg_advantage loc;
         reinforce_loss := reinforce_loss loc; critic_loss := critic_loss loc |}.

(** The rows of [neg_rewards] of loop [i] (lines 279-282, 518-521). *)
Definition minibatch_rows (neg_rewards : ndarray) (self_batch_size train_loop i : Z)
  : ndarray :=
  if i =? train_loop - 1
  then slice_from (i * self_batch_size) neg_rewards
  else slice (i * self_batch_size) ((i + 1) * self_batch_size) neg_rewards.

(** The advantage of a mini-batch (lines 284-289); when no branch
    applies the variable keeps what it was bound to. *)
Definition advantage (cfg : Config) (minibatch_neg_rewards : Tensor2) (loc : Locals)
  : T (option Tensor2) :=
  if (baseline_type cfg =? "simple")%string then
    ema <- attr_opt "critic_exp_mvg_avg" critic_exp_mvg_avg ;;
    x <- lift (broadcast2 sub minibatch_neg_rewards [[const ema]]) ;;
    ret (Some x)
  else if (baseline_type cfg =? "no_baseline")%string then
    ret (Some minibatch_neg_rewards)
  else if (baseline_type cfg =? "net")%string then
    v <- bound (UnboundLocalError "neg_baseline_value") (neg_baseline_value loc) ;;
    x <- lift (broadcast2 sub minibatch_neg_rewards (map (map detach) v)) ;;
    ret (Some x)
  else ret (neg_advantage loc).

(** The update of the value network (lines 299-305). *)
Definition critic_update (cfg : Config) (minibatch_neg_rewards : Tensor2) (loc : Locals)
  : T Tensor :=
  v <- bound (UnboundLocalError "neg_baseline_value") (neg_baseline_value loc) ;;
  critic_loss <- lift (MSELoss v minibatch_neg_rewards) ;;
  _ <- attr_opt "value_optimizer" value_optimizer ;;
  zero_grad ValueNet ;;;
  loss_backward critic_loss ;;;
  clip ValueNet (max_grad_norm cfg) ;;;
  value_optimizer_step ;;;
  ret critic_loss.

(** One pass of the loop over [i] of [train] (lines 241-307). *)
Definition minibatch (cfg : Config) (epoch train_loop : Z) (b : Batch)
           (loc : Locals) (i : Z) : T Locals :=
  let batch_size' := minibatch_size (b_states b) (batch_size cfg) train_loop i in
  emit (Log [Text ("training epoch: " ++ str epoch
                   ++ ", training loop: " ++ str train_loop)]) ;;;
  logprobs0 <- lift (zeros batch_size') ;;
  nbv0 <- (if (baseline_type cfg =? "net")%string
           then z <- lift (zeros batch_size') ;; ret (Some z)
           else ret (neg_baseline_value loc)) ;;
  loc <- foldM (sample_step cfg epoch b i) (range batch_size')
               {| pointer_probs := pointer_probs loc; logprobs := Some logprobs0;
                  neg_baseline_value := nbv0; neg_advantage := neg_advantage loc;
                  reinforce_loss := reinforce_loss loc;
                  critic_loss := critic_loss loc |} ;;
  probs <- bound (UnboundLocalError "pointer_probs") (pointer_probs loc) ;;
  probs0 <- lift (index probs 0) ;;
  emit (RecordTabular "pos_1_entropy" (_compute_sm_entropy probs0)) ;;;
  let minibatch_neg_rewards :=
    from_numpy (minibatch_rows (b_neg_rewards b) (batch_size cfg) train_loop i) in
  adv <- advantage cfg minibatch_neg_rewards loc ;;
  neg_adv <- bound (UnboundLocalError "neg_advantage") adv ;;
  lps <- bound (UnboundLocalError "logprobs") (logprobs loc) ;;
  prod <- lift (broadcast2 mul neg_adv lps) ;;
  let loss := Torch.mean prod in
  zero_grad PointerNet ;;;
  loss_backward loss ;;;
  clip PointerNet (max_grad_norm cfg) ;;;
  policy_optimizer_step ;;;
  closs <- (if (baseline_type cfg =? "net")%string
            then c <- critic_update cfg minibatch_neg_rewards loc ;; ret (Some c)
            else ret (critic_loss loc)) ;;
  ret {| pointer_probs := pointer_probs loc; logprobs := logprobs loc;
         neg_baseline_value := neg_baseline_value loc; neg_advantage := Some neg_adv;
         reinforce_loss := Some loss; critic_loss := closs |}.

(** The update of the scalar baseline (lines 234-238). *)
Definition update_baseline (cfg : Config) (neg_rewards : ndarray) (epoch : Z) : T unit :=
  when (baseline_type cfg =? "simple")%string
       (if epoch =? 1 then
          assign (set_critic_exp_mvg_avg (Some (Np.mean neg_rewards)))
        else
          ema <- attr_opt "critic_exp_mvg_avg" critic_exp_mvg_avg ;;
          assign (set_critic_exp_mvg_avg
                    (Some (ema * critic_beta cfg
                           + (1 - critic_beta cfg) * Np.mean neg_rewards)%R))).

(** The step of the learning-rate schedule (lines 309-311). *)
Definition lr_update (cfg : Config) (epoch : Z) : T unit :=
  when (lr_decay cfg)
       (opt <- attr policy_optimizer ;;
        assign (set_policy_optimizer (scheduler_step opt)) ;;;
        emit (SchedulerStep PointerNet) ;;;
        opt <- attr policy_optimizer ;;
        emit (Log [Text ("epoch: " ++ str epoch ++ ", policy optimizer lr: ");
                   Float (optim_lr opt)])).

(** The statistics sent to the logger at the end of [train]
    (lines 316-341). *)
Definition report (cfg : Config) (epoch : Z) (b : Batch) (loc : Locals) : T unit :=
  emit (AddHistogram NegRewards (flat (b_neg_rewards b)) epoch) ;;;
  emit (RecordTabular "Epoch" (IZR epoch)) ;;;
  emit (RecordDict (create_stats_ordered_dict "training/Neg Reward"
                                              (flat (b_neg_rewards b)))) ;;;
  adv <- bound (UnboundLocalError "neg_advantage") (neg_advantage loc) ;;
  emit (RecordTabular "training/Neg Advantage" (item (Torch.mean adv))) ;;;
  lps <- bound (UnboundLocalError "logprobs") (logprobs loc) ;;
  emit (RecordDict (create_stats_ordered_dict "training/logprobs"
                                              (map item (List.concat lps)))) ;;;
  loss <- bound (UnboundLocalError "reinforce_loss") (reinforce_loss loc) ;;
  emit (RecordTabular "training/reinforce loss" (item loss)) ;;;
  ema <- attr_opt "critic_exp_mvg_avg" critic_exp_mvg_avg ;;
  emit (RecordTabular "training/Critic Value" ema) ;;;
  when (baseline_type cfg =? "net")%string
       (closs <- bound (UnboundLocalError "critic_loss") (critic_loss loc) ;;
        emit (RecordTabular "training/Critic Loss" (item closs)) ;;;
        v <- bound (UnboundLocalError "neg_baseline_value") (neg_baseline_value loc) ;;
        emit (RecordTabular "training/Critic Value" (item (Torch.mean v)))) ;;;
  emit (RecordDict (create_stats_ordered_dict
                      "training/len cuts" (map (fun s => IZR (len s)) (b_states b)))) ;;;
  state0 <- lift (index (b_states b) 0) ;;
  let feature_len := shape1 state0 in
  foldM (fun _ i =>
           emit (RecordDict (create_stats_ordered_dict
                   ("training/cut " ++ str (i + 1) ++ " th feature")
                   (List.concat (map (column i) (b_states b))))))
        (range feature_len) tt ;;;
  emit (RecordDict (create_stats_ordered_dict
                      "training/sel cuts num" (map IZR (b_sel_cuts_nums b)))) ;;;
  stats <- foldM (fun stats kv =>
                    v <- lift (dict_get (b_step_infos b) (fst kv)) ;;
                    ret (dict_update stats
                           (create_stats_ordered_dict ("training/" ++ fst kv) v)))
                 (b_step_infos b) [] ;;
  emit (RecordDict stats).

(** [ReinforceBaselineAlg.train(raw_results, epoch)] (lines 221-341) *)
Definition train (cfg : Config) (raw_results : list EpisodeResult) (epoch : Z) : T unit :=
  b <- _process_data cfg raw_results ;;
  let total_num_samples := len (b_states b) in
  train_loop <- lift (train_loop_of total_num_samples (batch_size cfg)) ;;
  update_baseline cfg (b_neg_rewards b) epoch ;;;
  loc <- foldM (minibatch cfg epoch train_loop b) (range train_loop) unbound ;;
  lr_update cfg epoch ;;;
  self_save_checkpoint cfg epoch ;;;
  report cfg epoch b loc.

(** *** [HRLReinforceAlg] *)

Definition set_cutsel_percent_policy (v : Net) (h : HRL) : HRL :=
  {| highlevel_actor_lr := highlevel_actor_lr h; cutsel_percent_policy := v;
     cutsel_percent_policy_optimizer := cutsel_percent_policy_optimizer h;
     train_highlevel_policy_freq := train_highlevel_policy_freq h;
     train_highlevel_batch_size := train_highlevel_batch_size h;
     train_highlevel_epoch := train_highlevel_epoch h;
     training_highlevel_dataset := training_highlevel_dataset h;
     critic_exp_mvg_avg_high_level := critic_exp_mvg_avg_high_level h |}.

Definition set_cutsel_percent_policy_optimizer (v : Optim) (h : HRL) : HRL :=
  {| highlevel_actor_lr := highlevel_actor_lr h;
     cutsel_percent_policy := cutsel_percent_policy h;
     cutsel_percent_policy_optimizer := v;
     train_highlevel_policy_freq := train_highlevel_policy_freq h;
     train_highlevel_batch_size := train_highlevel_batch_size h;
     train_highlevel_epoch := train_highlevel_epoch h;
     training_highlevel_dataset := training_highlevel_dataset h;
     critic_exp_mvg_avg_high_level := critic_exp_mvg_avg_high_level h |}.

Definition set_train_highlevel_epoch (v : Z) (h : HRL) : HRL :=
  {| highlevel_actor_lr := highlevel_actor_lr h;
     cutsel_percent_policy := cutsel_percent_policy h;
     cutsel_percent_policy_optimizer := cutsel_percent_policy_optimizer h;
     train_highlevel_policy_freq := train_highlevel_policy_freq h;
     train_highlevel_batch_size := train_highlevel_batch_size h;
     train_highlevel_epoch := v;
     training_highlevel_dataset := training_highlevel_dataset h;
     critic_exp_mvg_avg_high_level := critic_exp_mvg_avg_high_level h |}.

Definition set_training_highlevel_dataset (v : Buffer) (h : HRL) : HRL :=
  {| highlevel_actor_lr := highlevel_actor_lr h;
     cutsel_percent_policy := cutsel_percent_policy h;
     cutsel_percent_policy_optimizer := cutsel_percent_policy_optimizer h;
     train_highlevel_policy_freq := train_highlevel_policy_freq h;
     train_highlevel_batch_size := train_highlevel_batch_size h;
     train_highlevel_epoch := train_highlevel_epoch h;
     training_highlevel_dataset := v;
     critic_exp_mvg_avg_high_level := critic_exp_mvg_avg_high_level h |}.

Definition set_critic_exp_mvg_avg_high_level (v : R) (h : HRL) : HRL :=
  {| highlevel_actor_lr := highlevel_actor_lr h;
     cutsel_percent_policy := cutsel_percent_policy h;
     cutsel_percent_policy_optimizer := cutsel_percent_policy_optimizer h;
     train_highlevel_policy_freq := train_highlevel_policy_freq h;
     train_highlevel_batch_size := train_highlevel_batch_size h;
     train_highlevel_epoch := train_highlevel_epoch h;
     training_highlevel_dataset := training_highlevel_dataset h;
     critic_exp_mvg_avg_high_level := v |}.

(** [self.x] and [self.x = v] for an attribute of the subclass. *)
Definition hrl_attr {A} (f : HRL -> A) : T A :=
  h <- attr_opt "HRLReinforceAlg" hrl ;; ret (f h).

Definition hrl_assign (f : HRL -> HRL) : T unit :=
  h <- attr_opt "HRLReinforceAlg" hrl ;; assign (set_hrl (Some (f h))).

(** The arguments [HRLReinforceAlg.__init__] adds. *)
Record HRLInitArgs := {
  arg_cutsel_percent_policy : Net;
  arg_train_highlevel_policy_freq : Z;
  arg_train_highlevel_batch_size : Z;
  arg_highlevel_actor_lr : R }.

(** [HRLReinforceAlg.__init__] (lines 371-416) *)
Definition HRL__init__ (hargs : HRLInitArgs) (args : InitArgs) : result (Config * Attrs) :=
  match __init__ args with
  | Raise e => Raise e
  | Ok (cfg, a) =>
      match optimizer_class cfg with
      | None => Raise (AttributeError "optimizer_class")
      | Some c =>
          let opt := optim_new c (arg_cutsel_percent_policy hargs)
                               (arg_highlevel_actor_lr hargs) in
          let opt := if lr_decay cfg
                     then StepLR opt (lr_decay_step cfg) (lr_decay_rate cfg)
                     else opt in
          Ok (cfg,
              set_hrl (Some {| highlevel_actor_lr := arg_highlevel_actor_lr hargs;
                               cutsel_percent_policy := arg_cutsel_percent_policy hargs;
                               cutsel_percent_policy_optimizer := opt;
                               train_highlevel_policy_freq :=
                                 arg_train_highlevel_policy_freq hargs;
                               train_highlevel_batch_size :=
                                 arg_train_highlevel_batch_size hargs;
                               train_highlevel_epoch := 1;
                               training_highlevel_dataset := empty_buffer;
                               critic_exp_mvg_avg_high_level := 0%R |}) a)
      end
  end.

(** The three [extend] calls for one episode (lines 441-443). *)
Definition extend_buffer (dict_data : HighLevelDataset) : T unit :=
  buf <- hrl_attr training_highlevel_dataset ;;
  let buf := {| states := states buf ++ hl_state dict_data;
                actions := actions buf;
                neg_rewards := neg_rewards buf |} in
  let buf := {| states := states buf;
                actions := actions buf ++ hl_action dict_data;
                neg_rewards := neg_rewards buf |} in
  let buf := {| states := states buf;
                actions := actions buf;
                neg_rewards := neg_rewards buf ++ hl_neg_reward dict_data |} in
  hrl_assign (set_training_highlevel_dataset buf).

(** [self._update_highlevel_dataset(raw_results)] (lines 432-443) *)
Definition _update_highlevel_dataset (raw_results : list EpisodeResult) : T unit :=
  hrl_assign (set_training_highlevel_dataset empty_buffer) ;;;
  training_highlevel_dataset' <-
    lift (collect (map (fun r => match high_level r with
                                 | Some d => Ok d
                                 | None => Raise IndexError
                                 end) raw_results)) ;;
  foldM (fun _ dict_data => extend_buffer dict_data) training_highlevel_dataset' tt.

(** [self.cutsel_percent_policy_optimizer.step()] *)
Definition percent_optimizer_step : T unit :=
  opt <- hrl_attr cutsel_percent_policy_optimizer ;;
  net <- hrl_attr cutsel_percent_policy ;;
  g <- attr grads ;;
  let r := optim_step opt net (g PercentNet) in
  hrl_assign (set_cutsel_percent_policy_optimizer (fst r)) ;;;
  hrl_assign (set_cutsel_percent_policy (snd r)) ;;;
  emit (OptimizerStep PercentNet).

(** [infos[k].append(info[k].item())] for every key, the lists being
    created on the very first sample (lines 512-516). *)
Definition append_infos (first : bool) (infos : dict (list R)) (info : dict R)
  : T (dict (list R)) :=
  let infos := if first
               then fold_left (fun acc kv => dict_set acc (fst kv) []) info infos
               else infos in
  foldM (fun acc kv =>
           old <- lift (dict_get acc (fst kv)) ;;
           ret (dict_set acc (fst kv) (old ++ [snd kv])))
        info infos.

(** One pass of the loop over [j] of [_train_highlevel] (lines 498-516). *)
Definition hl_sample_step (states : list ndarray) (actions : list R) (bs i : Z)
           (st : Locals * dict (list R)) (j : Z) : T (Locals * dict (list R)) :=
  let loc := fst st in
  let cur_index := i * bs + j in
  state <- lift (index states cur_index) ;;
  action <- lift (index actions cur_index) ;;
  net <- hrl_attr cutsel_percent_policy ;;
  let out := percent_log_prob net state action in
  let logprob := output PercentNet (fst out) in
  lps <- bound (UnboundLocalError "logprobs") (logprobs loc) ;;
  let lps := set_row j (stored_logprob (-100000) logprob) lps in
  when (Rltb (item logprob) (-100000))
       (emit (Log [Text
          "warning: high level policy logprob too small, we detach it to drop it!!!"])) ;;;
  infos <- append_infos ((i =? 0) && (j =? 0)) (snd st) (snd out) ;;
  ret ({| pointer_probs := pointer_probs loc; logprobs := Some lps;
          neg_baseline_value := neg_baseline_value loc;
          neg_advantage := neg_advantage loc;
          reinforce_loss := reinforce_loss loc; critic_loss := critic_loss loc |},
       infos).

(** One pass of the loop over [i] of [_train_highlevel] (lines 490-536). *)
Definition hl_minibatch (cfg : Config) (states : list ndarray) (actions : list R)
           (neg_rewards : ndarray) (bs hl_epoch train_loop : Z)
           (st : Locals * dict (list R)) (i : Z) : T (Locals * dict (list R)) :=
  let loc := fst st in
  let batch_size' := minibatch_size states bs train_loop i in
  emit (Log [Text ("training epoch: " ++ str hl_epoch ++ ", training loop: "
                   ++ str i ++ "/" ++ str train_loop)]) ;;;
  logprobs0 <- lift (zeros batch_size') ;;
  st <- foldM (hl_sample_step states actions bs i) (range batch_size')
              ({| pointer_probs := pointer_probs loc; logprobs := Some logprobs0;
                  neg_baseline_value := neg_baseline_value loc;
                  neg_advantage := neg_advantage loc;
                  reinforce_loss := reinforce_loss loc;
                  critic_loss := critic_loss loc |}, snd st) ;;
  let loc := fst st in
  let minibatch_neg_rewards := from_numpy (minibatch_rows neg_rewards bs train_loop i) in
  neg_adv <- (if (baseline_type cfg =? "simple")%string then
                ema <- hrl_attr critic_exp_mvg_avg_high_level ;;
                lift (broadcast2 sub minibatch_neg_rewards [[const ema]])
              else ret minibatch_neg_rewards) ;;
  lps <- bound (UnboundLocalError "logprobs") (logprobs loc) ;;
  prod <- lift (broadcast2 mul neg_adv lps) ;;
  let loss := Torch.mean prod in
  zero_grad PercentNet ;;;
  loss_backward loss ;;;
  clip PercentNet (max_grad_norm cfg) ;;;
  percent_optimizer_step ;;;
  ret ({| pointer_probs := pointer_probs loc; logprobs := logprobs loc;
          neg_baseline_value := neg_baseline_value loc; neg_advantage := Some neg_adv;
          reinforce_loss := Some loss; critic_loss := critic_loss loc |},
       snd st).

(** The rewards used by [_train_highlevel] (lines 462-463). *)
Definition highlevel_rewards (cfg : Config) (buf : Buffer) : result ndarray :=
  match vstack_scalars (neg_rewards buf) with
  | Ok a => Ok (map (map (fun x => (x * reward_scale cfg)%R)) a)
  | Raise e => Raise e
  end.

(** The update of the high-level scalar baseline (lines 484-487). *)
Definition update_highlevel_baseline (cfg : Config) (neg_rewards : ndarray) : T unit :=
  hl_epoch <- hrl_attr train_highlevel_epoch ;;
  if hl_epoch =? 1 then
    hrl_assign (set_critic_exp_mvg_avg_high_level (Np.mean neg_rewards))
  else
    ema <- hrl_attr critic_exp_mvg_avg_high_level ;;
    hrl_assign (set_critic_exp_mvg_avg_high_level
                  (ema * critic_beta cfg + (1 - critic_beta cfg) * Np.mean neg_rewards)%R).

(** The statistics [_train_highlevel] returns (lines 543-557). *)
Definition highlevel_stats (neg_rewards : ndarray) (actions : list R)
           (st : Locals * dict (list R)) : T (dict R) :=
  let loc := fst st in
  let Prefix := "training_highlevel_policy"%string in
  let stats := dict_update [] (create_stats_ordered_dict
                                 (Prefix ++ "/Neg Reward") (flat neg_rewards)) in
  adv <- bound (UnboundLocalError "neg_advantage") (neg_advantage loc) ;;
  let stats := dict_update stats (create_stats_ordered_dict
                                    (Prefix ++ "/Neg Advantage")
                                    [item (Torch.mean adv)]) in
  lps <- bound (UnboundLocalError "logprobs") (logprobs loc) ;;
  let stats := dict_update stats (create_stats_ordered_dict
                                    (Prefix ++ "/logprobs")
                                    (map item (List.concat lps))) in
  let stats := dict_update stats (create_stats_ordered_dict
                                    (Prefix ++ "/cut_percent_actions") actions) in
  loss <- bound (UnboundLocalError "reinforce_loss") (reinforce_loss loc) ;;
  let stats := dict_set stats (Prefix ++ "/reinforce loss") (item loss) in
  ema <- hrl_attr critic_exp_mvg_avg_high_level ;;
  let stats := dict_set stats (Prefix ++ "/Critic Value") ema in
  foldM (fun stats kv =>
           v <- lift (dict_get (snd st) (fst kv)) ;;
           ret (dict_update stats (create_stats_ordered_dict (Prefix ++ fst kv) v)))
        (snd st) stats.

(** [self._train_highlevel()] (lines 458-557) *)
Definition _train_highlevel (cfg : Config) : T (dict R) :=
  buf <- hrl_attr training_highlevel_dataset ;;
  let states := states buf in
  let actions := actions buf in
  neg_rewards <- lift (highlevel_rewards cfg buf) ;;
  states <- (if normalize cfg then
               emit (Log [Text "normalizing data ....."]) ;;;
               stack_states <- lift (vstack states) ;;
               ms <- attr_opt "mean_std" mean_std ;;
               assign (set_mean_std (Some (rms_update ms stack_states))) ;;;
               ms <- attr_opt "mean_std" mean_std ;;
               lift (collect (map (_normalize_state ms) states))
             else ret states) ;;
  let total_num_samples := len states in
  bs <- hrl_attr train_highlevel_batch_size ;;
  train_loop <- lift (train_loop_of total_num_samples bs) ;;
  update_highlevel_baseline cfg neg_rewards ;;;
  hl_epoch <- hrl_attr train_highlevel_epoch ;;
  st <- foldM (hl_minibatch cfg states actions neg_rewards bs hl_epoch train_loop)
              (range train_loop) (unbound, []) ;;
  when (lr_decay cfg)
       (opt <- hrl_attr cutsel_percent_policy_optimizer ;;
        hrl_assign (set_cutsel_percent_policy_optimizer (scheduler_step opt)) ;;;
        emit (SchedulerStep PercentNet) ;;;
        opt <- hrl_attr cutsel_percent_policy_optimizer ;;
        emit (Log [Text ("high level policy epoch: " ++ str hl_epoch
                         ++ ", policy optimizer lr: ");
                   Float (optim_lr opt)])) ;;;
  highlevel_stats neg_rewards actions st.

(** [self.train_highlevel_policy(raw_results, epoch)] (lines 418-430) *)
Definition train_highlevel_policy (cfg : Config) (raw_results : list EpisodeResult)
           (epoch : Z) : T (dict R) :=
  let stats := [] in
  freq <- hrl_attr train_highlevel_policy_freq ;;
  m <- lift (mod_ epoch freq) ;;
  if m =? 0 then
    _update_highlevel_dataset raw_results ;;;
    stats <- _train_highlevel cfg ;;
    hl_epoch <- hrl_attr train_highlevel_epoch ;;
    hrl_assign (set_train_highlevel_epoch (hl_epoch + 1)) ;;;
    hrl_assign (set_training_highlevel_dataset empty_buffer) ;;;
    ret stats
  else ret stats.

(** *** Observations of the trainer's state *)

(** The scalar baseline held by the trainer. *)
Definition ema_of (h : Heap) : option R := critic_exp_mvg_avg (self h).

(** The rewards of all episodes, stacked and multiplied by
    [reward_scale] (lines 182-186). *)
Definition scaled_rewards (cfg : Config) (raw_results : list EpisodeResult) : ndarray :=
  Np.scale (reward_scale cfg)
           (map (fun x => [x])
                (flat_map (fun r => neg_reward (low_level r)) raw_results)).

(** The calls recorded in [h'] are those of [h], and possibly more. *)
Definition grows (h h' : Heap) : Prop := exists t, sink h' = sink h ++ t.

(** The recorded calls to torch's optimisation machinery and to the
    checkpoint sink, in order: everything but plain logging. *)
Definition is_machinery (e : event) : bool :=
  match e with
  | ZeroGrad _ | Backward _ | ClipGradNorm _ _ | OptimizerStep _
  | SchedulerStep _ | SaveItrParams _ _ => true
  | _ => false
  end.

Definition machinery (h : Heap) : list event := filter is_machinery (sink h).

(** The optimizer steps and the checkpoints, in order. *)
Definition is_milestone (e : event) : bool :=
  match e with
  | OptimizerStep _ | SaveItrParams _ _ => true
  | _ => false
  end.

Definition milestones (h : Heap) : list event := filter is_milestone (sink h).

(** The checkpoints written. *)
Definition is_checkpoint (e : event) : bool :=
  match e with
  | SaveItrParams _ _ => true
  | _ => false
  end.

Definition checkpoints (h : Heap) : list event := filter is_checkpoint (sink h).

(** The machinery calls of one update of network [n] with [loss]. *)
Definition update_calls (n : net_id) (loss : Tensor) (max_norm : R) : list event :=
  [ZeroGrad n; Backward loss; ClipGradNorm n max_norm; OptimizerStep n].

(** The optimizer steps of one mini-batch loop of [train]. *)
Definition minibatch_steps (cfg : Config) : list event :=
  OptimizerStep PointerNet
  :: (if (baseline_type cfg =? "net")%string then [OptimizerStep ValueNet] else []).

(** The [state_dict] of a checkpoint taken in state [a]. *)
Definition checkpoint_of (cfg : Config) (a : Attrs) : dict blob :=
  (("pointer_net"%string, Weights (pointer_net a))
   :: match hrl a with
      | Some h => [("cutsel_percent_net"%string, Weights (cutsel_percent_policy h))]
      | None => []
      end)
  ++ match normalize cfg, mean_std a with
     | true, Some ms => [("mean"%string, Vector (rms_mean ms));
                         ("std"%string, Vector (rms_std ms));
                         ("epsilon"%string, Scalar (rms_epsilon ms))]
     | _, _ => []
     end.

(** A tensor that carries no derivative with respect to network [n]. *)
Definition free_of (n : net_id) (t : Tensor) : Prop := forall k, grad t n k = 0%R.

(** A tensor that carries no derivative at all: a constant of the
    differentiation. *)
Definition constant (t : Tensor) : Prop := forall n, free_of n t.



(** The high-level epoch counter, baseline and replay buffer of an
    [HRLReinforceAlg]. *)
Definition hl_epoch_of (h : Heap) : option Z :=
  option_map train_highlevel_epoch (hrl (self h)).

Definition hl_ema_of (h : Heap) : option R :=
  option_map critic_exp_mvg_avg_high_level (hrl (self h)).

Definition buffer_of (h : Heap) : option Buffer :=
  option_map training_highlevel_dataset (hrl (self h)).

(** [buf] extended with the high-level datasets [ds], in order. *)
Definition extended (buf : Buffer) (ds : list HighLevelDataset) : Buffer :=
  {| states := states buf ++ flat_map hl_state ds;
     actions := actions buf ++ flat_map hl_action ds;
     neg_rewards := neg_rewards buf ++ flat_map hl_neg_reward ds |}.

(** The configuration with the reward-normalisation option set to [flag]. *)
Definition set_normalize_reward (flag : bool) (cfg : Config) : Config :=
  {| actor_net_lr := actor_net_lr cfg;
     critic_net_lr := critic_net_lr cfg;
     reward_scale := reward_scale cfg;
     max_grad_norm := max_grad_norm cfg;
     batch_size := batch_size cfg;
     optimizer_class := optimizer_class cfg;
     baseline_type := baseline_type cfg;
     critic_beta := critic_beta cfg;
     lr_decay := lr_decay cfg;
     lr_decay_step := lr_decay_step cfg;
     lr_decay_rate := lr_decay_rate cfg;
     normalize := normalize cfg;
     normalize_reward := flag |}.

(** The high-level datasets of a call, when every episode has one. *)
Definition highlevel_datasets (raw_results : list EpisodeResult)
  : result (list HighLevelDataset) :=
  collect (map (fun r => match high_level r with
                         | Some d => Ok d
                         | None => Raise IndexError
                         end) raw_results).

(** The trainer [a] once the counter of high-level updates has been
    incremented and the replay buffer emptied. *)
Definition after_highlevel_update (a : Attrs) : Attrs :=
  match hrl a with
  | Some hr =>
      set_hrl (Some (set_training_highlevel_dataset empty_buffer
                       (set_train_highlevel_epoch (train_highlevel_epoch hr + 1) hr))) a
  | None => a
  end.

End Trainers.

(** ** The methods that compute from their arguments alone

    [_prob_to_logp], [_process_env_info] and [log_evaluate_stats] read no
    attribute that changes and call no logger: they are functions of
    their arguments (and, for the last, of [self.reward_type]). *)

(** Sequencing of two computations that may raise. *)
Definition and_then {A B} (r : result A) (k : A -> result B) : result B :=
  match r with
  | Ok a => k a
  | Raise e => Raise e
  end.

(** [for x in xs: body] for a body that may raise, the variables it
    assigns being threaded through as [a]. *)
Fixpoint for_each {X A} (body : A -> X -> result A) (xs : list X) (a : A) : result A :=
  match xs with
  | [] => Ok a
  | x :: xs' => and_then (body a x) (for_each body xs')
  end.

(** [self._prob_to_logp(prob)] (lines 114-121): the sum of the
    logarithms, [None] when it is not a real number. *)
Definition _prob_to_logp (prob : list Tensor) : option Tensor :=
  fold_left (fun logprob p =>
               match logprob, log p with
               | Some acc, Some logp => Some (add acc logp)
               | _, _ => None
               end)
            prob (Some (const 0%R)).

(** The product of the numbers [xs]. *)
Definition product (xs : list R) : R := fold_right Rmult 1%R xs.

(** [d.keys()] *)
Definition keys {V} (d : dict V) : list string := map fst d.

(** [self._process_env_info(env_step_infos)] (lines 154-161) *)
Definition _process_env_info (env_step_infos : list (dict (list R)))
  : result (dict (list R)) :=
  and_then (index env_step_infos 0) (fun first =>
  for_each (fun env_info k =>
              let env_info := dict_set env_info k [] in
              for_each (fun env_info info =>
                          and_then (dict_get env_info k) (fun old =>
                          and_then (dict_get info k) (fun v =>
                          Ok (dict_set env_info k (old ++ v)))))
                       env_step_infos env_info)
           (keys first) []).

(** One element of [evaluate_results]: [result[0]], [result[1]],
    [result[2]] and [result[4]] are given to [np.vstack], each a scalar
    or a one-dimensional array, here the list of its entries;
    [result[3]] is a list. *)
Record EvaluateResult := {
  ev_neg_solving_time : list R;
  ev_neg_total_nodes : list R;
  ev_primaldualintegral : list R;
  ev_lp_solution_value : list R;
  ev_primal_dual_gap : list R }.

(** [np.vstack] of a list of scalars or one-dimensional arrays: one row
    for each, all of one length. *)
Definition vstack_rows (rows : list (list R)) : result ndarray :=
  match rows with
  | [] => Raise (ValueError "need at least one array to concatenate")
  | row :: rest =>
      if forallb (fun r => len r =? len row) rest then Ok rows
      else Raise (ValueError "all the input array dimensions must match exactly")
  end.

Section Reports.

Context `{Collaborators}.

(** [self.log_evaluate_stats(evaluate_results)] (lines 343-368),
    [self.reward_type] being [reward_type]. *)
Definition log_evaluate_stats (reward_type : string)
           (evaluate_results : list EvaluateResult) : result (dict R) :=
  and_then (vstack_rows (map ev_neg_solving_time evaluate_results))
           (fun neg_solving_time =>
  and_then (vstack_rows (map ev_neg_total_nodes evaluate_results))
           (fun neg_total_nodes =>
  and_then (vstack_rows (map ev_primaldualintegral evaluate_results))
           (fun primaldualintegral =>
  and_then (vstack_rows (map ev_primal_dual_gap evaluate_results))
           (fun primal_dual_gap =>
  let stats := [] in
  let stats := dict_update stats (create_stats_ordered_dict
                                    "evaluating/Neg Solving time"
                                    (flat neg_solving_time)) in
  let stats := dict_update stats (create_stats_ordered_dict
                                    "evaluating/Neg Total Nodes"
                                    (flat neg_total_nodes)) in
  let stats := dict_update stats (create_stats_ordered_dict
                                    "evaluating/PrimalDualIntegral"
                                    (flat primaldualintegral)) in
  let stats := dict_update stats (create_stats_ordered_dict
                                    "evaluating/primal_dual_gap"
                                    (flat primal_dual_gap)) in
  if (reward_type =? "lp_solution_value")%string then
    let lp_solution_value :=
      fold_left (fun acc result => acc ++ ev_lp_solution_value result)
                evaluate_results [] in
    Ok (dict_update stats (create_stats_ordered_dict
                             "evaluating/lp_solution_value" lp_solution_value))
  else Ok stats)))).

(** *** Further observations *)

(** The optimizer steps and the steps of the learning-rate schedules, in
    order. *)
Definition is_pace (e : event) : bool :=
  match e with
  | OptimizerStep _ | SchedulerStep _ => true
  | _ => false
  end.

Definition paces (h : Heap) : list event := filter is_pace (sink h).

(** [info[k]] when the episode has the metric [k], no value otherwise. *)
Definition metric (info : dict (list R)) (k : string) : list R :=
  match dict_get info k with
  | Ok v => v
  | Raise _ => []
  end.

(** The values bound to [k] in the episodes' metrics, in order. *)
Definition gathered (env_step_infos : list (dict (list R))) (k : string) : list R :=
  flat_map (fun info => metric info k) env_step_infos.

(** Arrays that [np.vstack] accepts: at least one, all of one length. *)
Definition stackable (rows : list (list R)) : Prop :=
  rows <> [] /\
  forall r r', In r rows -> In r' rows -> List.length r = List.length r'.

(** A tensor that does not require grad: [backward] cannot start from
    a loss made of such tensors only. *)
Definition without_grad (t : Tensor) : Prop := requires_grad t = false.

(** The entries of a normalised row: [(x - mean) / (std + epsilon)],
    feature by feature. *)
Definition normalized_row (ms : RunningMeanStd) (row : list R) : list R :=
  map (fun p => ((fst (fst p) - snd (fst p)) / (snd p + rms_epsilon ms))%R)
      (combine (combine row (rms_mean ms)) (rms_std ms)).

End Reports.

(** ** A toy instance of the collaborators, and small inputs

    Every network has one parameter [w]; its output is [w] itself, with
    derivative one.  The optimizer is plain gradient descent and
    [clip_grad_norm] leaves the gradients as they are. *)

Module Demo.
Local Open Scope R_scope.

Definition toy : Collaborators := {|
  Net := R;
  Optim := R;
  OptimClass := unit;
  RunningMeanStd := unit;
  optim_attr := fun name =>
    if (name =? "Adam")%string then Some tt
    else if (name =? "SGD")%string then Some tt
    else None;
  optim_new := fun _ _ lr => lr;
  optim_step := fun lr w g => (lr, w - lr * g O);
  optim_lr := fun lr => lr;
  StepLR := fun opt _ _ => opt;
  scheduler_step := fun opt => opt;
  clip_grad_norm := fun g _ => g;
  pointer_logprobs := fun w _ _ _ => ([[1]], (w, fun _ => 1));
  value_forward := fun w _ => (w, fun _ => 1);
  percent_log_prob := fun w _ _ => ((w, fun _ => 1), []);
  embedding_dim := fun _ => 1%Z;
  rms_new := fun _ => tt;
  rms_update := fun ms _ => ms;
  rms_mean := fun _ => [0];
  rms_std := fun _ => [1];
  rms_epsilon := fun _ => 0;
  create_stats_ordered_dict := fun name data => [(name, Np.mean_of data)] |}.

#[local] Existing Instance toy.

(** Constructor arguments: Adam, batches of 32, no normalisation. *)
Definition args (baseline : string) : InitArgs := {|
  arg_pointer_net := -3000;
  arg_value_net := 0;
  arg_optimizer_class := inl "Adam"%string;
  arg_actor_net_lr := 1 / 10000;
  arg_critic_net_lr := 1 / 10000;
  arg_reward_scale := 1;
  arg_max_grad_norm := 2;
  arg_batch_size := 32;
  arg_baseline_type := baseline;
  arg_critic_beta := 9 / 10;
  arg_lr_decay := false;
  arg_lr_decay_step := 5;
  arg_lr_decay_rate := 96 / 100;
  arg_normalize := false;
  arg_normalize_reward := false |}.

(** One episode with the given low-level samples and no metric. *)
Definition episode (d : LowLevelDataset) : EpisodeResult :=
  {| env_step_info := []; low_level := d; high_level := None |}.

(** Three samples of one cut with one feature; the rewards are given. *)
Definition three (r1 r2 r3 : R) : LowLevelDataset :=
  {| state := [[[1]]; [[1]]; [[1]]];
     action := [[0%Z]; [0%Z]; [0%Z]];
     sel_cuts_num := [1%Z; 1%Z; 1%Z];
     neg_reward := [r1; r2; r3] |}.

(** The trainer built from [args baseline]. *)
Definition config (baseline : string) : Config := {|
  actor_net_lr := 1 / 10000;
  critic_net_lr := 1 / 10000;
  reward_scale := 1;
  max_grad_norm := 2;
  batch_size := 32;
  optimizer_class := Some tt;
  baseline_type := baseline;
  critic_beta := 9 / 10;
  lr_decay := false;
  lr_decay_step := 5;
  lr_decay_rate := 96 / 100;
  normalize := false;
  normalize_reward := false |}.

Definition attrs (baseline : string) : Attrs := {|
  pointer_net := -3000;
  value_net := 0;
  policy_optimizer := 1 / 10000;
  value_optimizer := if (baseline =? "net")%string then Some (1 / 10000) else None;
  critic_exp_mvg_avg :=
    if (baseline =? "net")%string then None
    else if (baseline =? "simple")%string then Some 0
    else None;
  mean_std := None;
  grads := gzero;
  hrl := None |}.

(** The trainer before its first call. *)
Definition fresh (baseline : string) : Heap :=
  {| self := attrs baseline; sink := [] |}.

(** The same trainer with a pointer network whose log-probabilities are
    [w]. *)
Definition with_pointer_net (w : R) (h : Heap) : Heap :=
  {| self := set_pointer_net w (self h); sink := sink h |}.

(** The batch aggregated from the three samples. *)
Definition batch (r1 r2 r3 : R) : Batch := {|
  b_neg_rewards := [[1 * r1]; [1 * r2]; [1 * r3]];
  b_states := [[[1]]; [[1]]; [[1]]];
  b_actions := [[0%Z]; [0%Z]; [0%Z]];
  b_sel_cuts_nums := [1%Z; 1%Z; 1%Z];
  b_step_infos := [] |}.

(** Two samples whose action lists hold three indices in all, and whose
    selection counts add up to two. *)
Definition uneven : LowLevelDataset :=
  {| state := [[[1; 2]]; [[3; 4]]];
     action := [[0%Z; 1%Z]; [1%Z]];
     sel_cuts_num := [1%Z; 1%Z];
     neg_reward := [1; 2] |}.

(** The configuration with reward normalisation on. *)
Definition normalizing : Config := set_normalize_reward true (config "simple").

(** Two samples with the given rewards. *)
Definition two (r1 r2 : R) : LowLevelDataset :=
  {| state := [[[1]]; [[1]]];
     action := [[0%Z]; [0%Z]];
     sel_cuts_num := [1%Z; 1%Z];
     neg_reward := [r1; r2] |}.

(** The hierarchical trainer: updates of the high-level policy every
    five epochs, in batches of 32. *)
Definition hargs : HRLInitArgs := {|
  arg_cutsel_percent_policy := -1;
  arg_train_highlevel_policy_freq := 5;
  arg_train_highlevel_batch_size := 32;
  arg_highlevel_actor_lr := 1 / 10000 |}.

Definition hrl_attrs : HRL := {|
  highlevel_actor_lr := 1 / 10000;
  cutsel_percent_policy := -1;
  cutsel_percent_policy_optimizer := 1 / 10000;
  train_highlevel_policy_freq := 5;
  train_highlevel_batch_size := 32;
  train_highlevel_epoch := 1;
  training_highlevel_dataset := empty_buffer;
  critic_exp_mvg_avg_high_level := 0 |}.

Definition hrl_fresh (baseline : string) : Heap :=
  {| self := set_hrl (Some hrl_attrs) (attrs baseline); sink := [] |}.

(** One episode of the hierarchical variant: one high-level sample. *)
Definition hl_data (reward : R) : HighLevelDataset :=
  {| hl_state := [[[1]]]; hl_action := [1 / 2]; hl_neg_reward := [reward] |}.

Definition hl_episode (reward : R) : EpisodeResult :=
  {| env_step_info := [];
     low_level := three 1 2 3;
     high_level := Some (hl_data reward) |}.

(** The hierarchical trainer with one high-level sample of reward
    [reward] in its replay buffer. *)
Definition hrl_loaded (baseline : string) (reward : R) : Heap :=
  {| self := set_hrl (Some (set_training_highlevel_dataset
                              {| states := [[[1]]]; actions := [1 / 2];
                                 neg_rewards := [reward] |} hrl_attrs))
                     (attrs baseline);
     sink := [] |}.

(** A single sample of reward three, and the batch aggregated from it. *)
Definition single : LowLevelDataset :=
  {| state := [[[1]]]; action := [[0%Z]]; sel_cuts_num := [1%Z]; neg_reward := [3] |}.

Definition one : Batch := {|
  b_neg_rewards := [[1 * 3]];
  b_states := [[[1]]];
  b_actions := [[0%Z]];
  b_sel_cuts_nums := [1%Z];
  b_step_infos := [] |}.

(** The batch aggregated from the two samples of rewards [0] and [x]
    with reward normalisation on. *)
Definition normalized (x : R) : Batch :=
  let scaled := scaled_rewards normalizing [episode (two 0 x)] in
  {| b_neg_rewards := center_scale scaled (Np.mean scaled) (Np.std scaled + 1 / 1000);
     b_states := [[[1]]; [[1]]];
     b_actions := [[0%Z]; [0%Z]];
     b_sel_cuts_nums := [1%Z; 1%Z];
     b_step_infos := [] |}.

(** The trainer with feature normalisation on, and with running
    statistics. *)
Definition featured (baseline : string) : Config := {|
  actor_net_lr := 1 / 10000;
  critic_net_lr := 1 / 10000;
  reward_scale := 1;
  max_grad_norm := 2;
  batch_size := 32;
  optimizer_class := Some tt;
  baseline_type := baseline;
  critic_beta := 9 / 10;
  lr_decay := false;
  lr_decay_step := 5;
  lr_decay_rate := 96 / 100;
  normalize := true;
  normalize_reward := false |}.

Definition measured (baseline : string) : Heap :=
  {| self := set_mean_std (Some tt) (attrs baseline); sink := [] |}.

(** The trainer with a batch size of [n] and a decaying learning rate. *)
Definition decaying (baseline : string) (n : Z) : Config := {|
  actor_net_lr := 1 / 10000;
  critic_net_lr := 1 / 10000;
  reward_scale := 1;
  max_grad_norm := 2;
  batch_size := n;
  optimizer_class := Some tt;
  baseline_type := baseline;
  critic_beta := 9 / 10;
  lr_decay := true;
  lr_decay_step := 5;
  lr_decay_rate := 96 / 100;
  normalize := false;
  normalize_reward := false |}.

(** One episode of one sample, with its solving time as a metric. *)
Definition timed (solving_time : R) : EpisodeResult :=
  {| env_step_info := [("solving_time"%string, [solving_time])];
     low_level := single;
     high_level := None |}.

(** An episode without any sample. *)
Definition idle : EpisodeResult :=
  {| env_step_info := [];
     low_level := {| state := []; action := []; sel_cuts_num := []; neg_reward := [] |};
     high_level := Some {| hl_state := []; hl_action := []; hl_neg_reward := [] |} |}.

(** The trainer whose moving average is [ema]. *)
Definition averaging (ema : R) : Heap :=
  {| self := set_critic_exp_mvg_avg (Some ema) (attrs "simple"); sink := [] |}.

End Demo.

(** * Properties *)

(** ** Lists, ranges and slices *)

Lemma len_nonneg {A} (l : list A) : 0 <= len l.
Proof. unfold len. lia. Qed.

Lemma len_app {A} (l1 l2 : list A) : len (l1 ++ l2) = len l1 + len l2.
Proof. unfold len. rewrite length_app. lia. Qed.

Lemma range_nonpos (n : Z) : n <= 0 -> range n = [].
Proof.
  intros Hn. unfold range. replace (Z.to_nat n) with O by lia. reflexivity.
Qed.

Lemma range_add (a b : Z) :
  0 <= a -> 0 <= b -> range (a + b) = range a ++ map (fun j => a + j) (range b).
Proof.
  intros Ha Hb. unfold range.
  rewrite Z2Nat.inj_add by lia.
  rewrite seq_app, map_app. f_equal.
  rewrite map_map. simpl.
  generalize (Z.to_nat b) as n. intros n.
  rewrite <- (Nat.add_0_r (Z.to_nat a)) at 1.
  generalize O as s.
  induction n as [|n IH]; intros s; simpl; [reflexivity|].
  f_equal.
  - lia.
  - rewrite <- IH. f_equal. f_equal. lia.
Qed.

Lemma range_succ (n : Z) : 0 <= n -> range (n + 1) = range n ++ [n].
Proof.
  intros Hn. rewrite range_add by lia.
  f_equal. change (range 1) with [0]. simpl. f_equal. lia.
Qed.

Lemma range_length (n : Z) : List.length (range n) = Z.to_nat n.
Proof. unfold range. rewrite length_map, length_seq. reflexivity. Qed.

Lemma in_range (n i : Z) : In i (range n) <-> 0 <= i < n.
Proof.
  unfold range. rewrite in_map_iff. split.
  - intros [k [<- Hk]]. apply in_seq in Hk. lia.
  - intros Hi. exists (Z.to_nat i). split; [lia|]. apply in_seq. lia.
Qed.

Lemma len_slice_from {A} (l : list A) (a : Z) :
  0 <= a <= len l -> len (slice_from a l) = len l - a.
Proof.
  intros Ha. unfold slice_from, clip_index.
  destruct (Z.ltb_spec a 0); [lia|].
  rewrite Z.min_l by lia.
  unfold len in *. rewrite length_skipn. lia.
Qed.

Lemma length_fold_app {A D} (f : D -> list A) (ds : list D) (init : list A) :
  List.length (fold_left (fun acc d => acc ++ f d) ds init)
  = (List.length init + list_sum (map (fun d => List.length (f d)) ds))%nat.
Proof.
  revert init. induction ds as [|d ds IH]; intros init; simpl.
  - lia.
  - rewrite IH, length_app. lia.
Qed.

Lemma collect_length {A} (rs : list (result A)) (l : list A) :
  collect rs = Ok l -> List.length l = List.length rs.
Proof.
  revert l. induction rs as [|[a|e] rs IH]; intros l; simpl.
  - intros Hl. injection Hl as <-. reflexivity.
  - destruct (collect rs) as [l'|e]; [|discriminate].
    intros Hl. injection Hl as <-. simpl. f_equal. apply IH. reflexivity.
  - discriminate.
Qed.

Lemma vstack_scalars_ok (xs : list R) (a : ndarray) :
  vstack_scalars xs = Ok a -> a = map (fun x => [x]) xs /\ xs <> [].
Proof.
  destruct xs; simpl; [discriminate|].
  intros Ha. injection Ha as <-. split; [reflexivity|discriminate].
Qed.

Lemma fold_app_flat_map {A D} (f : D -> list A) (ds : list D) (init : list A) :
  fold_left (fun acc d => acc ++ f d) ds init = init ++ flat_map f ds.
Proof.
  revert init. induction ds as [|d ds IH]; intros init; simpl.
  - rewrite app_nil_r. reflexivity.
  - rewrite IH, app_assoc. reflexivity.
Qed.

Lemma flat_map_map {A B C} (g : A -> B) (f : B -> list C) (l : list A) :
  flat_map f (map g l) = flat_map (fun x => f (g x)) l.
Proof. induction l; simpl; congruence. Qed.

(** ** Mean and standard deviation *)

Section Statistics.
Local Open Scope R_scope.

Lemma IZR_len_cons {A} (x : A) (xs : list A) : IZR (len (x :: xs)) = IZR (len xs) + 1.
Proof.
  unfold len. simpl List.length. rewrite Nat2Z.inj_succ, succ_IZR. reflexivity.
Qed.

Lemma IZR_len_pos {A} (xs : list A) : xs <> [] -> 0 < IZR (len xs).
Proof.
  destruct xs as [|x xs]; [congruence|]. intros _.
  rewrite IZR_len_cons. pose proof (IZR_le _ _ (len_nonneg xs)). lra.
Qed.

Lemma len_map {A B} (f : A -> B) (l : list A) : len (map f l) = len l.
Proof. unfold len. rewrite length_map. reflexivity. Qed.

Lemma total_centered (xs : list R) (m d : R) :
  total (map (fun x => (x - m) / d) xs) = (total xs - IZR (len xs) * m) / d.
Proof.
  induction xs as [|x xs IH].
  - unfold len. simpl. unfold Rdiv. ring.
  - rewrite IZR_len_cons. simpl. rewrite IH. unfold Rdiv. ring.
Qed.

Lemma total_div (g : R -> R) (c : R) (xs : list R) :
  total (map (fun x => g x / c) xs) = total (map g xs) / c.
Proof.
  induction xs as [|x xs IH]; simpl.
  - unfold Rdiv. ring.
  - rewrite IH. unfold Rdiv. ring.
Qed.

Lemma total_squares_nonneg (g : R -> R) (xs : list R) :
  0 <= total (map (fun x => g x * g x) xs).
Proof.
  induction xs as [|x xs IH]; simpl; [lra|].
  pose proof (Rle_0_sqr (g x)) as Hsq. unfold Rsqr in Hsq. lra.
Qed.

Lemma flat_center_scale (a : ndarray) (m d : R) :
  flat (center_scale a m d) = map (fun x => (x - m) / d) (flat a).
Proof. unfold flat, center_scale. rewrite concat_map. reflexivity. Qed.

(** The mean of centred rewards vanishes. *)
Lemma mean_center_scale (a : ndarray) (d : R) :
  Np.mean (center_scale a (Np.mean a) d) = 0.
Proof.
  unfold Np.mean at 1. rewrite flat_center_scale.
  unfold mean_of. rewrite total_centered, len_map.
  destruct (flat a) as [|x xs] eqn:Hxs.
  - unfold len. simpl. unfold Rdiv. ring.
  - unfold Np.mean, mean_of. rewrite Hxs.
    pose proof (IZR_len_pos (x :: xs) ltac:(discriminate)) as Hn.
    replace (total (x :: xs) - IZR (len (x :: xs)) * (total (x :: xs) / IZR (len (x :: xs))))
      with 0 by (field; lra).
    unfold Rdiv. ring.
Qed.

Lemma std_nonneg (a : ndarray) : 0 <= Np.std a.
Proof. apply sqrt_pos. Qed.

(** Dividing centred rewards by [d] divides their deviation by [d]. *)
Lemma std_center_scale (a : ndarray) (d : R) :
  0 < d -> Np.std (center_scale a (Np.mean a) d) = Np.std a / d.
Proof.
  intros Hd. unfold Np.std.
  rewrite mean_center_scale, flat_center_scale, map_map.
  rewrite (map_ext _ (fun x => ((x - Np.mean a) * (x - Np.mean a)) / (d * d))).
  2:{ intros x. field. lra. }
  unfold mean_of. rewrite total_div, !len_map.
  set (v := total (map (fun x => (x - Np.mean a) * (x - Np.mean a)) (flat a))).
  replace (v / (d * d) / IZR (len (flat a))) with (v / IZR (len (flat a)) / (d * d))
    by (unfold Rdiv; ring).
  rewrite sqrt_div_alt by nra. rewrite sqrt_square by lra. reflexivity.
Qed.

(** [s / (s + 0.001)] is within [0.001] of one exactly from [s = 0.999] on. *)
Lemma within_tolerance (s : R) :
  0 <= s -> (Rabs (s / (s + 1 / 1000) - 1) <= 1 / 1000 <-> 999 / 1000 <= s).
Proof.
  intros Hs.
  replace (s / (s + 1 / 1000) - 1) with (- ((1 / 1000) / (s + 1 / 1000))) by (field; lra).
  rewrite Rabs_Ropp, Rabs_pos_eq.
  2:{ apply Rlt_le, Rdiv_lt_0_compat; lra. }
  assert (Hpos : 0 < s + 1 / 1000) by lra.
  split; intros Hle.
  - apply (Rmult_le_compat_r _ _ _ (Rlt_le _ _ Hpos)) in Hle.
    unfold Rdiv in Hle. rewrite Rmult_assoc, Rinv_l in Hle by lra. lra.
  - apply (Rmult_le_reg_r (s + 1 / 1000)); [exact Hpos|].
    unfold Rdiv. rewrite Rmult_assoc, Rinv_l by lra. nra.
Qed.

End Statistics.

(** ** Broadcasting and derivatives *)

Lemma broadcast_Forall {A B C} (f : A -> B -> C)
      (PA : A -> Prop) (PB : B -> Prop) (P : C -> Prop) x y z :
  Forall PA x -> Forall PB y ->
  (forall a b, PA a -> PB b -> P (f a b)) ->
  broadcast f x y = Ok z -> Forall P z.
Proof.
  intros Hx Hy Hf. unfold broadcast.
  assert (Hzip : Forall P (map (fun p => f (fst p) (snd p)) (combine x y))).
  { apply Forall_map, Forall_forall. intros [a b] Hin. simpl.
    rewrite Forall_forall in Hx, Hy.
    apply Hf; [eapply Hx, in_combine_l, Hin|eapply Hy, in_combine_r, Hin]. }
  assert (Hl : forall a, PA a -> Forall P (map (f a) y)).
  { intros a Ha. apply Forall_map. eapply Forall_impl; [|exact Hy]. auto. }
  assert (Hr : forall b, PB b -> Forall P (map (fun a => f a b) x)).
  { intros b Hb. apply Forall_map. eapply Forall_impl; [|exact Hx]. auto. }
  destruct (len x =? len y).
  - intros Hz. injection Hz as <-. exact Hzip.
  - destruct x as [|a [|a' x]]; destruct y as [|b [|b' y]];
      intros Hz; try discriminate; injection Hz as <-;
      try (apply Hl; inversion Hx; assumption);
      try (apply Hr; inversion Hy; assumption);
      constructor.
Qed.

Lemma collect_Forall {A} (P : A -> Prop) (rs : list (result A)) (z : list A) :
  Forall (fun r => forall a, r = Ok a -> P a) rs ->
  collect rs = Ok z -> Forall P z.
Proof.
  revert z. induction rs as [|[a|e] rs IH]; intros z Hrs; simpl.
  - intros Hz. injection Hz as <-. constructor.
  - destruct (collect rs) as [l|e]; [|discriminate].
    intros Hz. injection Hz as <-. inversion Hrs; subst.
    constructor; [auto|]. apply IH; auto.
  - discriminate.
Qed.

Lemma broadcast2_Forall {A B C} (f : A -> B -> C)
      (PA : A -> Prop) (PB : B -> Prop) (P : C -> Prop) x y z :
  Forall (Forall PA) x -> Forall (Forall PB) y ->
  (forall a b, PA a -> PB b -> P (f a b)) ->
  broadcast2 f x y = Ok z -> Forall (Forall P) z.
Proof.
  intros Hx Hy Hf. unfold broadcast2.
  destruct (broadcast (broadcast f) x y) as [rows|e] eqn:Hrows; [|discriminate].
  apply collect_Forall.
  eapply (broadcast_Forall (broadcast f) (Forall PA) (Forall PB)); eauto.
  intros a b Ha Hb r Hr.
  exact (broadcast_Forall f PA PB P a b r Ha Hb Hf Hr).
Qed.

Lemma Forall_set_nth {A} (P : A -> Prop) (j : nat) (x : A) (l : list A) :
  P x -> Forall P l -> Forall P (set_nth j x l).
Proof.
  intros Hx Hl. revert j. induction Hl as [|y l Hy Hl IH]; intros j.
  - destruct j; constructor.
  - destruct j; simpl; constructor; auto.
Qed.

Section Derivatives.
Local Open Scope R_scope.











End Derivatives.

(** ** The mini-batch partition *)

Lemma train_loop_of_pos (n bs : Z) :
  0 <= n -> 0 < bs ->
  train_loop_of n bs = Ok (if n <? bs then 1 else ceil_div n bs).
Proof.
  intros Hn Hbs. unfold train_loop_of, mod_, int_truediv, ceil_div.
  destruct (Z.ltb_spec n bs) as [Hlt|Hge]; [reflexivity|].
  destruct (Z.eqb_spec bs 0) as [|_]; [lia|].
  rewrite Z.quot_div_nonneg by lia.
  pose proof (Z.div_mod n bs ltac:(lia)) as Hdm.
  pose proof (Z.mod_pos_bound n bs Hbs) as Hm.
  destruct (n mod bs) as [|p|p] eqn:Hmod.
  - f_equal. apply Z.div_unique_pos with (r := bs - 1); lia.
  - f_equal. apply Z.div_unique_pos with (r := Z.pos p - 1); lia.
  - lia.
Qed.

Lemma loops_bounds (n bs : Z) :
  0 <= n -> 0 < bs ->
  let loops := if n <? bs then 1 else ceil_div n bs in
  1 <= loops /\ bs * (loops - 1) <= n /\ n <= bs * loops /\
  (bs <= n -> n - bs * (loops - 1) <= bs).
Proof.
  intros Hn Hbs. unfold ceil_div.
  destruct (Z.ltb_spec n bs) as [Hlt|Hge]; simpl; [lia|].
  pose proof (Z.div_mod (n + bs - 1) bs ltac:(lia)) as Hdm.
  pose proof (Z.mod_pos_bound (n + bs - 1) bs Hbs) as Hm.
  nia.
Qed.

Lemma full_batches (bs : Z) (k : nat) :
  0 < bs ->
  flat_map (fun i => map (fun j => i * bs + j) (range bs)) (range (Z.of_nat k))
  = range (Z.of_nat k * bs).
Proof.
  intros Hbs. induction k as [|k IH].
  - reflexivity.
  - replace (Z.of_nat (S k)) with (Z.of_nat k + 1) by lia.
    rewrite range_succ by lia.
    rewrite flat_map_app, IH. simpl. rewrite app_nil_r.
    replace ((Z.of_nat k + 1) * bs) with (Z.of_nat k * bs + bs) by lia.
    rewrite range_add by nia. reflexivity.
Qed.

(** C3. For a batch of [N] samples and a positive configured batch size,
    [train] runs [ceil(N / batch_size)] mini-batch loops (one loop when
    [N < batch_size]); every loop but the last has [batch_size] samples,
    the last has [N - batch_size * (loops - 1)], and the samples visited,
    loop after loop, are exactly the samples [0 .. N-1] in order. *)
Theorem minibatch_partition {A} (states : list A) (bs : Z) :
  0 < bs ->
  let N := len states in
  let loops := if N <? bs then 1 else ceil_div N bs in
  train_loop_of N bs = Ok loops /\
  minibatch_sizes states bs loops
  = repeat bs (Z.to_nat (loops - 1)) ++ [N - bs * (loops - 1)] /\
  visited_indices states bs loops = range N.
Proof.
  intros Hbs N loops.
  pose proof (len_nonneg states) as HN. fold N in HN.
  pose proof (loops_bounds N bs HN Hbs) as (Hl1 & Hl2 & Hl3 & _). fold loops in Hl1, Hl2, Hl3.
  split; [apply train_loop_of_pos; assumption|].
  assert (Hlast : minibatch_size states bs loops (loops - 1) = N - bs * (loops - 1)).
  { unfold minibatch_size. rewrite Z.eqb_refl.
    assert (0 <= (loops - 1) * bs <= len states) by (fold N; nia).
    rewrite len_slice_from by assumption. fold N. lia. }
  assert (Hfull : forall i, In i (range (loops - 1)) ->
                            minibatch_size states bs loops i = bs).
  { intros i Hi. apply in_range in Hi. unfold minibatch_size.
    destruct (Z.eqb_spec i (loops - 1)); [lia|reflexivity]. }
  assert (Hr : range loops = range (loops - 1) ++ [loops - 1]).
  { rewrite <- range_succ by lia. f_equal. lia. }
  clearbody loops N.
  unfold minibatch_sizes, visited_indices.
  rewrite Hr.
  split.
  - rewrite map_app. simpl. rewrite Hlast. f_equal.
    rewrite (map_ext_in _ (fun _ => bs)) by exact Hfull.
    rewrite <- range_length.
    generalize (range (loops - 1)) as l. intros l.
    induction l; simpl; congruence.
  - rewrite flat_map_app. simpl. rewrite app_nil_r, Hlast.
    rewrite flat_map_concat_map.
    rewrite (map_ext_in _ (fun i => map (fun j => i * bs + j) (range bs))).
    2:{ intros i Hi. rewrite (Hfull i Hi). reflexivity. }
    rewrite <- flat_map_concat_map.
    replace (loops - 1) with (Z.of_nat (Z.to_nat (loops - 1))) at 1 by lia.
    rewrite full_batches by assumption.
    rewrite Z2Nat.id by lia.
    replace N with ((loops - 1) * bs + (N - bs * (loops - 1))) at 2 by lia.
    rewrite range_add by nia. reflexivity.
Qed.

(** ** Runs of a computation *)

Lemma bind_inv {S A B} (m : M S A) (k : A -> M S B) (s : S) r s' :
  bind m k s = (r, s') ->
  (exists a s1, m s = (Ok a, s1) /\ k a s1 = (r, s')) \/
  (exists e, m s = (Raise e, s') /\ r = Raise e).
Proof.
  unfold bind. destruct (m s) as [[a|e] s1]; intros Hr.
  - left. eauto.
  - right. inversion Hr; subst. eauto.
Qed.

Lemma bind_ok_inv {S A B} (m : M S A) (k : A -> M S B) (s : S) b s' :
  bind m k s = (Ok b, s') ->
  exists a s1, m s = (Ok a, s1) /\ k a s1 = (Ok b, s').
Proof.
  intros Hr. apply bind_inv in Hr as [Hr|[e [_ He]]]; [assumption|discriminate].
Qed.

Lemma bind_run {S A B} (m : M S A) (k : A -> M S B) (s s1 : S) a :
  m s = (Ok a, s1) -> bind m k s = k a s1.
Proof. intros Hm. unfold bind. rewrite Hm. reflexivity. Qed.

Lemma bind_raise {S A B} (m : M S A) (k : A -> M S B) (s s1 : S) e :
  m s = (Raise e, s1) -> bind m k s = (Raise e, s1).
Proof. intros Hm. unfold bind. rewrite Hm. reflexivity. Qed.

Lemma ret_inv {S A} (a : A) (s : S) r s' :
  ret a s = (r, s') -> r = Ok a /\ s' = s.
Proof. intros Hr. inversion Hr. auto. Qed.

Lemma lift_inv {S A} (x : result A) (s : S) r s' :
  lift x s = (r, s') -> x = r /\ s' = s.
Proof. intros Hr. inversion Hr. auto. Qed.

Lemma gets_inv {S A} (g : S -> A) (s : S) r s' :
  gets g s = (r, s') -> r = Ok (g s) /\ s' = s.
Proof. intros Hr. inversion Hr. auto. Qed.

Lemma modify_inv {S} (g : S -> S) (s : S) r s' :
  modify g s = (r, s') -> r = Ok tt /\ s' = g s.
Proof. intros Hr. inversion Hr. auto. Qed.

Lemma bound_ok_inv {S A} e (o : option A) (s : S) a s' :
  bound e o s = (Ok a, s') -> o = Some a /\ s' = s.
Proof. destruct o; intros Hr; inversion Hr; auto. Qed.

(** Takes a successful run apart, step by step. *)
Ltac run_inv :=
  repeat
    (cbv beta zeta in *;
     match goal with
     | H : bind _ _ _ = (Ok _, _) |- _ =>
         let a := fresh "a" in
         let s := fresh "s" in
         let H1 := fresh "Hrun" in
         apply bind_ok_inv in H as (a & s & H1 & H)
     | H : ret _ _ = (_, _) |- _ => apply ret_inv in H as [? ?]
     | H : lift _ _ = (_, _) |- _ => apply lift_inv in H as [? ?]
     | H : gets _ _ = (_, _) |- _ => apply gets_inv in H as [? ?]
     | H : modify _ _ = (_, _) |- _ => apply modify_inv in H as [? ?]
     | H : bound _ _ _ = (Ok _, _) |- _ => apply bound_ok_inv in H as [? ?]
     | H : when _ _ _ = (_, _) |- _ => unfold when in H
     | H : emit _ _ = (_, _) |- _ => unfold emit in H
     | H : assign _ _ = (_, _) |- _ => unfold assign in H
     | H : attr _ _ = (_, _) |- _ => unfold attr in H
     | H : attr_opt _ _ _ = (_, _) |- _ => unfold attr_opt in H
     | H : hrl_attr _ _ = (_, _) |- _ => unfold hrl_attr in H
     | H : hrl_assign _ _ = (_, _) |- _ => unfold hrl_assign in H
     | H : Ok _ = Ok _ |- _ => injection H as H
     | H : Ok _ = Raise _ |- _ => discriminate H
     | H : Raise _ = Ok _ |- _ => discriminate H
     end).

#[local] Instance kept_preorder {S X} (f : S -> X) : PreOrder (kept f).
Proof.
  split.
  - intros s. reflexivity.
  - intros s1 s2 s3 H12 H23. unfold kept in *. congruence.
Qed.

Abbreviation preserves f := (steps (kept f)).

Section Steps.

Context {S : Type} (rel : S -> S -> Prop) `{!PreOrder rel}.

Lemma steps_ret {A} (a : A) : steps rel (ret a).
Proof. intros s r s' Hr. inversion Hr. reflexivity. Qed.

Lemma steps_raise {A} e : steps rel (@raise S A e).
Proof. intros s r s' Hr. inversion Hr. reflexivity. Qed.

Lemma steps_lift {A} (x : result A) : steps rel (lift x).
Proof. intros s r s' Hr. inversion Hr. reflexivity. Qed.

Lemma steps_gets {A} (g : S -> A) : steps rel (gets g).
Proof. intros s r s' Hr. inversion Hr. reflexivity. Qed.

Lemma steps_bound {A} e (o : option A) : steps rel (bound e o).
Proof. destruct o; [apply steps_ret|apply steps_raise]. Qed.

Lemma steps_modify (g : S -> S) : (forall s, rel s (g s)) -> steps rel (modify g).
Proof. intros Hg s r s' Hr. inversion Hr. apply Hg. Qed.

Lemma steps_bind {A B} (m : M S A) (k : A -> M S B) :
  steps rel m -> (forall a, steps rel (k a)) -> steps rel (bind m k).
Proof.
  intros Hm Hk s r s' Hr.
  apply bind_inv in Hr as [(a & s1 & H1 & H2)|(e & H1 & _)].
  - transitivity s1; [eapply Hm, H1|eapply Hk, H2].
  - eapply Hm, H1.
Qed.

Lemma steps_foldM {X A} (body : A -> X -> M S A) xs :
  (forall a x, steps rel (body a x)) -> forall a, steps rel (foldM body xs a).
Proof.
  intros Hb. induction xs as [|x xs IH]; intros a; simpl.
  - apply steps_ret.
  - apply steps_bind; [apply Hb|exact IH].
Qed.

Lemma steps_when (b : bool) (m : M S unit) : steps rel m -> steps rel (when b m).
Proof. intros Hm. destruct b; [exact Hm|apply steps_ret]. Qed.

End Steps.

(** The head constant of a term. *)
Ltac head_of t :=
  lazymatch t with
  | ?g _ => head_of g
  | _ => t
  end.

(** Proves [steps rel m] by following the structure of [m]; [leaf]
    settles what is left for an assignment or a recorded call. *)
Ltac frame_with leaf :=
  repeat
    (cbv zeta;
     lazymatch goal with
     | |- forall _, _ => intro
     | |- steps _ (ret _) => apply steps_ret; exact _
     | |- steps _ (raise _) => apply steps_raise; exact _
     | |- steps _ (lift _) => apply steps_lift; exact _
     | |- steps _ (gets _) => apply steps_gets; exact _
     | |- steps _ (bound _ _) => apply steps_bound; exact _
     | |- steps _ (modify _) => apply steps_modify; intro; leaf
     | |- steps _ (bind _ _) => apply steps_bind; [exact _| |]
     | |- steps _ (foldM _ _ _) => apply steps_foldM; [exact _|]
     | |- steps _ (when _ _) => apply steps_when; [exact _|]
     | |- steps _ (if ?b then _ else _) => destruct b
     | |- steps _ (match ?x with _ => _ end) => destruct x
     | |- steps _ (hrl_assign _) =>
         first [solve [eauto with frame nocore]|unfold hrl_assign]
     | |- steps _ ?m => let c := head_of m in unfold c
     end).

Ltac frame := frame_with ltac:(reflexivity).

Create HintDb frame.

(** From the run [H : m s = (r, s')], the fact [rel s s'], [tac] proving
    [steps rel m]. *)
Ltac step_fact H rel tac :=
  lazymatch type of H with
  | ?m ?s = (?r, ?s') =>
      let Hs := fresh "Hstep" in
      assert (Hs : rel s s') by (refine ((_ : steps rel m) s r s' H); tac)
  end.

(** ** The trainers *)

Section Properties.

Context `{Collaborators}.

Lemma update_baseline_simple cfg neg_rewards epoch h ema :
  baseline_type cfg = "simple"%string ->
  ema_of h = Some ema ->
  update_baseline cfg neg_rewards epoch h
  = (Ok tt, {| self := set_critic_exp_mvg_avg
                         (Some (if epoch =? 1 then Np.mean neg_rewards
                                else ema * critic_beta cfg
                                     + (1 - critic_beta cfg) * Np.mean neg_rewards)%R)
                         (self h);
               sink := sink h |}).
Proof.
  intros Hb He. unfold update_baseline. rewrite Hb. simpl.
  destruct (epoch =? 1); [reflexivity|].
  unfold attr_opt, attr, bind, gets. unfold ema_of in He. rewrite He. reflexivity.
Qed.

(** C1. With the 'simple' baseline, [train] assigns the moving average
    once, after the aggregation and before the first mini-batch loop: the
    mean of the rewards returned by [_process_data] when [epoch = 1],
    [ema * beta + (1 - beta) * mean] otherwise.  The loops, the
    checkpoint and the report run from the state so updated, and none of
    them assigns it again, however the call ends. *)
Theorem simple_baseline_update cfg raw epoch h b h1 ema :
  baseline_type cfg = "simple"%string ->
  0 < batch_size cfg ->
  ema_of h = Some ema ->
  _process_data cfg raw h = (Ok b, h1) ->
  let ema' := (if epoch =? 1 then Np.mean (b_neg_rewards b)
               else ema * critic_beta cfg
                    + (1 - critic_beta cfg) * Np.mean (b_neg_rewards b))%R in
  let loops := if len (b_states b) <? batch_size cfg then 1
               else ceil_div (len (b_states b)) (batch_size cfg) in
  train cfg raw epoch h
  = (loc <- foldM (minibatch cfg epoch loops b) (range loops) unbound ;;
     lr_update cfg epoch ;;;
     self_save_checkpoint cfg epoch ;;;
     report cfg epoch b loc)
      {| self := set_critic_exp_mvg_avg (Some ema') (self h1); sink := sink h1 |}
  /\ ema_of (snd (train cfg raw epoch h)) = Some ema'.
Proof.
  intros Hb Hbs He Hp ema' loops.
  assert (He1 : ema_of h1 = Some ema).
  { step_fact Hp (kept ema_of) ltac:(frame). congruence. }
  assert (Ht : train cfg raw epoch h
               = (loc <- foldM (minibatch cfg epoch loops b) (range loops) unbound ;;
                  lr_update cfg epoch ;;;
                  self_save_checkpoint cfg epoch ;;;
                  report cfg epoch b loc)
                   {| self := set_critic_exp_mvg_avg (Some ema') (self h1);
                      sink := sink h1 |}).
  { unfold train. rewrite (bind_run _ _ _ _ _ Hp).
    rewrite (bind_run _ _ h1 h1 loops).
    2:{ unfold lift. rewrite train_loop_of_pos by (auto using len_nonneg). reflexivity. }
    rewrite (bind_run _ _ _ _ _ (update_baseline_simple _ _ _ _ _ Hb He1)).
    reflexivity. }
  split; [exact Ht|].
  rewrite Ht.
  match goal with |- ema_of (snd (?m ?s)) = _ =>
    destruct (m s) as [r h'] eqn:Hr end.
  step_fact Hr (kept ema_of) ltac:(frame). exact Hstep.
Qed.

(** A low-level dataset with as many states as action lists, selection
    counts and rewards. *)
Lemma low_level_totals (ds : list LowLevelDataset) :
  Forall well_formed ds ->
  let total f := list_sum (map f ds) in
  total (fun d => List.length (state d)) = total (fun d => List.length (action d)) /\
  total (fun d => List.length (action d)) = total (fun d => List.length (sel_cuts_num d)) /\
  total (fun d => List.length (sel_cuts_num d)) = total (fun d => List.length (neg_reward d)).
Proof.
  induction 1 as [|d ds (H1 & H2 & H3) _ IH]; simpl; [auto|].
  simpl in IH. destruct IH as (I1 & I2 & I3).
  rewrite H1, H2, H3, I1, I2, I3. auto.
Qed.

(** C7. When every episode's low-level dataset has as many states as
    action lists, selection counts and rewards, the batch returned by
    [_process_data] has as many states as action lists, selection counts
    and rows of rewards, and every row of the rewards holds one number (a
    column vector).  Nothing is asked of the lengths of the action lists
    against the selection counts. *)
Theorem aggregation_lengths cfg raw h b h' :
  Forall (fun r => well_formed (low_level r)) raw ->
  _process_data cfg raw h = (Ok b, h') ->
  len (b_states b) = len (b_actions b) /\
  len (b_actions b) = len (b_sel_cuts_nums b) /\
  len (b_sel_cuts_nums b) = len (b_neg_rewards b) /\
  Forall (fun row => len row = 1) (b_neg_rewards b).
Proof.
  intros Hwf Hrun.
  apply Forall_map in Hwf.
  destruct (low_level_totals _ Hwf) as (T1 & T2 & T3).
  unfold _process_data in Hrun.
  set (ds := map low_level raw) in *.
  run_inv.
  match goal with H : vstack_scalars _ = Ok _ |- _ =>
    apply vstack_scalars_ok in H as [-> _] end.
  assert (Hrewards :
            List.length a0 = List.length (fold_left (fun acc d => acc ++ neg_reward d) ds [])
            /\ Forall (fun row => len row = 1) a0).
  { destruct (normalize_reward cfg); run_inv; subst a0;
      unfold center_scale, Np.scale; rewrite !map_map, !length_map;
      (split; [reflexivity|]); apply Forall_map, Forall_forall; reflexivity. }
  destruct Hrewards as [Hlen Hcols].
  unfold len.
  destruct (normalize cfg); run_inv; subst b; simpl.
  - match goal with H : collect _ = Ok _ |- _ =>
      apply collect_length in H; rewrite length_map in H; rewrite H end.
    rewrite Hlen, !length_fold_app. simpl. auto 6 using f_equal.
  - rewrite Hlen, !length_fold_app. simpl. auto 6 using f_equal.
Qed.

#[local] Instance grows_preorder : PreOrder grows.
Proof.
  split.
  - intros s. exists []. rewrite app_nil_r. reflexivity.
  - intros s1 s2 s3 [t1 H1] [t2 H2]. exists (t1 ++ t2).
    rewrite H2, H1, app_assoc. reflexivity.
Qed.

(** Settles [grows] for an assignment and for a recorded call. *)
Ltac grows_leaf :=
  first [ exists []; simpl; rewrite app_nil_r; reflexivity
        | eexists; simpl; reflexivity ].

Lemma process_data_grows cfg raw : steps grows (_process_data cfg raw).
Proof. frame_with grows_leaf. Qed.

Lemma stacked_rewards (raw : list EpisodeResult) :
  fold_left (fun acc d => acc ++ neg_reward d) (map low_level raw) []
  = flat_map (fun r => neg_reward (low_level r)) raw.
Proof. rewrite fold_app_flat_map, flat_map_map. reflexivity. Qed.

(** C5 (amended). [_process_data] multiplies the rewards by
    [reward_scale] in every case.  When reward normalisation is off it
    returns them so.  When it is on, it first sends the scaled rewards,
    not yet normalised, to the logger, and returns
    [(reward - mean) / (std + 0.001)]: rewards of mean zero and of
    standard deviation [s / (s + 0.001)], [s] being the deviation of the
    scaled rewards, which is within [0.001] of one exactly when
    [s >= 0.999]. *)
Theorem reward_scaling_and_normalization cfg raw h b h' :
  _process_data cfg raw h = (Ok b, h') ->
  let scaled := scaled_rewards cfg raw in
  if normalize_reward cfg then
    b_neg_rewards b
    = center_scale scaled (Np.mean scaled) (Np.std scaled + 1 / 1000)%R /\
    (exists t, sink h' = sink h ++ RecordDict (create_stats_ordered_dict
                 "training/Nonnormalize Neg Reward" (flat scaled)) :: t) /\
    Np.mean (b_neg_rewards b) = 0%R /\
    Np.std (b_neg_rewards b) = (Np.std scaled / (Np.std scaled + 1 / 1000))%R /\
    ((Rabs (Np.std (b_neg_rewards b) - 1) <= 1 / 1000)%R
     <-> (999 / 1000 <= Np.std scaled)%R)
  else
    b_neg_rewards b = scaled /\
    (normalize cfg = false -> sink h' = sink h).
Proof.
  intros Hrun scaled.
  unfold _process_data in Hrun.
  rewrite stacked_rewards in Hrun.
  run_inv.
  match goal with H : vstack_scalars _ = Ok _ |- _ =>
    apply vstack_scalars_ok in H as [-> _] end.
  fold (scaled_rewards cfg raw) in *. fold scaled in Hrun1.
  step_fact Hrun grows ltac:(frame_with grows_leaf).
  destruct Hstep as [t Ht].
  assert (Hb : b_neg_rewards b = a0).
  { destruct (normalize cfg); run_inv; subst b; reflexivity. }
  step_fact Hrun3 (kept sink) ltac:(frame).
  rename Hstep into Hinfos. unfold kept in Hinfos.
  pose proof (std_nonneg scaled) as Hs.
  destruct (normalize_reward cfg).
  - run_inv. subst.
    rewrite Hb.
    split; [reflexivity|].
    split.
    { exists t. rewrite Ht, Hinfos. simpl. rewrite <- app_assoc. reflexivity. }
    split; [apply mean_center_scale|].
    rewrite std_center_scale by lra.
    split; [reflexivity|]. apply within_tolerance. exact Hs.
  - run_inv. subst. split; [exact Hb|].
    intros Hn. rewrite Hn in Hrun. run_inv. subst. exact Hinfos.
Qed.

(** Settles [kept f] for an observation [f] that filters the sink. *)
Ltac filter_leaf :=
  unfold kept, machinery, milestones, checkpoints; simpl;
  rewrite ?filter_app; simpl; rewrite ?app_nil_r; reflexivity.

Lemma sample_step_machinery cfg epoch b i loc j :
  preserves machinery (sample_step cfg epoch b i loc j).
Proof. frame_with filter_leaf. Qed.

Lemma machinery_emit (h : Heap) (e : event) :
  machinery {| self := self h; sink := sink h ++ [e] |}
  = machinery h ++ (if is_machinery e then [e] else []).
Proof.
  unfold machinery. simpl. rewrite filter_app. simpl.
  destruct (is_machinery e); reflexivity.
Qed.

(** Computes the machinery calls of a run taken apart by [run_inv]. *)
Ltac machinery_calls :=
  run_inv; subst; unfold machinery, update_calls; simpl;
  rewrite ?filter_app; simpl; rewrite <- ?app_assoc; reflexivity.

Lemma update_machinery (n : net_id) (loss : Tensor) (max_norm : R) s0 s1 s2 s3 a1 a2 a3 :
  zero_grad n s0 = (Ok a1, s1) ->
  loss_backward loss s1 = (Ok a2, s2) ->
  clip n max_norm s2 = (Ok a3, s3) ->
  machinery s3 = machinery s0 ++ [ZeroGrad n; Backward loss; ClipGradNorm n max_norm].
Proof.
  unfold zero_grad, loss_backward, clip. intros H1 H2 H3. machinery_calls.
Qed.

Lemma policy_step_machinery s s' a :
  policy_optimizer_step s = (Ok a, s') ->
  machinery s' = machinery s ++ [OptimizerStep PointerNet].
Proof. unfold policy_optimizer_step. intros H1. machinery_calls. Qed.

Lemma value_step_machinery s s' a :
  value_optimizer_step s = (Ok a, s') ->
  machinery s' = machinery s ++ [OptimizerStep ValueNet].
Proof. unfold value_optimizer_step. intros H1. machinery_calls. Qed.

Lemma critic_update_machinery cfg rewards loc s closs s' :
  critic_update cfg rewards loc s = (Ok closs, s') ->
  machinery s' = machinery s ++ update_calls ValueNet closs (max_grad_norm cfg) /\
  exists v, neg_baseline_value loc = Some v /\ MSELoss v rewards = Ok closs.
Proof.
  unfold critic_update. intros Hrun. run_inv. subst.
  match goal with Hs : value_optimizer_step _ = _ |- _ =>
    rewrite (value_step_machinery _ _ _ Hs) end.
  match goal with
    H1 : zero_grad _ _ = _, H2 : loss_backward _ _ = _, H3 : clip _ _ _ = _ |- _ =>
      rewrite (update_machinery _ _ _ _ _ _ _ _ _ _ H1 H2 H3) end.
  subst. split.
  - unfold update_calls. rewrite <- app_assoc. reflexivity.
  - eauto.
Qed.

(** One successful mini-batch loop: the advantage, the REINFORCE loss
    and its update of the policy, then, with the 'net' baseline, the
    critic loss and its update of the value network; no other call to
    the machinery. *)
Lemma minibatch_machinery cfg epoch train_loop b loc i h loc' h' :
  minibatch cfg epoch train_loop b loc i h = (Ok loc', h') ->
  let rewards :=
    from_numpy (minibatch_rows (b_neg_rewards b) (batch_size cfg) train_loop i) in
  exists adv lps prod calls,
    neg_advantage loc' = Some adv /\
    logprobs loc' = Some lps /\
    broadcast2 mul adv lps = Ok prod /\
    reinforce_loss loc' = Some (Torch.mean prod) /\
    machinery h'
    = machinery h ++ update_calls PointerNet (Torch.mean prod) (max_grad_norm cfg)
      ++ calls /\
    if (baseline_type cfg =? "net")%string
    then exists v closs,
        neg_baseline_value loc' = Some v /\
        broadcast2 sub rewards (map (map detach) v) = Ok adv /\
        MSELoss v rewards = Ok closs /\
        critic_loss loc' = Some closs /\
        calls = update_calls ValueNet closs (max_grad_norm cfg)
    else calls = [].
Proof.
  intros Hrun rewards. unfold minibatch in Hrun.
  run_inv.
  match goal with Hl : loc' = _ |- _ => rewrite Hl; simpl end.
  match goal with Hm : broadcast2 mul ?x ?y = Ok ?z |- _ => exists x, y, z end.
  match goal with Hm : logprobs _ = Some _ |- _ => rewrite Hm end.
  assert (Hadv : (baseline_type cfg =? "net")%string = true ->
                 exists v, neg_baseline_value a2 = Some v /\
                           broadcast2 sub rewards (map (map detach) v) = Ok a7).
  { intros Hnet.
    match goal with Ha : advantage _ _ _ _ = _ |- _ =>
      unfold advantage in Ha; rewrite Hnet in Ha end.
    destruct (baseline_type cfg =? "simple")%string eqn:Hsimple.
    { apply String.eqb_eq in Hsimple, Hnet. congruence. }
    destruct (baseline_type cfg =? "no_baseline")%string eqn:Hnone.
    { apply String.eqb_eq in Hnone, Hnet. congruence. }
    run_inv. subst. eexists. split; [eassumption|].
    match goal with Hx : Some _ = Some _ |- _ => injection Hx as <- end.
    assumption. }
  repeat match goal with
         | Hs : foldM _ _ _ _ = _ |- _ =>
             step_fact Hs (kept machinery) ltac:(frame_with filter_leaf); clear Hs
         | Hs : advantage _ _ _ _ = _ |- _ =>
             step_fact Hs (kept machinery) ltac:(frame_with filter_leaf); clear Hs
         | Hs : (if _ then bind _ _ else ret (neg_baseline_value _)) _ = _ |- _ =>
             step_fact Hs (kept machinery) ltac:(frame_with filter_leaf); clear Hs
         end.
  unfold kept in *.
  match goal with
    H1 : zero_grad _ _ = _, H2 : loss_backward _ _ = _, H3 : clip _ _ _ = _ |- _ =>
      pose proof (update_machinery _ _ _ _ _ _ _ _ _ _ H1 H2 H3) as Hu
  end.
  match goal with Hs : policy_optimizer_step _ = _ |- _ =>
    pose proof (policy_step_machinery _ _ _ Hs) as Hp end.
  match type of Hp with machinery ?s13 = _ =>
    assert (Hpol : machinery s13
                   = machinery h ++ update_calls PointerNet (Torch.mean a9)
                                                 (max_grad_norm cfg))
  end.
  { rewrite Hp, Hu. subst. unfold update_calls. rewrite <- app_assoc. f_equal.
    repeat match goal with Hk : machinery _ = machinery _ |- _ =>
             rewrite Hk; clear Hk end.
    rewrite machinery_emit. simpl. rewrite app_nil_r.
    repeat match goal with Hk : machinery _ = machinery _ |- _ =>
             rewrite Hk; clear Hk end.
    rewrite machinery_emit. simpl. rewrite app_nil_r. reflexivity. }
  destruct (baseline_type cfg =? "net")%string.
  - run_inv. subst.
    match goal with Hx : critic_update _ _ _ _ = _ |- _ =>
      pose proof (critic_update_machinery _ _ _ _ _ _ Hx) as Hcm end.
    destruct Hcm as [Hcm (v & Hv & Hmse)].
    destruct (Hadv eq_refl) as (v' & Hv' & Hsub).
    assert (v' = v) by congruence. subst v'.
    match type of Hmse with _ = Ok ?c =>
      exists (update_calls ValueNet c (max_grad_norm cfg));
      repeat (split; [first [reflexivity|assumption|idtac]|]);
      [rewrite Hcm, Hpol, <- app_assoc; reflexivity|];
      exists v, c; repeat split; assumption
    end.
  - run_inv. subst. exists [].
    repeat split; try assumption; rewrite Hpol, ?app_nil_r; reflexivity.
Qed.

Lemma milestones_of_machinery (h : Heap) :
  milestones h = filter is_milestone (machinery h).
Proof.
  unfold milestones, machinery.
  induction (sink h) as [|e l IH]; simpl; [reflexivity|].
  destruct e; simpl; rewrite IH; reflexivity.
Qed.

Lemma minibatch_milestones cfg epoch train_loop b loc i h loc' h' :
  minibatch cfg epoch train_loop b loc i h = (Ok loc', h') ->
  milestones h' = milestones h ++ minibatch_steps cfg.
Proof.
  intros Hrun.
  destruct (minibatch_machinery _ _ _ _ _ _ _ _ _ Hrun)
    as (adv & lps & prod & calls & _ & _ & _ & _ & Hm & Hc).
  rewrite !milestones_of_machinery, Hm, !filter_app. f_equal.
  unfold minibatch_steps.
  destruct (baseline_type cfg =? "net")%string.
  - destruct Hc as (v & closs & _ & _ & _ & _ & ->). reflexivity.
  - subst calls. reflexivity.
Qed.

Lemma loop_milestones cfg epoch train_loop b xs :
  forall loc h loc' h',
    foldM (minibatch cfg epoch train_loop b) xs loc h = (Ok loc', h') ->
    milestones h'
    = milestones h ++ List.concat (repeat (minibatch_steps cfg) (List.length xs)).
Proof.
  induction xs as [|x xs IH]; intros loc h loc' h' Hrun; simpl in *.
  - run_inv. subst. rewrite app_nil_r. reflexivity.
  - run_inv.
    match goal with Hm : minibatch _ _ _ _ _ _ _ = _ |- _ =>
      apply minibatch_milestones in Hm end.
    rewrite (IH _ _ _ _ Hrun), Hrun0, <- app_assoc. reflexivity.
Qed.

(** A call of [self.save_checkpoint(epoch)] either records one
    checkpoint of the current state, or raises and records nothing. *)
Lemma self_save_checkpoint_run cfg epoch s r s' :
  self_save_checkpoint cfg epoch s = (r, s') ->
  (r = Ok tt /\
   s' = {| self := self s;
           sink := sink s ++ [SaveItrParams epoch (checkpoint_of cfg (self s))] |}) \/
  (exists e, r = Raise e /\ s' = s).
Proof.
  unfold self_save_checkpoint, save_checkpoint, HRL_save_checkpoint, with_normalizer,
    checkpoint_of, attr_opt, attr, emit, bind, gets, modify, bound, ret, raise.
  destruct (hrl (self s)); destruct (normalize cfg); destruct (mean_std (self s));
    simpl; intros Hr; inversion Hr; subst; eauto.
Qed.

(** C9. A call of [train] either raises before any checkpoint is
    written, or runs every mini-batch loop and then writes one
    checkpoint: among the optimizer steps and checkpoint writes of the
    call, the steps of all the loops come first and the single write
    comes last.  The checkpoint is keyed by [epoch] and holds the weights
    of the pointer network as the loops left them and, when feature
    normalisation is on, the normaliser's mean, std and epsilon. *)
Theorem checkpoint_after_updates cfg raw epoch h :
  let r := fst (train cfg raw epoch h) in
  let h' := snd (train cfg raw epoch h) in
  (exists e, r = Raise e /\ checkpoints h' = checkpoints h) \/
  (exists b h1 loops,
      _process_data cfg raw h = (Ok b, h1) /\
      train_loop_of (len (b_states b)) (batch_size cfg) = Ok loops /\
      milestones h'
      = milestones h
        ++ List.concat (repeat (minibatch_steps cfg) (Z.to_nat loops))
        ++ [SaveItrParams epoch (checkpoint_of cfg (self h'))]).
Proof.
  destruct (train cfg raw epoch h) as [r h'] eqn:Hrun. simpl.
  unfold train in Hrun.
  (* aggregation *)
  apply bind_inv in Hrun as [(b & h1 & Hp & Hrun)|(e & Hp & ->)].
  2:{ left. exists e. split; [reflexivity|].
      step_fact Hp (kept checkpoints) ltac:(frame_with filter_leaf). exact Hstep. }
  step_fact Hp (kept checkpoints) ltac:(frame_with filter_leaf). rename Hstep into C1.
  step_fact Hp (kept milestones) ltac:(frame_with filter_leaf). rename Hstep into M1.
  (* number of loops *)
  apply bind_inv in Hrun as [(loops & h2 & Hl & Hrun)|(e & Hl & ->)];
    apply lift_inv in Hl as [Hl ->].
  2:{ left. eauto. }
  (* scalar baseline *)
  apply bind_inv in Hrun as [(u & h3 & Hb & Hrun)|(e & Hb & ->)].
  2:{ left. exists e. split; [reflexivity|].
      step_fact Hb (kept checkpoints) ltac:(frame_with filter_leaf).
      unfold kept in *. congruence. }
  step_fact Hb (kept checkpoints) ltac:(frame_with filter_leaf). rename Hstep into C3.
  step_fact Hb (kept milestones) ltac:(frame_with filter_leaf). rename Hstep into M3.
  (* mini-batch loops *)
  apply bind_inv in Hrun as [(loc & h4 & Hloop & Hrun)|(e & Hloop & ->)].
  2:{ left. exists e. split; [reflexivity|].
      step_fact Hloop (kept checkpoints) ltac:(frame_with filter_leaf).
      unfold kept in *. congruence. }
  step_fact Hloop (kept checkpoints) ltac:(frame_with filter_leaf). rename Hstep into C4.
  apply loop_milestones in Hloop. rewrite range_length in Hloop.
  (* learning-rate schedule *)
  apply bind_inv in Hrun as [(u5 & h5 & Hlr & Hrun)|(e & Hlr & ->)].
  2:{ left. exists e. split; [reflexivity|].
      step_fact Hlr (kept checkpoints) ltac:(frame_with filter_leaf).
      unfold kept in *. congruence. }
  step_fact Hlr (kept checkpoints) ltac:(frame_with filter_leaf). rename Hstep into C5.
  step_fact Hlr (kept milestones) ltac:(frame_with filter_leaf). rename Hstep into M5.
  (* checkpoint *)
  apply bind_inv in Hrun as [(u6 & h6 & Hs & Hrun)|(e & Hs & ->)];
    apply self_save_checkpoint_run in Hs as [[Hu ->]|(e' & He' & ->)]; try discriminate.
  2:{ left. exists e. split; [reflexivity|]. unfold kept in *. congruence. }
  (* report *)
  step_fact Hrun (kept milestones) ltac:(frame_with filter_leaf). rename Hstep into M7.
  step_fact Hrun (kept self) ltac:(frame). rename Hstep into S7.
  right. exists b, h1, loops. split; [assumption|]. split; [assumption|].
  unfold kept in *. rewrite M7, S7. simpl.
  unfold milestones at 1. simpl. rewrite filter_app. simpl.
  fold (milestones h5). rewrite M5, Hloop, M3, M1, <- app_assoc. reflexivity.
Qed.

Lemma foldM_invariant {S X A} (P : A -> Prop) (body : A -> X -> M S A) xs :
  (forall a x s a' s', P a -> body a x s = (Ok a', s') -> P a') ->
  forall a s a' s', P a -> foldM body xs a s = (Ok a', s') -> P a'.
Proof.
  intros Hb. induction xs as [|x xs IH]; intros a s a' s' Ha Hrun; simpl in Hrun.
  - run_inv. subst. exact Ha.
  - run_inv. eapply IH; [|exact Hrun]. eapply Hb; eauto.
Qed.


Lemma Rltb_lt (x y : R) : Rltb x y = true <-> (x < y)%R.
Proof.
  unfold Rltb. destruct (Rlt_dec x y); split; intros; try assumption;
    try reflexivity; try discriminate; contradiction.
Qed.




Lemma Forall_set_row (P : Tensor -> Prop) j x (t : Tensor2) :
  P x -> Forall (Forall P) t -> Forall (Forall P) (set_row j x t).
Proof.
  intros Hx Ht. unfold set_row. apply Forall_set_nth; [|exact Ht].
  apply Forall_map, Forall_forall. auto.
Qed.





(** C8 (amended). [__init__] raises when the optimizer is named by a
    string that [torch.optim] has no attribute for.  In every other case
    it builds the trainer, whatever the baseline type is: the baseline
    type is stored as given and is not checked. *)
Theorem construction_checks (args : InitArgs) :
  match arg_optimizer_class args with
  | inl name =>
      match optim_attr name with
      | None => __init__ args = Raise (AttributeError name)
      | Some _ =>
          exists cfg a, __init__ args = Ok (cfg, a)
                        /\ baseline_type cfg = arg_baseline_type args
      end
  | inr _ =>
      exists cfg a, __init__ args = Ok (cfg, a)
                    /\ baseline_type cfg = arg_baseline_type args
  end.
Proof.
  unfold __init__.
  destruct (arg_optimizer_class args) as [name|c]; [destruct (optim_attr name)|];
    try reflexivity; eexists; eexists; split; reflexivity.
Qed.

(** *** The high-level trainer *)

Lemma hrl_assign_keeps_epoch (f : HRL -> HRL) :
  (forall hr, train_highlevel_epoch (f hr) = train_highlevel_epoch hr) ->
  preserves hl_epoch_of (hrl_assign f).
Proof.
  intros Hf s r s'. unfold hrl_assign, attr_opt, attr, assign, bind, gets, modify,
    bound, ret, raise, kept, hl_epoch_of.
  destruct (hrl (self s)) as [hr|] eqn:Hhr; simpl; intros Hr; inversion Hr; subst; simpl.
  - rewrite Hf. reflexivity.
  - rewrite Hhr. reflexivity.
Qed.

Lemma hrl_assign_keeps_ema (f : HRL -> HRL) :
  (forall hr, critic_exp_mvg_avg_high_level (f hr) = critic_exp_mvg_avg_high_level hr) ->
  preserves hl_ema_of (hrl_assign f).
Proof.
  intros Hf s r s'. unfold hrl_assign, attr_opt, attr, assign, bind, gets, modify,
    bound, ret, raise, kept, hl_ema_of.
  destruct (hrl (self s)) as [hr|] eqn:Hhr; simpl; intros Hr; inversion Hr; subst; simpl.
  - rewrite Hf. reflexivity.
  - rewrite Hhr. reflexivity.
Qed.

#[local] Hint Resolve hrl_assign_keeps_epoch hrl_assign_keeps_ema : frame.
#[local] Hint Extern 1 (forall hr : HRL, _ = _) => intro; reflexivity : frame.

Lemma train_highlevel_keeps_epoch cfg : preserves hl_epoch_of (_train_highlevel cfg).
Proof. frame. Qed.

Lemma hrl_attr_run {A} (f : HRL -> A) h hr :
  hrl (self h) = Some hr -> hrl_attr f h = (Ok (f hr), h).
Proof.
  intros Hhr. unfold hrl_attr, attr_opt, attr, bind, gets, bound, ret.
  rewrite Hhr. reflexivity.
Qed.

Lemma hrl_assign_run (f : HRL -> HRL) h hr :
  hrl (self h) = Some hr ->
  hrl_assign f h = (Ok tt, {| self := set_hrl (Some (f hr)) (self h); sink := sink h |}).
Proof.
  intros Hhr. unfold hrl_assign, attr_opt, attr, assign, bind, gets, modify, bound, ret.
  rewrite Hhr. reflexivity.
Qed.

Lemma extend_buffer_run (d : HighLevelDataset) h hr :
  hrl (self h) = Some hr ->
  extend_buffer d h
  = (Ok tt,
     {| self := set_hrl (Some (set_training_highlevel_dataset
                                 (extended (training_highlevel_dataset hr) [d]) hr))
                        (self h);
        sink := sink h |}).
Proof.
  intros Hhr.
  unfold extend_buffer, hrl_attr, hrl_assign, attr_opt, attr, assign, bind, gets, modify,
    bound, ret.
  repeat (rewrite Hhr; simpl).
  unfold extended. simpl. rewrite !app_nil_r. reflexivity.
Qed.

Lemma extend_dataset (ds : list HighLevelDataset) :
  forall h hr,
    hrl (self h) = Some hr ->
    foldM (fun (_ : unit) dict_data => extend_buffer dict_data) ds tt h
    = (Ok tt,
       {| self := set_hrl (Some (set_training_highlevel_dataset
                                   (extended (training_highlevel_dataset hr) ds) hr))
                          (self h);
          sink := sink h |}).
Proof.
  induction ds as [|d ds IH]; intros h hr Hhr.
  - simpl. unfold ret. f_equal. destruct h as [a k]. simpl in *. f_equal.
    destruct a. simpl in *. subst. destruct hr as [? ? ? ? ? ? [? ? ?] ?].
    unfold set_hrl, set_training_highlevel_dataset, extended. simpl.
    rewrite !app_nil_r. reflexivity.
  - simpl foldM. rewrite (bind_run _ _ _ _ _ (extend_buffer_run d h hr Hhr)).
    erewrite IH by reflexivity.
    unfold set_hrl, set_training_highlevel_dataset, extended. simpl.
    rewrite !app_nil_r, <- !app_assoc. reflexivity.
Qed.

(** [_update_highlevel_dataset] replaces the replay buffer by the
    high-level data of the call. *)
Lemma update_highlevel_dataset_run raw h hr r h1 :
  hrl (self h) = Some hr ->
  _update_highlevel_dataset raw h = (r, h1) ->
  match highlevel_datasets raw with
  | Ok ds => r = Ok tt /\ buffer_of h1 = Some (extended empty_buffer ds)
  | Raise e => r = Raise e
  end /\ hl_epoch_of h1 = hl_epoch_of h /\ sink h1 = sink h.
Proof.
  intros Hhr. unfold _update_highlevel_dataset.
  fold (highlevel_datasets raw).
  unfold hrl_assign, attr_opt, attr, assign, bind at 1 2 3, gets, modify, bound, lift.
  rewrite Hhr. simpl.
  destruct (highlevel_datasets raw) as [ds|e]; simpl.
  - unfold bind. erewrite extend_dataset by reflexivity. simpl.
    intros Hr. inversion Hr; subst. unfold buffer_of, hl_epoch_of. simpl.
    rewrite Hhr. auto.
  - unfold bind. intros Hr. inversion Hr; subst. unfold hl_epoch_of. simpl.
    rewrite Hhr. auto.
Qed.

(** C4 (amended). [train_highlevel_policy] does nothing on an epoch that
    is not a multiple of [train_highlevel_policy_freq]: it returns empty
    statistics and leaves the trainer, its replay buffer included, as it
    was; the high-level data of such a call is not stored.  On a
    multiple, when the call succeeds, the buffer is first replaced by
    the high-level data of this call, [_train_highlevel] runs once on it
    and gives the statistics returned, the counter of high-level epochs
    goes up by one and the buffer is emptied. *)
Theorem highlevel_cadence cfg raw epoch h hr :
  hrl (self h) = Some hr ->
  train_highlevel_policy_freq hr <> 0 ->
  if epoch mod train_highlevel_policy_freq hr =? 0 then
    forall stats h',
      train_highlevel_policy cfg raw epoch h = (Ok stats, h') ->
      exists ds h1 h2,
        highlevel_datasets raw = Ok ds /\
        _update_highlevel_dataset raw h = (Ok tt, h1) /\
        buffer_of h1 = Some (extended empty_buffer ds) /\
        _train_highlevel cfg h1 = (Ok stats, h2) /\
        h' = {| self := after_highlevel_update (self h2); sink := sink h2 |} /\
        hl_epoch_of h' = Some (train_highlevel_epoch hr + 1) /\
        buffer_of h' = Some empty_buffer
  else
    train_highlevel_policy cfg raw epoch h = (Ok [], h).
Proof.
  intros Hhr Hfreq.
  unfold train_highlevel_policy.
  rewrite (bind_run _ _ _ _ _ (hrl_attr_run _ _ _ Hhr)).
  rewrite (bind_run _ _ h h (epoch mod train_highlevel_policy_freq hr)).
  2:{ unfold lift, mod_.
      destruct (Z.eqb_spec (train_highlevel_policy_freq hr) 0); [contradiction|reflexivity]. }
  destruct (epoch mod train_highlevel_policy_freq hr =? 0); [|reflexivity].
  intros stats h' Hrun.
  apply bind_ok_inv in Hrun as ([] & h1 & Hu & Hrun).
  apply bind_ok_inv in Hrun as (stats' & h2 & Ht & Hrun).
  destruct (update_highlevel_dataset_run _ _ _ _ _ Hhr Hu) as (Hds & He1 & _).
  destruct (highlevel_datasets raw) as [ds|e]; [|discriminate].
  destruct Hds as [_ Hb1].
  step_fact Ht (kept hl_epoch_of) ltac:(frame). unfold kept in Hstep.
  assert (He2 : hl_epoch_of h2 = Some (train_highlevel_epoch hr)).
  { rewrite Hstep, He1. unfold hl_epoch_of. rewrite Hhr. reflexivity. }
  unfold hl_epoch_of in He2.
  destruct (hrl (self h2)) as [hr2|] eqn:Hhr2; [|discriminate].
  simpl in He2. injection He2 as He2.
  rewrite (bind_run _ _ _ _ _ (hrl_attr_run _ _ _ Hhr2)) in Hrun.
  rewrite (bind_run _ _ _ _ _ (hrl_assign_run _ _ _ Hhr2)) in Hrun.
  match type of Hrun with
  | bind _ _ ?s = _ =>
      rewrite (bind_run _ _ s _ _
                 (hrl_assign_run _ s (set_train_highlevel_epoch
                                        (train_highlevel_epoch hr2 + 1) hr2) eq_refl))
        in Hrun
  end.
  unfold ret in Hrun. simpl in Hrun. injection Hrun as -> <-.
  exists ds, h1, h2.
  repeat (split; [first [reflexivity|assumption]|]).
  unfold after_highlevel_update, hl_epoch_of, buffer_of. rewrite Hhr2. simpl.
  rewrite He2. auto.
Qed.




End Properties.

(** ** Runs of the toy trainer *)

Section Runs.

#[local] Existing Instance Demo.toy.
Local Open Scope R_scope.

Lemma Rltb_true (x y : R) : x < y -> Rltb x y = true.
Proof. intros Hxy. apply Rltb_lt. exact Hxy. Qed.

Lemma Rltb_false (x y : R) : y <= x -> Rltb x y = false.
Proof.
  intros Hxy. unfold Rltb. destruct (Rlt_dec x y); [lra|reflexivity].
Qed.

Create HintDb toy.

#[local] Hint Unfold train _process_data update_baseline minibatch sample_step
  advantage critic_update zero_grad loss_backward clip policy_optimizer_step
  value_optimizer_step lr_update self_save_checkpoint save_checkpoint
  HRL_save_checkpoint with_normalizer report extend_infos _train_highlevel
  hl_minibatch hl_sample_step append_infos highlevel_stats update_highlevel_baseline
  percent_optimizer_step _update_highlevel_dataset extend_buffer
  train_highlevel_policy hrl_attr hrl_assign attr_opt attr assign emit
  stored_logprob bind lift ret gets modify bound when raise : toy.

(** Evaluates a run of the toy trainer, deciding the comparisons of
    real numbers it meets. *)
Ltac run_toy :=
  repeat (autounfold with toy; cbn;
          try match goal with
              | |- context [Rltb ?x ?y] =>
                  first [rewrite (Rltb_true x y) by lra
                        |rewrite (Rltb_false x y) by lra]
              | |- context [Pos.to_nat ?p] =>
                  let n := eval vm_compute in (Pos.to_nat p) in
                  change (Pos.to_nat p) with n
              end).

Example toy_constructed (baseline : string) :
  __init__ (Demo.args baseline) = Ok (Demo.config baseline, Demo.attrs baseline).
Proof. reflexivity. Qed.

Example toy_hrl_constructed (baseline : string) :
  HRL__init__ Demo.hargs (Demo.args baseline)
  = Ok (Demo.config baseline, self (Demo.hrl_fresh baseline)).
Proof. reflexivity. Qed.

Lemma toy_process_data (baseline : string) (r1 r2 r3 : R) (h : Heap) :
  _process_data (Demo.config baseline) [Demo.episode (Demo.three r1 r2 r3)] h
  = (Ok (Demo.batch r1 r2 r3), h).
Proof. destruct h. reflexivity. Qed.



(** A whole call of [train] with the 'simple' baseline. *)
Example toy_train_simple :
  exists h',
    train (Demo.config "simple") [Demo.episode Demo.single] 1 (Demo.fresh "simple")
    = (Ok tt, h').
Proof.
  eexists. run_toy. reflexivity.
Qed.

(** A high-level update. *)
Lemma toy_train_highlevel :
  exists stats h',
    _train_highlevel (Demo.config "simple") (Demo.hrl_loaded "simple" 3) = (Ok stats, h').
Proof.
  eexists. eexists. run_toy. reflexivity.
Qed.

Lemma toy_update_highlevel_dataset :
  _update_highlevel_dataset [Demo.hl_episode 3] (Demo.hrl_fresh "simple")
  = (Ok tt, Demo.hrl_loaded "simple" 3).
Proof. reflexivity. Qed.

(** A call of the high-level trainer on a firing epoch. *)
Lemma toy_train_highlevel_policy :
  exists stats h',
    train_highlevel_policy (Demo.config "simple") [Demo.hl_episode 3] 5
                           (Demo.hrl_fresh "simple")
    = (Ok stats, h').
Proof.
  destruct toy_train_highlevel as (stats & h2 & Hrun).
  pose proof (train_highlevel_keeps_epoch _ _ _ _ Hrun) as Hstep.
  unfold kept, hl_epoch_of in Hstep.
  destruct (hrl (self h2)) as [hr2|] eqn:Hhr2; [|discriminate].
  exists stats. eexists.
  unfold train_highlevel_policy.
  rewrite (bind_run _ _ _ _ _
             (hrl_attr_run _ (Demo.hrl_fresh "simple") Demo.hrl_attrs eq_refl)).
  cbv beta.
  rewrite (bind_run _ _ _ (Demo.hrl_fresh "simple") 0%Z) by reflexivity.
  cbv beta. change (0 =? 0)%Z with true. cbv iota.
  rewrite (bind_run _ _ _ _ _ toy_update_highlevel_dataset). cbv beta.
  rewrite (bind_run _ _ _ _ _ Hrun). cbv beta.
  rewrite (bind_run _ _ _ _ _ (hrl_attr_run _ _ _ Hhr2)). cbv beta.
  rewrite (bind_run _ _ _ _ _ (hrl_assign_run _ _ _ Hhr2)). cbv beta.
  match goal with
  | |- bind _ _ ?s = _ =>
      rewrite (bind_run _ _ s _ _
                 (hrl_assign_run _ s (set_train_highlevel_epoch
                                        (train_highlevel_epoch hr2 + 1) hr2) eq_refl))
  end.
  reflexivity.
Qed.

(** *** Witnesses and counterexamples *)

(** C3 on 100 samples in batches of 32: four loops of sizes 32, 32, 32
    and 4. *)
Lemma minibatch_partition_witness :
  train_loop_of 100 32 = Ok 4%Z /\
  minibatch_sizes (repeat tt 100) 32 4 = [32; 32; 32; 4]%Z /\
  visited_indices (repeat tt 100) 32 4 = range 100.
Proof. exact (minibatch_partition (repeat tt 100%nat) 32 eq_refl). Defined.

Example partition_of_32 :
  train_loop_of 32 32 = Ok 1%Z /\ minibatch_sizes (repeat tt 32) 32 1 = [32%Z].
Proof. split; reflexivity. Qed.

Example partition_of_10 :
  train_loop_of 10 32 = Ok 1%Z /\ minibatch_sizes (repeat tt 10) 32 1 = [10%Z].
Proof. split; reflexivity. Qed.

(** C7 on two samples whose action lists hold three indices while the
    selection counts add up to two. *)
Lemma aggregation_lengths_witness :
  exists b h',
    _process_data (Demo.config "simple") [Demo.episode Demo.uneven] (Demo.fresh "simple")
    = (Ok b, h') /\
    (len (b_states b) = len (b_actions b) /\
     len (b_actions b) = len (b_sel_cuts_nums b) /\
     len (b_sel_cuts_nums b) = len (b_neg_rewards b) /\
     Forall (fun row => len row = 1%Z) (b_neg_rewards b)) /\
    fold_right Z.add 0%Z (map len (b_actions b))
    <> fold_right Z.add 0%Z (b_sel_cuts_nums b).
Proof.
  eexists. eexists. split; [reflexivity|]. split.
  - refine (aggregation_lengths (Demo.config "simple") [Demo.episode Demo.uneven]
                                (Demo.fresh "simple") _ _ _ eq_refl).
    constructor; [|constructor]. repeat split; reflexivity.
  - discriminate.
Defined.

(** C1 on the rewards [1, 2, 3] at epoch 1, then [4, 5, 6] at epoch 2
    with [beta = 0.9]: the moving average is 2, then 2.3. *)
Lemma simple_baseline_update_witness :
  let cfg := Demo.config "simple" in
  let h1 := snd (train cfg [Demo.episode (Demo.three 1 2 3)] 1 (Demo.fresh "simple")) in
  let h2 := snd (train cfg [Demo.episode (Demo.three 4 5 6)] 2 h1) in
  ema_of h1 = Some 2 /\ ema_of h2 = Some (23 / 10).
Proof.
  intros cfg h1 h2.
  assert (E1 : ema_of h1 = Some 2).
  { unfold h1.
    rewrite (proj2 (simple_baseline_update
                      cfg [Demo.episode (Demo.three 1 2 3)] 1 (Demo.fresh "simple")
                      (Demo.batch 1 2 3) (Demo.fresh "simple") 0
                      eq_refl eq_refl eq_refl (toy_process_data "simple" 1 2 3 _))).
    f_equal. unfold Np.mean, mean_of, flat, total, len. simpl. lra. }
  split; [exact E1|].
  unfold h2.
  rewrite (proj2 (simple_baseline_update
                    cfg [Demo.episode (Demo.three 4 5 6)] 2 h1 (Demo.batch 4 5 6) h1 2
                    eq_refl eq_refl E1 (toy_process_data "simple" 4 5 6 _))).
  f_equal. unfold Np.mean, mean_of, flat, total, len. simpl. lra.
Defined.

(** The deviation of the two scaled rewards [0] and [2 x]. *)
Lemma toy_std (x : R) :
  0 <= x ->
  Np.std (scaled_rewards Demo.normalizing [Demo.episode (Demo.two 0 (2 * x))]) = x.
Proof.
  intros Hx. unfold Np.std, Np.mean, mean_of, flat, total, len, scaled_rewards. simpl.
  match goal with |- sqrt ?v = _ => replace v with (x * x) by field end.
  apply sqrt_square. exact Hx.
Qed.

Lemma toy_process_normalizing (x : R) :
  exists h',
    _process_data Demo.normalizing [Demo.episode (Demo.two 0 x)] (Demo.fresh "simple")
    = (Ok (Demo.normalized x), h').
Proof.
  exists {| self := Demo.attrs "simple";
            sink := [RecordDict
                       (create_stats_ordered_dict
                          "training/Nonnormalize Neg Reward"
                          (flat (scaled_rewards Demo.normalizing
                                   [Demo.episode (Demo.two 0 x)])))] |}.
  reflexivity.
Qed.

(** C5 (amended) on the rewards [0] and [2]: deviation 1 before,
    1000/1001 after, within the tolerance. *)
Lemma reward_scaling_and_normalization_witness :
  exists b h',
    _process_data Demo.normalizing [Demo.episode (Demo.two 0 (2 * 1))] (Demo.fresh "simple")
    = (Ok b, h') /\
    Np.mean (b_neg_rewards b) = 0 /\
    Np.std (b_neg_rewards b) = 1000 / 1001 /\
    Rabs (Np.std (b_neg_rewards b) - 1) <= 1 / 1000.
Proof.
  destruct (toy_process_normalizing (2 * 1)) as [h' Hrun].
  exists (Demo.normalized (2 * 1)), h'. split; [exact Hrun|].
  destruct (reward_scaling_and_normalization _ _ _ _ _ Hrun)
    as (_ & _ & Hmean & Hstd & Htol).
  rewrite (toy_std 1) in Hstd, Htol by lra.
  split; [exact Hmean|]. split.
  - rewrite Hstd. lra.
  - apply Htol. lra.
Defined.

(** C5 refuted on the rewards [0] and [0.002]: their deviation is not
    zero, and the deviation of the normalised rewards is one half. *)
Lemma normalized_std_counterexample :
  exists b h',
    _process_data Demo.normalizing [Demo.episode (Demo.two 0 (2 * (1 / 1000)))]
                  (Demo.fresh "simple")
    = (Ok b, h') /\
    Np.std (scaled_rewards Demo.normalizing
                           [Demo.episode (Demo.two 0 (2 * (1 / 1000)))]) <> 0 /\
    ~ Rabs (Np.std (b_neg_rewards b) - 1) <= 1 / 1000.
Proof.
  destruct (toy_process_normalizing (2 * (1 / 1000))) as [h' Hrun].
  exists (Demo.normalized (2 * (1 / 1000))), h'. split; [exact Hrun|].
  rewrite (toy_std (1 / 1000)) by lra.
  split; [lra|].
  unfold Demo.normalized. cbn [b_neg_rewards].
  rewrite std_center_scale by (rewrite (toy_std (1 / 1000)); lra).
  rewrite (toy_std (1 / 1000)) by lra.
  replace (1 / 1000 / (1 / 1000 + 1 / 1000) - 1) with (- (1 / 2)) by lra.
  rewrite Rabs_Ropp, Rabs_pos_eq by lra. lra.
Qed.


Example stored_below_threshold (g : nat -> R) :
  stored_logprob (-4000) (output PointerNet (-5000, g))
  = detach (output PointerNet (-5000, g)).
Proof. unfold stored_logprob. cbn. rewrite Rltb_true by lra. reflexivity. Qed.

Example stored_above_threshold (g : nat -> R) :
  stored_logprob (-4000) (output PointerNet (-3000, g)) = output PointerNet (-3000, g).
Proof. unfold stored_logprob. cbn. rewrite Rltb_false by lra. reflexivity. Qed.


(** C4 (amended) on the toy hierarchical trainer, which updates its
    high-level policy every five epochs. *)
Lemma highlevel_cadence_witness :
  let cfg := Demo.config "simple" in
  let raw := [Demo.hl_episode 3] in
  let h := Demo.hrl_fresh "simple" in
  (forall epoch, In epoch [1; 2; 3; 4]%Z ->
                 train_highlevel_policy cfg raw epoch h = (Ok [], h)) /\
  exists stats h',
    train_highlevel_policy cfg raw 5 h = (Ok stats, h') /\
    hl_epoch_of h' = Some 2%Z /\
    buffer_of h' = Some empty_buffer.
Proof.
  intros cfg raw h.
  assert (Hfreq : train_highlevel_policy_freq Demo.hrl_attrs <> 0%Z) by discriminate.
  split.
  - intros epoch [<-|[<-|[<-|[<-|[]]]]].
    + exact (highlevel_cadence cfg raw 1 h Demo.hrl_attrs eq_refl Hfreq).
    + exact (highlevel_cadence cfg raw 2 h Demo.hrl_attrs eq_refl Hfreq).
    + exact (highlevel_cadence cfg raw 3 h Demo.hrl_attrs eq_refl Hfreq).
    + exact (highlevel_cadence cfg raw 4 h Demo.hrl_attrs eq_refl Hfreq).
  - destruct toy_train_highlevel_policy as (stats & h' & Hrun).
    exists stats, h'. split; [exact Hrun|].
    destruct (highlevel_cadence cfg raw 5 h Demo.hrl_attrs eq_refl Hfreq stats h' Hrun)
      as (ds & h1 & h2 & _ & _ & _ & _ & _ & He & Hb).
    split; assumption.
Defined.

(** C4 refuted at epoch 1: the buffer is left empty, it does not hold
    the high-level data of the call. *)
Lemma stale_buffer_counterexample :
  let h' := snd (train_highlevel_policy (Demo.config "simple") [Demo.hl_episode 3] 1
                                        (Demo.hrl_fresh "simple")) in
  highlevel_datasets [Demo.hl_episode 3] = Ok [Demo.hl_data 3] /\
  buffer_of h' = Some empty_buffer /\
  buffer_of h' <> Some (extended empty_buffer [Demo.hl_data 3]).
Proof.
  cbn. split; [reflexivity|]. split; [reflexivity|]. discriminate.
Qed.

(** C8 refuted: a trainer is built with the baseline type 'median', and
    its first call of [train] fails in the first mini-batch loop. *)
Lemma unknown_baseline_counterexample :
  __init__ (Demo.args "median") = Ok (Demo.config "median", Demo.attrs "median") /\
  fst (train (Demo.config "median") [Demo.episode Demo.single] 1 (Demo.fresh "median"))
  = Raise (UnboundLocalError "neg_advantage").
Proof.
  split; [reflexivity|]. run_toy. reflexivity.
Qed.

Example unknown_optimizer_fails (baseline : string) :
  __init__ {| arg_pointer_net := 0; arg_value_net := 0;
              arg_optimizer_class := inl "Adma"%string;
              arg_actor_net_lr := 1; arg_critic_net_lr := 1; arg_reward_scale := 1;
              arg_max_grad_norm := 2; arg_batch_size := 32;
              arg_baseline_type := baseline; arg_critic_beta := 9 / 10;
              arg_lr_decay := false; arg_lr_decay_step := 5; arg_lr_decay_rate := 1;
              arg_normalize := false; arg_normalize_reward := true |}
  = Raise (AttributeError "Adma").
Proof. reflexivity. Qed.

(** With a baseline other than 'simple' the trainer has no attribute
    [critic_exp_mvg_avg]: the call writes its checkpoint and then raises
    while it reports its statistics (line 323). *)
Example toy_train_no_baseline :
  let out := train (Demo.config "no_baseline") [Demo.episode Demo.single] 1
                   (Demo.fresh "no_baseline") in
  fst out = Raise (AttributeError "critic_exp_mvg_avg") /\
  exists state_dict, checkpoints (snd out) = [SaveItrParams 1 state_dict].
Proof.
  run_toy. split; [reflexivity|]. eexists. reflexivity.
Qed.


End Runs.

(** * Further properties of the trainers *)

(** Settles [kept f] for an assignment, or finds the branch impossible. *)
Ltac kept_leaf := first [reflexivity|congruence].

(** Settles [kept f] for an observation [f] that selects recorded calls. *)
Ltac calls_leaf :=
  unfold kept, machinery, milestones, checkpoints, paces; simpl;
  rewrite ?filter_app; simpl; rewrite ?app_nil_r; reflexivity.

(** ** Logarithms and entropy *)

Section Logarithms.
Local Open Scope R_scope.

Lemma ln_le_pred (z : R) : 0 < z -> ln z <= z - 1.
Proof.
  intros Hz.
  pose proof (exp_ineq1_le (z - 1)) as He.
  replace (1 + (z - 1)) with z in He by ring.
  destruct He as [He|He].
  - left. rewrite <- (ln_exp (z - 1)). apply ln_increasing; assumption.
  - right. rewrite He at 1. apply ln_exp.
Qed.

Lemma ln_ge_inv (x : R) : 0 < x -> 1 - / x <= ln x.
Proof.
  intros Hx.
  pose proof (ln_le_pred (/ x) (Rinv_0_lt_compat _ Hx)) as Hl.
  rewrite ln_Rinv in Hl by assumption. lra.
Qed.

Lemma ln_nonpos (p : R) : 0 < p -> p <= 1 -> ln p <= 0.
Proof. intros H0 H1. pose proof (ln_le_pred p H0). lra. Qed.

Lemma product_pos (xs : list R) : Forall (fun x => 0 < x) xs -> 0 < product xs.
Proof.
  induction 1 as [|x xs Hx _ IH]; simpl; [lra|].
  apply Rmult_lt_0_compat; assumption.
Qed.

Lemma product_le_1 (xs : list R) :
  Forall (fun x => 0 < x) xs -> Forall (fun x => x <= 1) xs -> product xs <= 1.
Proof.
  induction 1 as [|x xs Hx Hxs IH]; intros Hle; simpl; [lra|].
  inversion Hle; subst.
  pose proof (product_pos xs Hxs). specialize (IH ltac:(assumption)). nra.
Qed.

Lemma log_some (p t : Tensor) :
  log p = Some t -> 0 < item p /\ item t = ln (item p).
Proof.
  unfold log. destruct (Rltb 0 (item p)) eqn:Hp; [|discriminate].
  intros Ht. injection Ht as <-. split; [|reflexivity].
  unfold Rltb in Hp. destruct (Rlt_dec 0 (item p)); [assumption|discriminate].
Qed.

Lemma log_pos (p : Tensor) : 0 < item p -> exists t, log p = Some t.
Proof.
  intros Hp. unfold log, Rltb. destruct (Rlt_dec 0 (item p)); [eauto|contradiction].
Qed.

Lemma sum_logs_none (prob : list Tensor) :
  fold_left (fun logprob p =>
               match logprob, log p with
               | Some acc, Some logp => Some (add acc logp)
               | _, _ => None
               end) prob None = None.
Proof. induction prob as [|p prob IH]; simpl; [reflexivity|exact IH]. Qed.

Lemma sum_logs (prob : list Tensor) : forall acc t,
  fold_left (fun logprob p =>
               match logprob, log p with
               | Some acc, Some logp => Some (add acc logp)
               | _, _ => None
               end) prob (Some acc) = Some t ->
  Forall (fun p => 0 < item p) prob /\
  item t = item acc + ln (product (map item prob)).
Proof.
  induction prob as [|p prob IH]; intros acc t Hrun; simpl in Hrun.
  - injection Hrun as <-. split; [constructor|]. simpl. rewrite ln_1. ring.
  - destruct (log p) as [logp|] eqn:Hp.
    2:{ rewrite sum_logs_none in Hrun. discriminate. }
    apply log_some in Hp as [Hpos Hlog].
    apply IH in Hrun as [Hall Ht].
    split; [constructor; assumption|].
    rewrite Ht. simpl. rewrite Hlog.
    rewrite ln_mult by (auto using product_pos, Forall_map; apply product_pos;
                        apply Forall_map; assumption).
    ring.
Qed.

Lemma sum_logs_total (prob : list Tensor) : forall acc,
  Forall (fun p => 0 < item p) prob ->
  exists t, fold_left (fun logprob p =>
                         match logprob, log p with
                         | Some acc, Some logp => Some (add acc logp)
                         | _, _ => None
                         end) prob (Some acc) = Some t.
Proof.
  induction prob as [|p prob IH]; intros acc Hall; simpl.
  - eauto.
  - inversion Hall; subst.
    destruct (log_pos p ltac:(assumption)) as [logp ->]. apply IH. assumption.
Qed.

(** X1. [_prob_to_logp] returns a real number exactly when every
    probability is positive; it is then the logarithm of the product of
    the probabilities, which is not positive when none of them exceeds
    one. *)
Theorem prob_to_logp_product (prob : list Tensor) :
  ((exists t, _prob_to_logp prob = Some t) <-> Forall (fun p => 0 < item p) prob) /\
  (forall t, _prob_to_logp prob = Some t ->
             item t = ln (product (map item prob)) /\
             (Forall (fun p => item p <= 1) prob -> item t <= 0)).
Proof.
  unfold _prob_to_logp. split.
  - split.
    + intros [t Ht]. apply sum_logs in Ht. tauto.
    + apply sum_logs_total.
  - intros t Ht. apply sum_logs in Ht as [Hpos Ht]. simpl in Ht.
    rewrite Rplus_0_l in Ht. split; [exact Ht|].
    intros Hle. rewrite Ht.
    apply ln_nonpos.
    + apply product_pos, Forall_map. exact Hpos.
    + apply product_le_1; apply Forall_map; assumption.
Qed.

Lemma entropy_fold (probs : list R) : forall acc,
  fold_left (fun entropy prob => entropy - prob * ln prob) probs acc
  = acc - total (map (fun p => p * ln p) probs).
Proof.
  induction probs as [|p probs IH]; intros acc; simpl.
  - unfold total. simpl. ring.
  - rewrite IH. unfold total. simpl. ring.
Qed.

Lemma le_total (probs : list R) (p : R) :
  Forall (fun q => 0 < q) probs -> In p probs -> p <= total probs.
Proof.
  unfold total.
  induction 1 as [|q probs Hq Hall IH]; intros Hin; simpl in *; [contradiction|].
  assert (0 <= fold_right Rplus 0 probs).
  { clear -Hall. induction Hall; simpl; lra. }
  destruct Hin as [->|Hin]; [lra|]. specialize (IH Hin). lra.
Qed.

Lemma gibbs (c : R) (probs : list R) :
  0 < c -> Forall (fun p => 0 < p) probs ->
  total probs - IZR (len probs) / c
  <= ln c * total probs + total (map (fun p => p * ln p) probs).
Proof.
  intros Hc. unfold total.
  induction 1 as [|p probs Hp _ IH].
  - unfold len. simpl. lra.
  - rewrite IZR_len_cons. simpl.
    assert (Hcp : 0 < c * p) by (apply Rmult_lt_0_compat; assumption).
    pose proof (ln_ge_inv (c * p) Hcp) as Hl.
    rewrite ln_mult in Hl by assumption.
    rewrite Rinv_mult in Hl.
    assert (Hm : p * (1 - / c * / p) <= p * (ln c + ln p)).
    { apply Rmult_le_compat_l; lra. }
    replace (p * (1 - / c * / p)) with (p - / c) in Hm by (field; lra).
    unfold Rdiv in *. lra.
Qed.

(** X2. For a probability distribution over at least two positions
    (positive entries that add up to one), the entropy computed by
    [_compute_sm_entropy] lies between zero and the logarithm of the
    number of positions. *)
Theorem entropy_bounds (probs : list R) :
  (1 < List.length probs)%nat ->
  Forall (fun p => 0 < p) probs ->
  total probs = 1 ->
  0 <= _compute_sm_entropy probs <= ln (IZR (len probs)).
Proof.
  intros Hn Hpos Hsum. unfold _compute_sm_entropy. rewrite entropy_fold.
  split.
  - assert (total (map (fun p => p * ln p) probs) <= 0); [|lra].
    assert (Hle : Forall (fun p => 0 < p <= 1) probs).
    { apply Forall_forall. intros p Hin. split.
      - eapply Forall_forall in Hpos; eauto.
      - rewrite <- Hsum. apply le_total; assumption. }
    clear -Hle. unfold total.
    induction Hle as [|p probs [H0 H1] _ IH]; simpl; [lra|].
    pose proof (ln_nonpos p H0 H1). nra.
  - assert (Hc : 0 < IZR (len probs)).
    { apply IZR_len_pos. destruct probs; [simpl in Hn; lia|discriminate]. }
    pose proof (gibbs _ probs Hc Hpos) as Hg.
    rewrite Hsum in Hg.
    replace (IZR (len probs) / IZR (len probs)) with 1 in Hg by (field; lra).
    lra.
Qed.

End Logarithms.

(** ** Dictionaries *)

Section Dictionaries.

Context {V : Type}.

Lemma dict_get_set_same (d : dict V) k v : dict_get (dict_set d k v) k = Ok v.
Proof.
  induction d as [|[k' v'] d IH]; simpl.
  - rewrite String.eqb_refl. reflexivity.
  - destruct (String.eqb k k') eqn:Hk; simpl.
    + rewrite String.eqb_refl. reflexivity.
    + rewrite Hk. exact IH.
Qed.

Lemma dict_get_set_other (d : dict V) k k' v :
  k <> k' -> dict_get (dict_set d k v) k' = dict_get d k'.
Proof.
  intros Hne. induction d as [|[k0 v0] d IH]; simpl.
  - destruct (String.eqb_spec k' k); [congruence|reflexivity].
  - destruct (String.eqb_spec k k0) as [->|Hk]; simpl.
    + destruct (String.eqb_spec k' k0); [congruence|reflexivity].
    + destruct (String.eqb_spec k' k0); [reflexivity|exact IH].
Qed.

Lemma dict_get_in (d : dict V) k : In k (keys d) -> exists v, dict_get d k = Ok v.
Proof.
  induction d as [|[k' v'] d IH]; simpl; [contradiction|].
  intros Hin. destruct (String.eqb_spec k k') as [->|Hk]; [eauto|].
  destruct Hin as [Heq|Hin]; [congruence|auto].
Qed.

Lemma dict_get_raise (d : dict V) k e :
  dict_get d k = Raise e -> e = KeyError k /\ ~ In k (keys d).
Proof.
  induction d as [|[k' v'] d IH]; simpl.
  - intros Hr. injection Hr as <-. auto.
  - destruct (String.eqb_spec k k') as [->|Hk]; [discriminate|].
    intros Hr. apply IH in Hr as [-> Hn]. split; [reflexivity|].
    intros [Heq|Hin]; [congruence|contradiction].
Qed.

Lemma dict_get_missing (d : dict V) k : ~ In k (keys d) -> dict_get d k = Raise (KeyError k).
Proof.
  intros Hn. destruct (dict_get d k) as [v|e] eqn:Hg.
  - exfalso. apply Hn. clear Hn.
    induction d as [|[k' v'] d IH]; simpl in *; [discriminate|].
    destruct (String.eqb_spec k k') as [->|Hk]; auto.
  - apply dict_get_raise in Hg as [-> _]. reflexivity.
Qed.

Lemma dict_set_new (d : dict V) k v : ~ In k (keys d) -> dict_set d k v = d ++ [(k, v)].
Proof.
  induction d as [|[k' v'] d IH]; simpl; intros Hn; [reflexivity|].
  destruct (String.eqb_spec k k') as [->|Hk]; [tauto|].
  rewrite IH by tauto. reflexivity.
Qed.

Lemma dict_get_last (d : dict V) k v : ~ In k (keys d) -> dict_get (d ++ [(k, v)]) k = Ok v.
Proof.
  intros Hn. rewrite <- dict_set_new by assumption. apply dict_get_set_same.
Qed.

Lemma dict_set_last (d : dict V) k v v' :
  ~ In k (keys d) -> dict_set (d ++ [(k, v)]) k v' = d ++ [(k, v')].
Proof.
  induction d as [|[k0 v0] d IH]; simpl; intros Hn.
  - rewrite String.eqb_refl. reflexivity.
  - destruct (String.eqb_spec k k0) as [->|Hk]; [tauto|].
    rewrite IH by tauto. reflexivity.
Qed.

Lemma keys_app (d1 d2 : dict V) : keys (d1 ++ d2) = keys d1 ++ keys d2.
Proof. apply map_app. Qed.

(** Assigning to a key the dictionary has changes the first entry of
    that key, in place. *)
Lemma dict_set_map (d : dict V) k v :
  NoDup (keys d) -> In k (keys d) ->
  dict_set d k v = map (fun kv => if String.eqb (fst kv) k then (k, v) else kv) d.
Proof.
  induction d as [|[k0 v0] d IH]; simpl; intros Hnd Hin; [contradiction|].
  inversion Hnd as [|? ? Hn0 Hnd']; subst.
  destruct (String.eqb_spec k k0) as [->|Hk].
  - rewrite String.eqb_refl. f_equal.
    rewrite <- (map_id d) at 1. apply map_ext_in.
    intros [k1 v1] Hin1. simpl.
    destruct (String.eqb_spec k1 k0) as [->|]; [|reflexivity].
    exfalso. apply Hn0. apply (in_map fst) in Hin1. exact Hin1.
  - destruct (String.eqb_spec k0 k); [congruence|].
    f_equal. apply IH; [assumption|]. destruct Hin; [congruence|assumption].
Qed.

Lemma keys_dict_set (d : dict V) k v : In k (keys d) -> keys (dict_set d k v) = keys d.
Proof.
  induction d as [|[k0 v0] d IH]; simpl; intros Hin; [contradiction|].
  destruct (String.eqb_spec k k0) as [->|Hk]; simpl; [reflexivity|].
  f_equal. apply IH. destruct Hin; [congruence|assumption].
Qed.

Lemma in_keys_dict_set (d : dict V) k v k' :
  In k' (keys (dict_set d k v)) <-> k' = k \/ In k' (keys d).
Proof.
  induction d as [|[k0 v0] d IH]; simpl.
  - intuition.
  - destruct (String.eqb_spec k k0) as [->|Hk]; simpl; [intuition|].
    rewrite IH. intuition.
Qed.

Lemma in_keys_dict_update (d d2 : dict V) k :
  In k (keys (dict_update d d2)) <-> In k (keys d) \/ In k (keys d2).
Proof.
  unfold dict_update. revert d.
  induction d2 as [|[k2 v2] d2 IH]; intros d; simpl.
  - intuition.
  - rewrite IH, in_keys_dict_set. simpl. intuition.
Qed.

End Dictionaries.

(** ** Metrics of the episodes *)

Section Metrics.

Lemma gathered_cons info infos k v :
  dict_get info k = Ok v -> gathered (info :: infos) k = v ++ gathered infos k.
Proof. intros Hg. unfold gathered, metric. simpl. rewrite Hg. reflexivity. Qed.

(** The loop over the episodes for one key (lines 158-159). *)
Lemma gather_key (k : string) (infos : list (dict (list R))) :
  forall (d : dict (list R)) (acc : list R),
    ~ In k (keys d) ->
    Forall (fun info => In k (keys info)) infos ->
    for_each (fun env_info info =>
                and_then (dict_get env_info k) (fun old =>
                and_then (dict_get info k) (fun v =>
                Ok (dict_set env_info k (old ++ v)))))
             infos (d ++ [(k, acc)])
    = Ok (d ++ [(k, acc ++ gathered infos k)]).
Proof.
  induction infos as [|info infos IH]; intros d acc Hn Hall; simpl.
  - unfold gathered. simpl. rewrite app_nil_r. reflexivity.
  - inversion Hall as [|? ? Hin Hall']; subst.
    destruct (dict_get_in info k Hin) as [v Hv].
    rewrite dict_get_last by assumption. simpl. rewrite Hv. simpl.
    rewrite dict_set_last by assumption.
    rewrite IH by assumption.
    unfold metric. rewrite Hv, app_assoc. reflexivity.
Qed.

Lemma gather_key_missing (k : string) (infos : list (dict (list R))) :
  forall (d : dict (list R)) (acc : list R),
    ~ In k (keys d) ->
    Exists (fun info => ~ In k (keys info)) infos ->
    for_each (fun env_info info =>
                and_then (dict_get env_info k) (fun old =>
                and_then (dict_get info k) (fun v =>
                Ok (dict_set env_info k (old ++ v)))))
             infos (d ++ [(k, acc)])
    = Raise (KeyError k).
Proof.
  induction infos as [|info infos IH]; intros d acc Hn Hex; simpl.
  - inversion Hex.
  - rewrite dict_get_last by assumption. simpl.
    destruct (dict_get info k) as [v|e] eqn:Hv; simpl.
    + rewrite dict_set_last by assumption. apply IH; [assumption|].
      inversion Hex as [? ? Hbad|]; subst; [|assumption].
      exfalso. apply Hbad.
      destruct (in_dec string_dec k (keys info)) as [|Hno]; [assumption|].
      rewrite (dict_get_missing _ _ Hno) in Hv. discriminate.
    + apply dict_get_raise in Hv as [-> _]. reflexivity.
Qed.

(** The loop over the keys (lines 156-159). *)
Lemma gather_keys (infos : list (dict (list R))) (ks : list string) :
  forall d : dict (list R),
    NoDup ks ->
    (forall k, In k ks -> ~ In k (keys d)) ->
    Forall (fun info => forall k, In k ks -> In k (keys info)) infos ->
    for_each (fun env_info k =>
                let env_info := dict_set env_info k [] in
                for_each (fun env_info info =>
                            and_then (dict_get env_info k) (fun old =>
                            and_then (dict_get info k) (fun v =>
                            Ok (dict_set env_info k (old ++ v)))))
                         infos env_info)
             ks d
    = Ok (d ++ map (fun k => (k, gathered infos k)) ks).
Proof.
  induction ks as [|k ks IH]; intros d Hnd Hfresh Hall; simpl.
  - rewrite app_nil_r. reflexivity.
  - inversion Hnd as [|? ? Hk Hnd']; subst.
    rewrite dict_set_new by (apply Hfresh; left; reflexivity).
    rewrite gather_key.
    + simpl. rewrite IH.
      * rewrite <- app_assoc. reflexivity.
      * assumption.
      * intros k' Hin. rewrite keys_app, in_app_iff. simpl.
        intros [Hd|[->|[]]]; [|contradiction].
        eapply Hfresh; [right; exact Hin|exact Hd].
      * eapply Forall_impl; [|exact Hall]. simpl. auto.
    + apply Hfresh. left. reflexivity.
    + eapply Forall_impl; [|exact Hall]. simpl. auto.
Qed.

Lemma gather_keys_missing (infos : list (dict (list R))) (ks : list string) :
  forall d : dict (list R),
    NoDup ks ->
    (forall k, In k ks -> ~ In k (keys d)) ->
    Exists (fun k => Exists (fun info => ~ In k (keys info)) infos) ks ->
    exists k,
      In k ks /\ Exists (fun info => ~ In k (keys info)) infos /\
      for_each (fun env_info k =>
                  let env_info := dict_set env_info k [] in
                  for_each (fun env_info info =>
                              and_then (dict_get env_info k) (fun old =>
                              and_then (dict_get info k) (fun v =>
                              Ok (dict_set env_info k (old ++ v)))))
                           infos env_info)
               ks d
      = Raise (KeyError k).
Proof.
  induction ks as [|k ks IH]; intros d Hnd Hfresh Hex; simpl.
  - inversion Hex.
  - inversion Hnd as [|? ? Hk Hnd']; subst.
    assert (Hkd : ~ In k (keys d)) by (apply Hfresh; left; reflexivity).
    rewrite dict_set_new by assumption.
    destruct (Forall_Exists_dec (fun info => In k (keys info))
                (fun info => in_dec string_dec k (keys info)) infos) as [Hall|Hbad].
    + rewrite gather_key by assumption. simpl.
      destruct (IH (d ++ [(k, [] ++ gathered infos k)]) Hnd') as (k' & Hin & Hlack & Hr).
      * intros k' Hin. rewrite keys_app, in_app_iff. simpl.
        intros [Hd|[->|[]]]; [|contradiction].
        eapply Hfresh; [right; exact Hin|exact Hd].
      * inversion Hex as [? ? Hhere|]; subst; [|assumption].
        exfalso. apply Exists_exists in Hhere as (info & Hi & Hno).
        rewrite Forall_forall in Hall. exact (Hno (Hall info Hi)).
      * exists k'. auto.
    + exists k. split; [left; reflexivity|]. split; [exact Hbad|].
      rewrite gather_key_missing by assumption. reflexivity.
Qed.

(** X3. When the metrics of the first episode have distinct keys and
    every later episode has each of these keys, [_process_env_info]
    returns, for the keys of the first episode in their order, the values
    of all episodes one after the other; keys that only later episodes
    have are left out. *)
Theorem process_env_info_gathers (first : dict (list R)) (rest : list (dict (list R))) :
  NoDup (keys first) ->
  Forall (fun info => forall k, In k (keys first) -> In k (keys info)) rest ->
  _process_env_info (first :: rest)
  = Ok (map (fun k => (k, gathered (first :: rest) k)) (keys first)).
Proof.
  intros Hnd Hall.
  apply (gather_keys (first :: rest) (keys first) [] Hnd); [auto|].
  constructor; [auto|assumption].
Qed.

(** X4. [_process_env_info] raises [IndexError] on an empty list of
    episodes, and [KeyError] when a later episode lacks a key of the
    first one: the first such key, nothing being returned for the keys
    before it. *)
Theorem process_env_info_errors :
  _process_env_info [] = Raise IndexError /\
  forall (first : dict (list R)) (rest : list (dict (list R))),
    NoDup (keys first) ->
    Exists (fun k => Exists (fun info => ~ In k (keys info)) rest) (keys first) ->
    exists k,
      In k (keys first) /\ Exists (fun info => ~ In k (keys info)) rest /\
      _process_env_info (first :: rest) = Raise (KeyError k).
Proof.
  split; [reflexivity|].
  intros first rest Hnd Hex.
  destruct (gather_keys_missing (first :: rest) (keys first) [] Hnd) as (k & Hin & Hlack & Hr).
  - auto.
  - apply Exists_exists in Hex as (k & Hin & Hlack).
    apply Exists_exists. exists k. split; [assumption|].
    apply Exists_cons_tl. assumption.
  - exists k. split; [assumption|]. split; [|exact Hr].
    inversion Hlack as [? ? Hhere|]; subst; [contradiction|assumption].
Qed.

End Metrics.

(** ** Aggregation of a batch *)

Section Aggregation.

Context `{Collaborators}.

Lemma dict_get_entry {V} (d : dict V) k v :
  NoDup (keys d) -> In (k, v) d -> dict_get d k = Ok v.
Proof.
  induction d as [|[k0 v0] d IH]; simpl; intros Hnd Hin; [contradiction|].
  inversion Hnd as [|? ? Hn0 Hnd']; subst.
  destruct Hin as [Heq|Hin].
  - injection Heq as -> ->. rewrite String.eqb_refl. reflexivity.
  - destruct (String.eqb_spec k k0) as [->|Hk]; [|auto].
    exfalso. apply Hn0. apply (in_map fst) in Hin. exact Hin.
Qed.

Lemma metric_cons k v (tl : dict (list R)) k' :
  metric ((k, v) :: tl) k' = if String.eqb k' k then v else metric tl k'.
Proof. unfold metric. simpl. destruct (String.eqb k' k); reflexivity. Qed.

Lemma metric_missing (info : dict (list R)) k : ~ In k (keys info) -> metric info k = [].
Proof. intros Hn. unfold metric. rewrite dict_get_missing by assumption. reflexivity. Qed.

(** The keys of the first episode, each with an empty list
    (lines 194-195). *)
Lemma fresh_lists (first : dict (list R)) : forall d : dict (list R),
  NoDup (keys first) ->
  (forall k, In k (keys first) -> ~ In k (keys d)) ->
  fold_left (fun acc kv => dict_set acc (fst kv) []) first d
  = d ++ map (fun k => (k, [])) (keys first).
Proof.
  induction first as [|[k v] first IH]; intros d Hnd Hfresh; simpl.
  - rewrite app_nil_r. reflexivity.
  - inversion Hnd as [|? ? Hk Hnd']; subst.
    rewrite dict_set_new by (apply Hfresh; left; reflexivity).
    rewrite IH.
    + rewrite <- app_assoc. reflexivity.
    + assumption.
    + intros k' Hin. rewrite keys_app, in_app_iff. simpl.
      intros [Hd|[->|[]]]; [|contradiction].
      eapply Hfresh; [right; exact Hin|exact Hd].
Qed.

Lemma keys_fresh_lists (ks : list string) :
  keys (map (fun k => (k, @nil R)) ks) = ks.
Proof. unfold keys. rewrite map_map. simpl. apply map_id. Qed.

(** The metrics of one episode appended to the lists (lines 197-198). *)
Lemma extend_infos_run (info : dict (list R)) : forall (acc : dict (list R)) (h : Heap),
  NoDup (keys acc) -> NoDup (keys info) ->
  (forall k, In k (keys info) -> In k (keys acc)) ->
  extend_infos acc info h
  = (Ok (map (fun kv => (fst kv, snd kv ++ metric info (fst kv))) acc), h).
Proof.
  unfold extend_infos.
  induction info as [|[k v] tl IH]; intros acc h Hacc Hnd Hsub; simpl.
  - unfold ret. f_equal. f_equal. rewrite <- (map_id acc) at 1.
    apply map_ext. intros [k o]. simpl. unfold metric. simpl.
    rewrite app_nil_r. reflexivity.
  - inversion Hnd as [|? ? Hk Hnd']; subst.
    destruct (dict_get_in acc k (Hsub k (or_introl eq_refl))) as [old Hold].
    unfold bind at 1 2, lift, ret. simpl. rewrite Hold.
    rewrite IH.
    + f_equal. f_equal.
      rewrite dict_set_map by (auto; apply Hsub; left; reflexivity).
      rewrite map_map. apply map_ext_in. intros [k' o] Hin. simpl.
      rewrite metric_cons.
      destruct (String.eqb_spec k' k) as [->|Hne]; simpl.
      * rewrite (metric_missing tl k Hk), app_nil_r.
        pose proof (dict_get_entry acc k o Hacc Hin) as Ho.
        rewrite Hold in Ho. injection Ho as ->. reflexivity.
      * reflexivity.
    + rewrite keys_dict_set by (apply Hsub; left; reflexivity). assumption.
    + assumption.
    + intros k' Hin. rewrite keys_dict_set by (apply Hsub; left; reflexivity).
      apply Hsub. right. assumption.
Qed.

Lemma extend_all_infos (infos : list (dict (list R))) :
  forall (acc : dict (list R)) (h : Heap),
    NoDup (keys acc) ->
    Forall (fun info => NoDup (keys info)) infos ->
    Forall (fun info => forall k, In k (keys info) -> In k (keys acc)) infos ->
    foldM extend_infos infos acc h
    = (Ok (map (fun kv => (fst kv, snd kv ++ gathered infos (fst kv))) acc), h).
Proof.
  induction infos as [|info infos IH]; intros acc h Hacc Hnd Hsub; simpl.
  - unfold ret. f_equal. f_equal. rewrite <- (map_id acc) at 1.
    apply map_ext. intros [k o]. unfold gathered. simpl.
    rewrite app_nil_r. reflexivity.
  - inversion Hnd; inversion Hsub; subst.
    rewrite (bind_run _ _ _ _ _ (extend_infos_run info acc h Hacc ltac:(assumption)
                                                  ltac:(assumption))).
    assert (Hkeys : keys (map (fun kv => (fst kv, snd kv ++ metric info (fst kv))) acc)
                    = keys acc).
    { unfold keys. rewrite map_map. reflexivity. }
    rewrite IH.
    + f_equal. f_equal. rewrite map_map. apply map_ext. intros [k o]. simpl.
      unfold gathered. simpl. rewrite app_assoc. reflexivity.
    + rewrite Hkeys. assumption.
    + assumption.
    + rewrite Hkeys. assumption.
Qed.

(** X5. When the episodes' metrics have the same distinct keys, the
    metrics in the batch that [_process_data] returns are those that
    [_process_env_info] computes from the same episodes. *)
Theorem step_infos_agree cfg raw h b h' :
  Forall (fun r => NoDup (keys (env_step_info r))) raw ->
  (forall r r' k, In r raw -> In r' raw ->
                  In k (keys (env_step_info r)) -> In k (keys (env_step_info r'))) ->
  _process_data cfg raw h = (Ok b, h') ->
  _process_env_info (map env_step_info raw) = Ok (b_step_infos b).
Proof.
  intros Hnd Hsame Hrun.
  unfold _process_data in Hrun.
  apply bind_ok_inv in Hrun as (rewards & h1 & _ & Hrun).
  apply bind_ok_inv in Hrun as (rewards' & h2 & _ & Hrun).
  apply bind_ok_inv in Hrun as (first & h3 & Hfirst & Hrun).
  apply lift_inv in Hfirst as [Hfirst ->].
  destruct raw as [|r0 raw']; [discriminate|].
  simpl in Hfirst. injection Hfirst as <-.
  inversion Hnd as [|? ? Hnd0 Hnd']; subst.
  rewrite fresh_lists in Hrun by auto. simpl app in Hrun.
  apply bind_ok_inv in Hrun as (infos & h4 & Hext & Hrun).
  rewrite extend_all_infos in Hext.
  - injection Hext as <- <-.
    assert (Hb : b_step_infos b
                 = map (fun kv => (fst kv, snd kv ++ gathered (map env_step_info (r0 :: raw'))
                                                              (fst kv)))
                       (map (fun k => (k, [])) (keys (env_step_info r0)))).
    { destruct (normalize cfg); run_inv; subst b; reflexivity. }
    rewrite Hb, map_map. simpl map at 2.
    apply (gather_keys (map env_step_info (r0 :: raw')) (keys (env_step_info r0)) []);
      [assumption|auto|].
    apply Forall_map, Forall_forall. intros r Hr k Hk.
    apply (Hsame r0 r k); [left; reflexivity|assumption|assumption].
  - rewrite keys_fresh_lists. exact Hnd0.
  - apply Forall_map. exact Hnd.
  - apply Forall_map, Forall_forall. intros r Hr k Hk.
    rewrite keys_fresh_lists.
    apply (Hsame r r0 k); [assumption|left; reflexivity|assumption].
Qed.

Lemma in_keys_fresh_lists (first d : dict (list R)) k :
  In k (keys (fold_left (fun acc kv => dict_set acc (fst kv) []) first d))
  <-> In k (keys d) \/ In k (keys first).
Proof.
  revert d. induction first as [|[k0 v0] first IH]; intros d; simpl.
  - intuition.
  - rewrite IH, in_keys_dict_set. simpl. intuition.
Qed.

(** The metrics of an episode whose keys the lists all have. *)
Lemma extend_infos_keys (info : dict (list R)) : forall (acc : dict (list R)) (h : Heap),
  (forall k, In k (keys info) -> In k (keys acc)) ->
  exists acc', extend_infos acc info h = (Ok acc', h) /\ keys acc' = keys acc.
Proof.
  unfold extend_infos.
  induction info as [|[k v] tl IH]; intros acc h Hsub; simpl.
  - exists acc. split; reflexivity.
  - destruct (dict_get_in acc k (Hsub k (or_introl eq_refl))) as [old Hold].
    unfold bind at 1 2, lift, ret. simpl. rewrite Hold.
    destruct (IH (dict_set acc k (old ++ v)) h) as (acc' & Hrun & Hkeys).
    + intros k' Hin. rewrite keys_dict_set by (apply Hsub; left; reflexivity).
      apply Hsub. right. assumption.
    + exists acc'. split; [exact Hrun|].
      rewrite Hkeys. apply keys_dict_set. apply Hsub. left. reflexivity.
Qed.

(** The metrics of an episode with a key that the lists do not have. *)
Lemma extend_infos_missing (info : dict (list R)) : forall (acc : dict (list R)) (h : Heap),
  Exists (fun k => ~ In k (keys acc)) (keys info) ->
  exists k, ~ In k (keys acc) /\ extend_infos acc info h = (Raise (KeyError k), h).
Proof.
  unfold extend_infos.
  induction info as [|[k v] tl IH]; intros acc h Hex; simpl in *.
  - inversion Hex.
  - destruct (in_dec string_dec k (keys acc)) as [Hin|Hno].
    + destruct (dict_get_in acc k Hin) as [old Hold].
      unfold bind at 1 2, lift, ret. simpl. rewrite Hold.
      destruct (IH (dict_set acc k (old ++ v)) h) as (k' & Hk' & Hrun).
      * inversion Hex as [? ? Hhere|? ? Hlater]; subst; [contradiction|].
        eapply Exists_impl; [|exact Hlater]. simpl. intros k' Hk'.
        rewrite keys_dict_set by assumption. exact Hk'.
      * exists k'. split; [|exact Hrun].
        rewrite keys_dict_set in Hk' by assumption. exact Hk'.
    + exists k. split; [assumption|].
      unfold bind, lift. rewrite (dict_get_missing acc k Hno). reflexivity.
Qed.

Lemma extend_all_infos_missing (infos : list (dict (list R))) :
  forall (acc : dict (list R)) (h : Heap),
    Exists (fun info => Exists (fun k => ~ In k (keys acc)) (keys info)) infos ->
    exists k, ~ In k (keys acc) /\ foldM extend_infos infos acc h = (Raise (KeyError k), h).
Proof.
  induction infos as [|info infos IH]; intros acc h Hex; simpl.
  - inversion Hex.
  - destruct (Exists_dec (fun k => ~ In k (keys acc)) (keys info)) as [Hbad|Hgood].
    { intros k. destruct (in_dec string_dec k (keys acc)); [right|left]; tauto. }
    + destruct (extend_infos_missing info acc h Hbad) as (k & Hk & Hrun).
      exists k. split; [assumption|]. rewrite (bind_raise _ _ _ _ _ Hrun). reflexivity.
    + destruct (extend_infos_keys info acc h) as (acc' & Hrun & Hkeys).
      { intros k Hin. destruct (in_dec string_dec k (keys acc)) as [|Hno]; [assumption|].
        exfalso. apply Hgood. apply Exists_exists. eauto. }
      rewrite (bind_run _ _ _ _ _ Hrun).
      destruct (IH acc' h) as (k & Hk & Hrest).
      * inversion Hex as [? ? Hhere|? ? Hlater]; subst; [contradiction|].
        rewrite Hkeys. exact Hlater.
      * exists k. rewrite <- Hkeys. auto.
Qed.

(** X28. When a later episode has a metric that the first episode does
    not have, [_process_data] raises [KeyError] for such a metric
    (whereas [_process_env_info] leaves the metric out). *)
Theorem extra_metric_raises cfg (r0 : EpisodeResult) (rest : list EpisodeResult) h :
  neg_reward (low_level r0) <> [] ->
  Exists (fun r => Exists (fun k => ~ In k (keys (env_step_info r0)))
                          (keys (env_step_info r))) rest ->
  exists k,
    ~ In k (keys (env_step_info r0)) /\
    fst (_process_data cfg (r0 :: rest) h) = Raise (KeyError k).
Proof.
  intros Hrewards Hex.
  destruct (_process_data cfg (r0 :: rest) h) as [r h'] eqn:Hrun. simpl.
  unfold _process_data in Hrun.
  rewrite stacked_rewards in Hrun.
  assert (Hv : exists a,
             vstack_scalars (flat_map (fun r => neg_reward (low_level r)) (r0 :: rest))
             = Ok a).
  { simpl. destruct (neg_reward (low_level r0)); [contradiction|]. simpl. eauto. }
  destruct Hv as [a Hv].
  rewrite (bind_run _ _ h h a) in Hrun by (unfold lift; rewrite Hv; reflexivity).
  apply bind_inv in Hrun as [(rewards & s2 & H2 & Hrun)|(e & H2 & _)].
  2:{ exfalso. destruct (normalize_reward cfg).
      - unfold bind, emit, modify, ret in H2. discriminate.
      - discriminate. }
  rewrite (bind_run _ _ s2 s2 (env_step_info r0)) in Hrun by reflexivity.
  cbv zeta in Hrun.
  destruct (extend_all_infos_missing
              (map env_step_info (r0 :: rest))
              (fold_left (fun acc kv => dict_set acc (fst kv) []) (env_step_info r0) [])
              s2) as (k & Hk & Hfail).
  - simpl. apply Exists_cons_tl. apply Exists_exists in Hex as (r1 & Hin & Hbad).
    apply Exists_exists. exists (env_step_info r1). split; [apply in_map; assumption|].
    eapply Exists_impl; [|exact Hbad]. simpl. intros k Hk.
    rewrite in_keys_fresh_lists. simpl. tauto.
  - rewrite (bind_raise _ _ _ _ _ Hfail) in Hrun. injection Hrun as <- _.
    exists k. split; [|reflexivity].
    rewrite in_keys_fresh_lists in Hk. tauto.
Qed.

(** X6. The action lists and the selection counts of the batch are
    those of the episodes, one episode after the other, and so are the
    states when feature normalisation is off, in which case
    [_process_data] leaves every attribute of the trainer as it was. *)
Theorem aggregation_in_episode_order cfg raw h b h' :
  _process_data cfg raw h = (Ok b, h') ->
  b_actions b = flat_map (fun r => action (low_level r)) raw /\
  b_sel_cuts_nums b = flat_map (fun r => sel_cuts_num (low_level r)) raw /\
  (normalize cfg = false ->
   b_states b = flat_map (fun r => state (low_level r)) raw /\ self h' = self h).
Proof.
  intros Hrun.
  assert (Hself : normalize cfg = false -> self h' = self h).
  { intros Hn. step_fact Hrun (kept self) ltac:(frame_with ltac:(first [reflexivity|congruence])).
    exact Hstep. }
  unfold _process_data in Hrun.
  rewrite !fold_app_flat_map, !flat_map_map in Hrun. simpl app in Hrun.
  run_inv.
  destruct (normalize cfg); run_inv; subst b; simpl;
    (split; [reflexivity|]); (split; [reflexivity|]); intros Hn;
    [discriminate|auto].
Qed.

(** X7. With feature normalisation on, [_process_data] first updates the
    running statistics with the states of the batch, stacked, and then
    normalises each state with the statistics so updated, not with those
    it started from. *)
Theorem states_normalized_after_update cfg raw h b h' :
  normalize cfg = true ->
  _process_data cfg raw h = (Ok b, h') ->
  let states := flat_map (fun r => state (low_level r)) raw in
  exists ms,
    mean_std (self h) = Some ms /\
    mean_std (self h') = Some (rms_update ms (List.concat states)) /\
    collect (map (_normalize_state (rms_update ms (List.concat states))) states)
    = Ok (b_states b).
Proof.
  intros Hn Hrun states.
  unfold _process_data in Hrun.
  rewrite !fold_app_flat_map, !flat_map_map in Hrun. simpl app in Hrun.
  fold states in Hrun.
  apply bind_ok_inv in Hrun as (rewards & h1 & H1 & Hrun).
  apply lift_inv in H1 as [_ ->].
  apply bind_ok_inv in Hrun as (rewards' & h2 & H2 & Hrun).
  step_fact H2 (kept self) ltac:(frame). rename Hstep into S2.
  apply bind_ok_inv in Hrun as (first & h3 & H3 & Hrun).
  apply lift_inv in H3 as [_ ->].
  apply bind_ok_inv in Hrun as (infos & h4 & H4 & Hrun).
  step_fact H4 (kept self) ltac:(frame). rename Hstep into S4.
  rewrite Hn in Hrun.
  run_inv.
  match goal with Hv : vstack states = Ok ?a |- _ =>
    assert (Ha : a = List.concat states)
      by (unfold vstack in Hv; destruct states;
          [discriminate|injection Hv as <-; reflexivity])
  end.
  match goal with Hf : foldM _ (range _) tt _ = _ |- _ =>
    step_fact Hf (kept self) ltac:(frame) end.
  unfold kept in *. subst. simpl in *.
  match goal with Hm : mean_std (self h4) = Some ?ms |- _ => exists ms end.
  split; [congruence|].
  match goal with Hs : self ?s = set_mean_std _ _ |- _ => rewrite Hs in * end.
  simpl in *.
  match goal with Hm : Some _ = Some ?ms |- _ => injection Hm as <- end.
  split; [reflexivity|assumption].
Qed.

End Aggregation.

(** ** Normalisation of a state *)

Section Normalisation.

Context `{Collaborators}.

Lemma collect_map_ok {A B} (f : A -> result B) (g : A -> B) (l : list A) :
  (forall x, In x l -> f x = Ok (g x)) -> collect (map f l) = Ok (map g l).
Proof.
  induction l as [|x l IH]; intros Hf; simpl; [reflexivity|].
  rewrite (Hf x (or_introl eq_refl)), IH by (intros; apply Hf; right; assumption).
  reflexivity.
Qed.

Lemma broadcast_same {A B C} (f : A -> B -> C) (x : list A) (y : list B) :
  List.length x = List.length y ->
  broadcast f x y = Ok (map (fun p => f (fst p) (snd p)) (combine x y)).
Proof.
  intros Hlen. unfold broadcast, len. rewrite Hlen, Z.eqb_refl. reflexivity.
Qed.

(** A matrix against one row: the row is matched with every row of the
    matrix. *)
Lemma broadcast2_row {A B C} (f : A -> B -> C) (x : list (list A)) (row : list B) :
  Forall (fun r => List.length r = List.length row) x ->
  broadcast2 f x [row]
  = Ok (map (fun r => map (fun p => f (fst p) (snd p)) (combine r row)) x).
Proof.
  intros Hrows. unfold broadcast2.
  assert (Hb : broadcast (broadcast f) x [row] = Ok (map (fun r => broadcast f r row) x)).
  { unfold broadcast at 1.
    destruct (Z.eqb_spec (len x) (len [row])) as [Heq|Hne].
    - destruct x as [|r1 [|r2 x]]; unfold len in Heq; simpl in Heq; try lia.
      reflexivity.
    - destruct x as [|r1 [|r2 x]]; reflexivity. }
  rewrite Hb. apply collect_map_ok. intros r Hr.
  apply broadcast_same. rewrite Forall_forall in Hrows. auto.
Qed.

Lemma combine_map {A B A' B'} (f : A -> A') (g : B -> B') (l : list A) (l' : list B) :
  combine (map f l) (map g l') = map (fun p => (f (fst p), g (snd p))) (combine l l').
Proof.
  revert l'. induction l as [|a l IH]; intros [|b l']; simpl; [reflexivity..|].
  rewrite IH. reflexivity.
Qed.

(** X8. For a state whose rows have one entry for each feature of the
    running statistics, [_normalize_state] returns the state of the same
    shape with [(x - mean) / (std + epsilon)] in the place of [x], the
    mean and the deviation being those of the feature. *)
Theorem normalize_state_rows (ms : RunningMeanStd) (state : ndarray) :
  List.length (rms_std ms) = List.length (rms_mean ms) ->
  Forall (fun row => List.length row = List.length (rms_mean ms)) state ->
  _normalize_state ms state = Ok (map (normalized_row ms) state).
Proof.
  intros Hstd Hrows. unfold _normalize_state.
  rewrite broadcast2_row by assumption.
  rewrite broadcast2_row.
  - f_equal. rewrite map_map. apply map_ext. intros row.
    unfold normalized_row.
    rewrite <- (map_id (combine row (rms_mean ms))) at 1.
    rewrite map_map.
    change (map (fun x => (fst x - snd x)%R) (combine row (rms_mean ms)))
      with (map (fun x => (fun q => (fst q - snd q)%R) x) (combine row (rms_mean ms))).
    rewrite combine_map, map_map. reflexivity.
  - apply Forall_map. eapply Forall_impl; [|exact Hrows].
    intros row Hrow. simpl.
    rewrite !length_map, length_combine, Hrow, Hstd. apply Nat.min_id.
Qed.

End Normalisation.

(** ** Calls of [train] *)

Section Training.

Context `{Collaborators}.

Local Open Scope string_scope.

Lemma no_baseline_update cfg neg_rewards epoch :
  baseline_type cfg <> "simple" -> update_baseline cfg neg_rewards epoch = ret tt.
Proof.
  intros Hb. unfold update_baseline.
  destruct (String.eqb_spec (baseline_type cfg) "simple"); [contradiction|reflexivity].
Qed.

Lemma train_keeps_missing_average cfg raw epoch :
  baseline_type cfg <> "simple" -> preserves ema_of (train cfg raw epoch).
Proof.
  intros Hb. unfold train.
  apply steps_bind; [exact _|frame|]. intros b.
  apply steps_bind; [exact _|frame|]. intros loops.
  rewrite no_baseline_update by assumption.
  frame.
Qed.

(** X9. On a trainer whose baseline type is not 'simple' and that has no
    moving average, as [__init__] builds it, no call of [train] returns:
    a call that gets through the loops and the checkpoint raises while
    it reports the critic value.  The trainer still has no moving
    average afterwards, so the same holds for the calls that follow. *)
Theorem train_raises_without_simple_baseline cfg raw epoch h :
  baseline_type cfg <> "simple" ->
  ema_of h = None ->
  (exists e, fst (train cfg raw epoch h) = Raise e) /\
  ema_of (snd (train cfg raw epoch h)) = None.
Proof.
  intros Hb He.
  destruct (train cfg raw epoch h) as [r h'] eqn:Hrun. simpl.
  pose proof (train_keeps_missing_average cfg raw epoch Hb _ _ _ Hrun) as Hk.
  unfold kept in Hk. split; [|congruence].
  destruct r as [[]|e]; [|eauto]. exfalso.
  unfold train in Hrun.
  apply bind_ok_inv in Hrun as (b & h1 & H1 & Hrun).
  step_fact H1 (kept ema_of) ltac:(frame). rename Hstep into S1.
  apply bind_ok_inv in Hrun as (loops & h2 & H2 & Hrun).
  apply lift_inv in H2 as [_ ->].
  rewrite no_baseline_update in Hrun by assumption.
  apply bind_ok_inv in Hrun as ([] & h3 & H3 & Hrun).
  apply ret_inv in H3 as [_ ->].
  apply bind_ok_inv in Hrun as (loc & h4 & H4 & Hrun).
  step_fact H4 (kept ema_of) ltac:(frame). rename Hstep into S4.
  apply bind_ok_inv in Hrun as ([] & h5 & H5 & Hrun).
  step_fact H5 (kept ema_of) ltac:(frame). rename Hstep into S5.
  apply bind_ok_inv in Hrun as ([] & h6 & H6 & Hrun).
  step_fact H6 (kept ema_of) ltac:(frame). rename Hstep into S6.
  unfold report in Hrun. run_inv. subst.
  unfold kept, ema_of in *. simpl in *. congruence.
Qed.

(** X10. A call of [train] with no sample at all (no episode, or episodes
    without rewards) raises [ValueError] when the rewards are stacked,
    and leaves the trainer and the logger as they were. *)
Theorem train_without_samples cfg raw epoch h :
  Forall (fun r => neg_reward (low_level r) = []) raw ->
  train cfg raw epoch h
  = (Raise (ValueError "need at least one array to concatenate"), h).
Proof.
  intros Hempty. unfold train, _process_data.
  rewrite stacked_rewards.
  assert (Hnil : flat_map (fun r => neg_reward (low_level r)) raw = []).
  { induction Hempty as [|r raw Hr _ IH]; simpl; [reflexivity|].
    rewrite Hr, IH. reflexivity. }
  rewrite Hnil. reflexivity.
Qed.

(** X11. With a batch size of zero, [train] raises [ZeroDivisionError]
    once the batch is aggregated: no mini-batch loop runs, the moving
    average is not updated and no checkpoint is written. *)
Theorem train_with_batch_size_zero cfg raw epoch h b h1 :
  batch_size cfg = 0%Z ->
  _process_data cfg raw h = (Ok b, h1) ->
  train cfg raw epoch h = (Raise ZeroDivisionError, h1).
Proof.
  intros Hbs Hp. unfold train.
  rewrite (bind_run _ _ _ _ _ Hp).
  unfold train_loop_of, mod_. rewrite Hbs.
  pose proof (len_nonneg (b_states b)) as Hlen.
  destruct (Z.ltb_spec (len (b_states b)) 0); [lia|]. reflexivity.
Qed.

(** X12. A call of [train] leaves the attributes of the hierarchical
    trainer as they were: the high-level policy, its optimizer, its
    replay buffer, its counter of updates and its moving average. *)
Theorem train_leaves_the_highlevel_policy cfg raw epoch h :
  hrl (self (snd (train cfg raw epoch h))) = hrl (self h).
Proof.
  destruct (train cfg raw epoch h) as [r h'] eqn:Hrun. simpl.
  step_fact Hrun (kept (fun x => hrl (self x))) ltac:(frame). exact Hstep.
Qed.

(** X13. A call of [train_highlevel_policy] leaves the low-level policy
    as it was (the pointer network and its optimizer, the value network
    and its optimizer, the low-level moving average) and writes no
    checkpoint: the high-level policy it has updated is saved by the
    next call of [train]. *)
Theorem highlevel_update_leaves_the_lowlevel_policy cfg raw epoch h :
  let h' := snd (train_highlevel_policy cfg raw epoch h) in
  pointer_net (self h') = pointer_net (self h) /\
  policy_optimizer (self h') = policy_optimizer (self h) /\
  value_net (self h') = value_net (self h) /\
  value_optimizer (self h') = value_optimizer (self h) /\
  critic_exp_mvg_avg (self h') = critic_exp_mvg_avg (self h) /\
  checkpoints h' = checkpoints h.
Proof.
  destruct (train_highlevel_policy cfg raw epoch h) as [r h'] eqn:Hrun. simpl.
  repeat split.
  - step_fact Hrun (kept (fun x => pointer_net (self x))) ltac:(frame). exact Hstep.
  - step_fact Hrun (kept (fun x => policy_optimizer (self x))) ltac:(frame). exact Hstep.
  - step_fact Hrun (kept (fun x => value_net (self x))) ltac:(frame). exact Hstep.
  - step_fact Hrun (kept (fun x => value_optimizer (self x))) ltac:(frame). exact Hstep.
  - step_fact Hrun (kept (fun x => critic_exp_mvg_avg (self x))) ltac:(frame). exact Hstep.
  - step_fact Hrun (kept checkpoints) ltac:(frame_with calls_leaf). exact Hstep.
Qed.

(** X14. Unless the baseline type is 'net', a call of [train] leaves the
    value network and its optimizer as they were. *)
Theorem value_network_trained_with_net_baseline_only cfg raw epoch h :
  baseline_type cfg <> "net" ->
  value_net (self (snd (train cfg raw epoch h))) = value_net (self h) /\
  value_optimizer (self (snd (train cfg raw epoch h))) = value_optimizer (self h).
Proof.
  intros Hb.
  assert (Hnet : (baseline_type cfg =? "net") = false).
  { destruct (String.eqb_spec (baseline_type cfg) "net"); [contradiction|reflexivity]. }
  destruct (train cfg raw epoch h) as [r h'] eqn:Hrun. simpl.
  split.
  - step_fact Hrun (kept (fun x => value_net (self x))) ltac:(frame_with kept_leaf).
    exact Hstep.
  - step_fact Hrun (kept (fun x => value_optimizer (self x))) ltac:(frame_with kept_leaf).
    exact Hstep.
Qed.

(** X15. With the 'simple' baseline and a decay [critic_beta] between
    zero and one, the moving average after the update of [train] lies
    between the moving average before it and the mean reward of the
    batch. *)
Theorem moving_average_between cfg neg_rewards epoch h ema :
  baseline_type cfg = "simple" ->
  (0 <= critic_beta cfg <= 1)%R ->
  ema_of h = Some ema ->
  exists ema',
    ema_of (snd (update_baseline cfg neg_rewards epoch h)) = Some ema' /\
    (Rmin ema (Np.mean neg_rewards) <= ema' <= Rmax ema (Np.mean neg_rewards))%R.
Proof.
  intros Hb Hbeta He.
  rewrite (update_baseline_simple cfg neg_rewards epoch h ema Hb He). simpl.
  eexists. split; [reflexivity|].
  set (m := Np.mean neg_rewards). set (beta := critic_beta cfg) in *.
  unfold Rmin, Rmax.
  destruct (epoch =? 1)%Z; destruct (Rle_dec ema m); nra.
Qed.

End Training.

(** ** The rewards of the mini-batches *)

Section Rows.

Lemma firstn_plus {A} (n m : nat) (l : list A) :
  firstn (n + m) l = firstn n l ++ firstn m (skipn n l).
Proof.
  revert l. induction n as [|n IH]; intros l; simpl; [reflexivity|].
  destruct l as [|x l]; simpl.
  - rewrite firstn_nil. reflexivity.
  - rewrite IH. reflexivity.
Qed.

Lemma slice_within {A} (l : list A) (a b : Z) :
  0 <= a <= b -> b <= len l ->
  slice a b l = firstn (Z.to_nat (b - a)) (skipn (Z.to_nat a) l).
Proof.
  intros Hab Hb. unfold slice, clip_index.
  destruct (Z.ltb_spec a 0); [lia|]. destruct (Z.ltb_spec b 0); [lia|].
  rewrite !Z.min_l by lia. reflexivity.
Qed.

Lemma slice_from_within {A} (l : list A) (a : Z) :
  0 <= a <= len l -> slice_from a l = skipn (Z.to_nat a) l.
Proof.
  intros Ha. unfold slice_from, clip_index.
  destruct (Z.ltb_spec a 0); [lia|]. rewrite Z.min_l by lia. reflexivity.
Qed.

Lemma len_slice_within {A} (l : list A) (a b : Z) :
  0 <= a <= b -> b <= len l -> len (slice a b l) = b - a.
Proof.
  intros Hab Hb. rewrite slice_within by assumption.
  unfold len in *. rewrite length_firstn, length_skipn. lia.
Qed.

(** The full mini-batches, one after the other, are a prefix of the
    rows. *)
Lemma full_slices {A} (l : list A) (bs : Z) (k : nat) :
  0 < bs -> Z.of_nat k * bs <= len l ->
  List.concat (map (fun i => slice (i * bs) ((i + 1) * bs) l) (range (Z.of_nat k)))
  = firstn (Z.to_nat (Z.of_nat k * bs)) l.
Proof.
  intros Hbs. induction k as [|k IH]; intros Hk.
  - reflexivity.
  - replace (Z.of_nat (S k)) with (Z.of_nat k + 1) in * by lia.
    rewrite range_succ by lia.
    rewrite map_app, concat_app, IH by nia. simpl. rewrite app_nil_r.
    rewrite slice_within by nia.
    replace (Z.to_nat ((Z.of_nat k + 1) * bs))
      with (Z.to_nat (Z.of_nat k * bs) + Z.to_nat ((Z.of_nat k + 1) * bs - Z.of_nat k * bs))%nat
      by nia.
    apply eq_sym, firstn_plus.
Qed.

(** X16. For a positive batch size and as many rows of rewards as
    states, the rows of rewards that [train] takes for its mini-batch
    loops are, one loop after the other, all the rows in their order,
    each row in one loop, and the loop [i] takes as many rows as it has
    samples. *)
Theorem minibatch_rows_partition {A} (states : list A) (neg_rewards : ndarray) (bs : Z) :
  0 < bs ->
  len neg_rewards = len states ->
  let loops := if len states <? bs then 1 else ceil_div (len states) bs in
  List.concat (map (minibatch_rows neg_rewards bs loops) (range loops)) = neg_rewards /\
  map (fun i => len (minibatch_rows neg_rewards bs loops i)) (range loops)
  = minibatch_sizes states bs loops.
Proof.
  intros Hbs Hlen loops.
  pose proof (len_nonneg states) as HN.
  pose proof (loops_bounds (len states) bs HN Hbs) as (Hl1 & Hl2 & Hl3 & _).
  fold loops in Hl1, Hl2, Hl3.
  assert (Hr : range loops = range (loops - 1) ++ [loops - 1]).
  { rewrite <- range_succ by lia. f_equal. lia. }
  clearbody loops.
  split.
  - rewrite Hr, map_app, concat_app. simpl. rewrite app_nil_r.
    unfold minibatch_rows at 2. rewrite Z.eqb_refl.
    rewrite (map_ext_in _ (fun i => slice (i * bs) ((i + 1) * bs) neg_rewards)).
    2:{ intros i Hi. apply in_range in Hi. unfold minibatch_rows.
        destruct (Z.eqb_spec i (loops - 1)); [lia|reflexivity]. }
    replace (loops - 1) with (Z.of_nat (Z.to_nat (loops - 1))) at 1 by lia.
    rewrite full_slices by (rewrite ?Z2Nat.id; nia).
    rewrite Z2Nat.id by lia.
    rewrite slice_from_within by nia.
    apply firstn_skipn.
  - unfold minibatch_sizes. apply map_ext_in. intros i Hi. apply in_range in Hi.
    unfold minibatch_rows, minibatch_size.
    destruct (Z.eqb_spec i (loops - 1)) as [->|Hne].
    + rewrite !len_slice_from by nia. lia.
    + rewrite len_slice_within by nia. lia.
Qed.

End Rows.

(** ** Steps of the optimizers and of the schedule *)

Section Schedule.

Context `{Collaborators}.

Lemma paces_of_machinery (h : Heap) : paces h = filter is_pace (machinery h).
Proof.
  unfold paces, machinery.
  induction (sink h) as [|e l IH]; simpl; [reflexivity|].
  destruct e; simpl; rewrite IH; reflexivity.
Qed.

Lemma minibatch_paces cfg epoch train_loop b loc i h loc' h' :
  minibatch cfg epoch train_loop b loc i h = (Ok loc', h') ->
  paces h' = paces h ++ minibatch_steps cfg.
Proof.
  intros Hrun.
  destruct (minibatch_machinery _ _ _ _ _ _ _ _ _ Hrun)
    as (adv & lps & prod & calls & _ & _ & _ & _ & Hm & Hc).
  rewrite !paces_of_machinery, Hm, !filter_app. f_equal.
  unfold minibatch_steps.
  destruct (baseline_type cfg =? "net")%string.
  - destruct Hc as (v & closs & _ & _ & _ & _ & ->). reflexivity.
  - subst calls. reflexivity.
Qed.

Lemma loop_paces cfg epoch train_loop b xs :
  forall loc h loc' h',
    foldM (minibatch cfg epoch train_loop b) xs loc h = (Ok loc', h') ->
    paces h' = paces h ++ List.concat (repeat (minibatch_steps cfg) (List.length xs)).
Proof.
  induction xs as [|x xs IH]; intros loc h loc' h' Hrun; simpl in *.
  - run_inv. subst. rewrite app_nil_r. reflexivity.
  - run_inv.
    match goal with Hm : minibatch _ _ _ _ _ _ _ = _ |- _ =>
      apply minibatch_paces in Hm; rename Hm into Hfirst end.
    rewrite (IH _ _ _ _ Hrun), Hfirst, <- app_assoc. reflexivity.
Qed.

Lemma lr_update_paces cfg epoch h h' :
  lr_update cfg epoch h = (Ok tt, h') ->
  paces h' = paces h ++ (if lr_decay cfg then [SchedulerStep PointerNet] else []).
Proof.
  unfold lr_update, when. intros Hrun.
  destruct (lr_decay cfg); run_inv; subst.
  - unfold paces. simpl. rewrite !filter_app. simpl. rewrite app_nil_r. reflexivity.
  - rewrite app_nil_r. reflexivity.
Qed.

(** X17. In a call of [train] that returns, the learning-rate schedule
    of the policy is stepped once when [lr_decay] is on and never when
    it is off, after the optimizer steps of all the mini-batch loops:
    once for each call, not once for each mini-batch. *)
Theorem one_schedule_step_per_call cfg raw epoch h h' :
  train cfg raw epoch h = (Ok tt, h') ->
  exists b h1 loops,
    _process_data cfg raw h = (Ok b, h1) /\
    train_loop_of (len (b_states b)) (batch_size cfg) = Ok loops /\
    paces h'
    = paces h
      ++ List.concat (repeat (minibatch_steps cfg) (Z.to_nat loops))
      ++ (if lr_decay cfg then [SchedulerStep PointerNet] else []).
Proof.
  intros Hrun. unfold train in Hrun.
  apply bind_ok_inv in Hrun as (b & h1 & Hp & Hrun).
  step_fact Hp (kept paces) ltac:(frame_with calls_leaf). rename Hstep into P1.
  apply bind_ok_inv in Hrun as (loops & h2 & Hl & Hrun).
  apply lift_inv in Hl as [Hl ->].
  apply bind_ok_inv in Hrun as ([] & h3 & Hb & Hrun).
  step_fact Hb (kept paces) ltac:(frame_with calls_leaf). rename Hstep into P3.
  apply bind_ok_inv in Hrun as (loc & h4 & Hloop & Hrun).
  apply loop_paces in Hloop. rewrite range_length in Hloop.
  apply bind_ok_inv in Hrun as ([] & h5 & Hlr & Hrun).
  apply lr_update_paces in Hlr.
  step_fact Hrun (kept paces) ltac:(frame_with calls_leaf). rename Hstep into P6.
  exists b, h1, loops. split; [assumption|]. split; [assumption|].
  unfold kept in *. rewrite P6, Hlr, Hloop, P3, P1, <- app_assoc. reflexivity.
Qed.

(** The four calls that update the policy, from the state [s]. *)
Lemma policy_update_run (loss : Tensor) (max_norm : R) (s s' : Heap) :
  (zero_grad PointerNet ;;; loss_backward loss ;;; clip PointerNet max_norm ;;;
   policy_optimizer_step) s = (Ok tt, s') ->
  let step := optim_step (policy_optimizer (self s)) (pointer_net (self s))
                         (clip_grad_norm (grad loss PointerNet) max_norm) in
  pointer_net (self s') = snd step /\
  policy_optimizer (self s') = fst step /\
  value_net (self s') = value_net (self s).
Proof.
  unfold zero_grad, loss_backward, clip, policy_optimizer_step, attr, assign, emit,
    bind, gets, modify, lift, backward.
  destruct (requires_grad loss); simpl; intros Hrun; [|discriminate].
  injection Hrun as <-. simpl.
  assert (Hg : (fun k => clip_grad_norm
                           (gadd (fun m k0 => if net_eqb m PointerNet then 0%R
                                              else grads (self s) m k0)
                                 (grad loss) PointerNet)
                           max_norm k)
               = clip_grad_norm (grad loss PointerNet) max_norm).
  { apply functional_extensionality. intros k. f_equal.
    apply functional_extensionality. intros k0. unfold gadd. simpl. ring. }
  rewrite Hg. auto.
Qed.

(** X20. A mini-batch loop that completes steps the policy optimizer
    with the clipped gradient of the REINFORCE loss of this mini-batch
    and of nothing else: what earlier loops left in the gradients of the
    pointer network is discarded. *)
Theorem policy_step_of_a_minibatch cfg epoch train_loop b loc i h loc' h' :
  minibatch cfg epoch train_loop b loc i h = (Ok loc', h') ->
  exists loss,
    reinforce_loss loc' = Some loss /\
    let step := optim_step (policy_optimizer (self h)) (pointer_net (self h))
                           (clip_grad_norm (grad loss PointerNet) (max_grad_norm cfg)) in
    pointer_net (self h') = snd step /\
    policy_optimizer (self h') = fst step.
Proof.
  intros Hrun. unfold minibatch in Hrun.
  apply bind_ok_inv in Hrun as ([] & s1 & H1 & Hrun).
  step_fact H1 (kept self) ltac:(frame). rename Hstep into K1.
  apply bind_ok_inv in Hrun as (z & s2 & H2 & Hrun). apply lift_inv in H2 as [_ ->].
  apply bind_ok_inv in Hrun as (nbv & s3 & H3 & Hrun).
  step_fact H3 (kept self) ltac:(frame). rename Hstep into K3.
  apply bind_ok_inv in Hrun as (loc1 & s4 & H4 & Hrun).
  step_fact H4 (kept self) ltac:(frame). rename Hstep into K4.
  apply bind_ok_inv in Hrun as (probs & s5 & H5 & Hrun).
  apply bound_ok_inv in H5 as [_ ->].
  apply bind_ok_inv in Hrun as (probs0 & s6 & H6 & Hrun). apply lift_inv in H6 as [_ ->].
  apply bind_ok_inv in Hrun as ([] & s7 & H7 & Hrun).
  step_fact H7 (kept self) ltac:(frame). rename Hstep into K7.
  apply bind_ok_inv in Hrun as (adv & s8 & H8 & Hrun).
  step_fact H8 (kept self) ltac:(frame). rename Hstep into K8.
  apply bind_ok_inv in Hrun as (neg_adv & s9 & H9 & Hrun).
  apply bound_ok_inv in H9 as [_ ->].
  apply bind_ok_inv in Hrun as (lps & s10 & H10 & Hrun).
  apply bound_ok_inv in H10 as [_ ->].
  apply bind_ok_inv in Hrun as (prod & s11 & H11 & Hrun). apply lift_inv in H11 as [_ ->].
  cbv zeta in Hrun.
  assert (Hself : self s8 = self h) by (unfold kept in *; congruence).
  apply bind_inv in Hrun as [([] & s12 & Hz & Hrun)|(e & _ & He)]; [|discriminate].
  apply bind_inv in Hrun as [([] & s13 & Hbw & Hrun)|(e & _ & He)]; [|discriminate].
  apply bind_inv in Hrun as [([] & s14 & Hc & Hrun)|(e & _ & He)]; [|discriminate].
  apply bind_inv in Hrun as [([] & s15 & Hs & Hrun)|(e & _ & He)]; [|discriminate].
  assert (Hupd : (zero_grad PointerNet ;;; loss_backward (Torch.mean prod) ;;;
                  clip PointerNet (max_grad_norm cfg) ;;; policy_optimizer_step) s8
                 = (Ok tt, s15)).
  { rewrite (bind_run _ _ _ _ _ Hz), (bind_run _ _ _ _ _ Hbw), (bind_run _ _ _ _ _ Hc).
    exact Hs. }
  apply policy_update_run in Hupd as (Hnet & Hopt & _).
  apply bind_ok_inv in Hrun as (closs & s16 & Hcr & Hrun).
  apply ret_inv in Hrun as [Hloc ->].
  injection Hloc as ->. simpl.
  exists (Torch.mean prod). split; [reflexivity|].
  rewrite <- Hself, <- Hnet, <- Hopt.
  split.
  - step_fact Hcr (kept (fun x => pointer_net (self x))) ltac:(frame). exact Hstep.
  - step_fact Hcr (kept (fun x => policy_optimizer (self x))) ltac:(frame). exact Hstep.
Qed.

End Schedule.

(** ** Construction *)

Section Construction.

Context `{Collaborators}.

Lemma init_ok (args : InitArgs) cfg a :
  __init__ args = Ok (cfg, a) ->
  normalize cfg = arg_normalize args /\
  pointer_net a = arg_pointer_net args /\
  hrl a = None /\
  (mean_std a = if arg_normalize args
                then Some (rms_new (embedding_dim (arg_pointer_net args)))
                else None) /\
  optimizer_class cfg = match arg_optimizer_class args with
                        | inl name => optim_attr name
                        | inr _ => None
                        end.
Proof.
  unfold __init__.
  destruct (arg_optimizer_class args) as [name|c].
  - destruct (optim_attr name) as [c|]; [|discriminate].
    intros Hr. injection Hr as <- <-. simpl. auto.
  - intros Hr. injection Hr as <- <-. simpl. auto.
Qed.

(** X18. [HRLReinforceAlg.__init__] builds a trainer exactly when the
    optimizer is given by a name that [torch.optim] has.  Given as an
    optimizer class, which [ReinforceBaselineAlg.__init__] accepts, it
    raises [AttributeError]: the attribute [optimizer_class] that it
    reads is only set from a name. *)
Theorem hierarchical_trainer_needs_an_optimizer_name hargs (args : InitArgs) :
  ((exists cfg a, HRL__init__ hargs args = Ok (cfg, a)) <->
   (exists name c, arg_optimizer_class args = inl name /\ optim_attr name = Some c)) /\
  (forall c, arg_optimizer_class args = inr c ->
             (exists cfg a, __init__ args = Ok (cfg, a)) /\
             HRL__init__ hargs args = Raise (AttributeError "optimizer_class")).
Proof.
  split; [split|].
  - intros (cfg & a & Hr). unfold HRL__init__ in Hr.
    destruct (__init__ args) as [[cfg0 a0]|e] eqn:Hi; [|discriminate].
    apply init_ok in Hi as (_ & _ & _ & _ & Hc).
    destruct (optimizer_class cfg0) as [c|] eqn:Ho; [|discriminate].
    destruct (arg_optimizer_class args) as [name|c']; [|discriminate].
    exists name, c. split; [reflexivity|]. congruence.
  - intros (name & c & Ha & Ho). unfold HRL__init__, __init__.
    rewrite Ha, Ho. simpl. eauto.
  - intros c Ha. unfold HRL__init__, __init__. rewrite Ha. simpl. eauto.
Qed.

(** X19. On a trainer as [ReinforceBaselineAlg.__init__] builds it,
    [save_checkpoint] always succeeds: it records one checkpoint and
    changes nothing else.  The checkpoint holds the pointer network
    given to the constructor, and the mean of the running statistics
    exactly when feature normalisation is on. *)
Theorem checkpoint_of_a_new_trainer (args : InitArgs) cfg a epoch (events : list event) :
  __init__ args = Ok (cfg, a) ->
  save_checkpoint cfg epoch {| self := a; sink := events |}
  = (Ok tt, {| self := a;
               sink := events ++ [SaveItrParams epoch (checkpoint_of cfg a)] |}) /\
  dict_get (checkpoint_of cfg a) "pointer_net" = Ok (Weights (arg_pointer_net args)) /\
  (In "mean"%string (keys (checkpoint_of cfg a)) <-> arg_normalize args = true).
Proof.
  intros Hi. apply init_ok in Hi as (Hn & Hp & Hh & Hm & _).
  unfold save_checkpoint, with_normalizer, checkpoint_of, attr_opt, attr, emit, bind,
    gets, modify, bound, ret.
  simpl. rewrite ?Hn, ?Hh, ?Hm, ?Hp.
  destruct (arg_normalize args); simpl; rewrite ?Hp, ?Hm; simpl.
  - split; [reflexivity|]. split; [reflexivity|]. intuition.
  - split; [reflexivity|]. split; [reflexivity|].
    split; [intros [Hk|[]]; discriminate|discriminate].
Qed.

End Construction.

(** ** Statistics of an evaluation *)

Section Evaluation.

Context `{Collaborators}.

Lemma vstack_rows_ok (rows : list (list R)) (a : ndarray) :
  vstack_rows rows = Ok a -> a = rows /\ stackable rows.
Proof.
  unfold vstack_rows, stackable. destruct rows as [|row rest]; [discriminate|].
  destruct (forallb _ rest) eqn:Hall; [|discriminate].
  intros Hr. injection Hr as <-. split; [reflexivity|]. split; [discriminate|].
  rewrite forallb_forall in Hall.
  assert (Hlen : forall r, In r (row :: rest) -> List.length r = List.length row).
  { intros r [<-|Hin]; [reflexivity|].
    specialize (Hall r Hin). apply Z.eqb_eq in Hall. unfold len in Hall. lia. }
  intros r r' Hr Hr'. rewrite (Hlen r Hr), (Hlen r' Hr'). reflexivity.
Qed.

Lemma vstack_rows_stackable (rows : list (list R)) :
  stackable rows -> vstack_rows rows = Ok rows.
Proof.
  unfold vstack_rows, stackable. intros [Hne Hlen].
  destruct rows as [|row rest]; [contradiction|].
  replace (forallb (fun r => len r =? len row) rest) with true; [reflexivity|].
  apply eq_sym, forallb_forall. intros r Hr. apply Z.eqb_eq. unfold len.
  rewrite (Hlen r row); [reflexivity|right; assumption|left; reflexivity].
Qed.

(** X21. [log_evaluate_stats] returns statistics exactly when there is
    at least one evaluation result and, for each of the solving time,
    the number of nodes, the primal-dual integral and the primal-dual
    gap, the values of all results have one length; otherwise it raises
    (on an empty list of results in particular). *)
Theorem evaluate_stats_defined (reward_type : string) (rs : list EvaluateResult) :
  (exists stats, log_evaluate_stats reward_type rs = Ok stats) <->
  stackable (map ev_neg_solving_time rs) /\
  stackable (map ev_neg_total_nodes rs) /\
  stackable (map ev_primaldualintegral rs) /\
  stackable (map ev_primal_dual_gap rs).
Proof.
  unfold log_evaluate_stats. split.
  - intros [stats Hr].
    destruct (vstack_rows (map ev_neg_solving_time rs)) eqn:H1; [|discriminate].
    destruct (vstack_rows (map ev_neg_total_nodes rs)) eqn:H2; [|discriminate].
    destruct (vstack_rows (map ev_primaldualintegral rs)) eqn:H3; [|discriminate].
    destruct (vstack_rows (map ev_primal_dual_gap rs)) eqn:H4; [|discriminate].
    apply vstack_rows_ok in H1, H2, H3, H4. tauto.
  - intros (H1 & H2 & H3 & H4).
    rewrite !vstack_rows_stackable by assumption. simpl.
    destruct (reward_type =? "lp_solution_value")%string; eauto.
Qed.

(** X22. The keys of the statistics that [log_evaluate_stats] returns
    are those of the four summaries it merges, and those of the summary
    of the LP solution values exactly when the reward type is
    'lp_solution_value' (or when they are keys of the other summaries). *)
Theorem evaluate_stats_keys (reward_type : string) (rs : list EvaluateResult) stats :
  log_evaluate_stats reward_type rs = Ok stats ->
  forall k,
    In k (keys stats) <->
    In k (keys (create_stats_ordered_dict "evaluating/Neg Solving time"
                  (List.concat (map ev_neg_solving_time rs)))) \/
    In k (keys (create_stats_ordered_dict "evaluating/Neg Total Nodes"
                  (List.concat (map ev_neg_total_nodes rs)))) \/
    In k (keys (create_stats_ordered_dict "evaluating/PrimalDualIntegral"
                  (List.concat (map ev_primaldualintegral rs)))) \/
    In k (keys (create_stats_ordered_dict "evaluating/primal_dual_gap"
                  (List.concat (map ev_primal_dual_gap rs)))) \/
    (reward_type = "lp_solution_value"%string /\
     In k (keys (create_stats_ordered_dict "evaluating/lp_solution_value"
                   (flat_map ev_lp_solution_value rs)))).
Proof.
  unfold log_evaluate_stats. intros Hr k.
  destruct (vstack_rows (map ev_neg_solving_time rs)) eqn:H1; [|discriminate].
  destruct (vstack_rows (map ev_neg_total_nodes rs)) eqn:H2; [|discriminate].
  destruct (vstack_rows (map ev_primaldualintegral rs)) eqn:H3; [|discriminate].
  destruct (vstack_rows (map ev_primal_dual_gap rs)) eqn:H4; [|discriminate].
  apply vstack_rows_ok in H1 as [-> _], H2 as [-> _], H3 as [-> _], H4 as [-> _].
  simpl in Hr. unfold flat in Hr.
  rewrite fold_app_flat_map in Hr. simpl in Hr.
  destruct (String.eqb_spec reward_type "lp_solution_value") as [->|Hne];
    injection Hr as <-; rewrite !in_keys_dict_update; simpl; intuition.
Qed.

End Evaluation.

(** ** Updates of the high-level policy *)

Section HighLevel.

Context `{Collaborators}.

#[local] Hint Resolve hrl_assign_keeps_epoch hrl_assign_keeps_ema : frame.
#[local] Hint Extern 1 (forall hr : HRL, _ = _) => intro; reflexivity : frame.

Lemma no_rewards (ds : list HighLevelDataset) :
  Forall (fun d => hl_neg_reward d = []) ds -> flat_map hl_neg_reward ds = [].
Proof.
  induction 1 as [|d ds Hd _ IH]; simpl; [reflexivity|]. rewrite Hd, IH. reflexivity.
Qed.

(** X23. On an epoch that is a multiple of the frequency, a call of
    [train_highlevel_policy] whose episodes hold no high-level sample
    raises [ValueError] when the rewards are stacked: nothing is sent to
    the logger, no update is made and the counter of high-level updates
    stays as it was. *)
Theorem highlevel_update_without_samples cfg raw epoch h hr ds :
  hrl (self h) = Some hr ->
  train_highlevel_policy_freq hr <> 0 ->
  epoch mod train_highlevel_policy_freq hr = 0 ->
  highlevel_datasets raw = Ok ds ->
  Forall (fun d => hl_neg_reward d = []) ds ->
  let out := train_highlevel_policy cfg raw epoch h in
  fst out = Raise (ValueError "need at least one array to concatenate") /\
  hl_epoch_of (snd out) = Some (train_highlevel_epoch hr) /\
  sink (snd out) = sink h.
Proof.
  intros Hhr Hfreq Hmod Hds Hempty. simpl.
  unfold train_highlevel_policy.
  rewrite (bind_run _ _ _ _ _ (hrl_attr_run _ _ _ Hhr)).
  rewrite (bind_run _ _ h h (epoch mod train_highlevel_policy_freq hr)).
  2:{ unfold lift, mod_.
      destruct (Z.eqb_spec (train_highlevel_policy_freq hr) 0); [contradiction|reflexivity]. }
  rewrite Hmod. simpl.
  destruct (_update_highlevel_dataset raw h) as [r h1] eqn:Hu.
  destruct (update_highlevel_dataset_run _ _ _ _ _ Hhr Hu) as (Hr & He1 & Hs1).
  rewrite Hds in Hr. destruct Hr as [-> Hb1].
  rewrite (bind_run _ _ _ _ _ Hu).
  unfold buffer_of in Hb1.
  destruct (hrl (self h1)) as [hr1|] eqn:Hhr1; [|discriminate].
  simpl in Hb1. injection Hb1 as Hb1.
  assert (Ht : _train_highlevel cfg h1
               = (Raise (ValueError "need at least one array to concatenate"), h1)).
  { unfold _train_highlevel.
    rewrite (bind_run _ _ _ _ _ (hrl_attr_run _ _ _ Hhr1)).
    unfold highlevel_rewards. rewrite Hb1. unfold extended. simpl.
    rewrite no_rewards by assumption. reflexivity. }
  rewrite (bind_raise _ _ _ _ _ Ht). simpl.
  split; [reflexivity|]. split; [|assumption].
  rewrite He1. unfold hl_epoch_of. rewrite Hhr. reflexivity.
Qed.

(** X24. A call of [train_highlevel_policy] that raises leaves the
    counter of high-level updates as it was: the counter goes up only
    when the update has been completed. *)
Theorem failed_highlevel_update_keeps_the_counter cfg raw epoch h e :
  fst (train_highlevel_policy cfg raw epoch h) = Raise e ->
  hl_epoch_of (snd (train_highlevel_policy cfg raw epoch h)) = hl_epoch_of h.
Proof.
  destruct (train_highlevel_policy cfg raw epoch h) as [r h'] eqn:Hrun. simpl.
  intros ->. unfold train_highlevel_policy in Hrun.
  apply bind_inv in Hrun as [(freq & s1 & H1 & Hrun)|(e1 & H1 & _)].
  2:{ step_fact H1 (kept hl_epoch_of) ltac:(frame). exact Hstep. }
  step_fact H1 (kept hl_epoch_of) ltac:(frame). rename Hstep into K1.
  apply bind_inv in Hrun as [(m & s2 & H2 & Hrun)|(e2 & H2 & _)];
    apply lift_inv in H2 as [_ ->]; [|exact K1].
  destruct (m =? 0); [|apply ret_inv in Hrun as [Hr _]; discriminate].
  apply bind_inv in Hrun as [([] & s3 & H3 & Hrun)|(e3 & H3 & _)].
  2:{ step_fact H3 (kept hl_epoch_of) ltac:(frame). unfold kept in *. congruence. }
  step_fact H3 (kept hl_epoch_of) ltac:(frame). rename Hstep into K3.
  apply bind_inv in Hrun as [(stats & s4 & H4 & Hrun)|(e4 & H4 & _)].
  2:{ pose proof (train_highlevel_keeps_epoch cfg _ _ _ H4). unfold kept in *. congruence. }
  pose proof (train_highlevel_keeps_epoch cfg _ _ _ H4) as K4.
  apply bind_inv in Hrun as [(n & s5 & H5 & Hrun)|(e5 & H5 & _)].
  2:{ step_fact H5 (kept hl_epoch_of) ltac:(frame). unfold kept in *. congruence. }
  exfalso.
  unfold hrl_attr, attr_opt, attr, bind, gets, bound in H5.
  destruct (hrl (self s4)) as [hr4|] eqn:Hhr4; [|discriminate].
  injection H5 as _ <-.
  rewrite (bind_run _ _ _ _ _ (hrl_assign_run _ _ _ Hhr4)) in Hrun.
  match type of Hrun with
  | bind _ _ ?s = _ =>
      rewrite (bind_run _ _ s _ _ (hrl_assign_run _ s (set_train_highlevel_epoch (n + 1) hr4)
                                                  eq_refl)) in Hrun
  end.
  discriminate.
Qed.

(** X25. In the loop over the samples of [_train_highlevel], the
    log-probability of the sample is stored in its row of [logprobs]
    with its value in every case; below -1e5 it is stored detached, as a
    constant of the differentiation, and the warning is sent to the
    logger; otherwise it is stored as it is and nothing is logged.  The
    attributes of the trainer are left as they were. *)
Theorem highlevel_sample_clamp states actions bs i st j h st' h' :
  hl_sample_step states actions bs i st j h = (Ok st', h') ->
  exists state action lps hr,
    index states (i * bs + j) = Ok state /\
    index actions (i * bs + j) = Ok action /\
    logprobs (fst st) = Some lps /\
    hrl (self h) = Some hr /\
    let out := percent_log_prob (cutsel_percent_policy hr) state action in
    let logprob := output PercentNet (fst out) in
    let stored := stored_logprob (-100000) logprob in
    let warning :=
      Log [Text "warning: high level policy logprob too small, we detach it to drop it!!!"] in
    logprobs (fst st') = Some (set_row j stored lps) /\
    item stored = item logprob /\
    (if Rltb (item logprob) (-100000) then constant stored else stored = logprob) /\
    sink h' = sink h ++ (if Rltb (item logprob) (-100000) then [warning] else []) /\
    self h' = self h.
Proof.
  intros Hrun. unfold hl_sample_step in Hrun.
  apply bind_ok_inv in Hrun as (state & s1 & H1 & Hrun). apply lift_inv in H1 as [H1 ->].
  apply bind_ok_inv in Hrun as (action & s2 & H2 & Hrun). apply lift_inv in H2 as [H2 ->].
  apply bind_ok_inv in Hrun as (net & s3 & H3 & Hrun).
  unfold hrl_attr, attr_opt, attr, bind, gets, bound in H3.
  destruct (hrl (self h)) as [hr|] eqn:Hhr; [|discriminate].
  injection H3 as <- <-.
  cbv zeta in Hrun.
  apply bind_ok_inv in Hrun as (lps & s4 & H4 & Hrun).
  apply bound_ok_inv in H4 as [H4 ->].
  apply bind_ok_inv in Hrun as ([] & s5 & H5 & Hrun).
  apply bind_ok_inv in Hrun as (infos & s6 & H6 & Hrun).
  step_fact H6 (kept (fun x : Heap => x)) ltac:(frame). unfold kept in Hstep. subst s6.
  apply ret_inv in Hrun as [Hst ->]. injection Hst as ->. simpl.
  exists state, action, lps, hr.
  repeat (split; [assumption|]).
  unfold stored_logprob, when in *. simpl in *.
  destruct (Rltb _ _); run_inv; subst; simpl; rewrite ?app_nil_r;
    repeat split; intros n k; reflexivity.
Qed.

End HighLevel.

(** ** Degenerate batches *)

Section Degenerate.

Context `{Collaborators}.

Lemma foldM_invariant_state {S X A} (P : A -> Prop) (Q : S -> Prop)
      (body : A -> X -> M S A) xs :
  (forall a x s r s', Q s -> body a x s = (r, s') -> Q s') ->
  (forall a x s a' s', P a -> Q s -> body a x s = (Ok a', s') -> P a') ->
  forall a s a' s', P a -> Q s -> foldM body xs a s = (Ok a', s') -> P a'.
Proof.
  intros HQ HP. induction xs as [|x xs IH]; intros a s a' s' Ha Hs Hrun; simpl in Hrun.
  - apply ret_inv in Hrun as [Hr _]. injection Hr as <-. exact Ha.
  - apply bind_ok_inv in Hrun as (a1 & s1 & H1 & Hrun).
    eapply IH; [| |exact Hrun]; eauto.
Qed.

Lemma without_grad_sum (ts : list Tensor) :
  Forall without_grad ts -> without_grad (Torch.sum ts).
Proof.
  unfold without_grad. induction 1 as [|t ts Ht _ IH]; simpl; [reflexivity|].
  rewrite Ht, IH. reflexivity.
Qed.

Lemma without_grad_mean (t : Tensor2) :
  Forall (Forall without_grad) t -> without_grad (Torch.mean t).
Proof.
  intros Ht. unfold Torch.mean, without_grad, div_const. simpl.
  apply without_grad_sum.
  apply Forall_forall. intros x Hx. apply in_concat in Hx as (row & Hrow & Hx).
  rewrite Forall_forall in Ht. specialize (Ht row Hrow).
  rewrite Forall_forall in Ht. auto.
Qed.

Lemma without_grad_from_numpy (a : ndarray) :
  Forall (Forall without_grad) (from_numpy a).
Proof.
  unfold from_numpy. apply Forall_map, Forall_forall. intros row _.
  apply Forall_map, Forall_forall. reflexivity.
Qed.

Lemma without_grad_zeros n z : zeros n = Ok z -> Forall (Forall without_grad) z.
Proof.
  unfold zeros. destruct (n <? 0); [discriminate|]. intros Hz. injection Hz as <-.
  apply Forall_forall. intros row Hrow. apply repeat_spec in Hrow. subst row.
  constructor; [reflexivity|constructor].
Qed.

(** The rows of [logprobs] do not require grad. *)
Lemma clamped_sample cfg epoch b i loc j s loc' s' w :
  (forall state sel action,
      (fst (snd (pointer_logprobs w state sel action)) < -4000)%R) ->
  (forall lps, logprobs loc = Some lps -> Forall (Forall without_grad) lps) ->
  pointer_net (self s) = w ->
  sample_step cfg epoch b i loc j s = (Ok loc', s') ->
  forall lps, logprobs loc' = Some lps -> Forall (Forall without_grad) lps.
Proof.
  intros Hlow Hloc Hw Hrun.
  unfold sample_step in Hrun.
  apply bind_ok_inv in Hrun as (state & s1 & H1 & Hrun). apply lift_inv in H1 as [_ ->].
  apply bind_ok_inv in Hrun as (action & s2 & H2 & Hrun). apply lift_inv in H2 as [_ ->].
  apply bind_ok_inv in Hrun as (sel & s3 & H3 & Hrun). apply lift_inv in H3 as [_ ->].
  apply bind_ok_inv in Hrun as (net & s4 & H4 & Hrun). apply gets_inv in H4 as [H4 ->].
  injection H4 as ->. cbv beta in Hrun. rewrite Hw in Hrun. cbv zeta in Hrun.
  apply bind_ok_inv in Hrun as (lps0 & s5 & H5 & Hrun).
  apply bound_ok_inv in H5 as [H5 ->].
  run_inv. subst loc'. simpl.
  intros lps Hlps. injection Hlps as <-.
  apply Forall_set_row; [|apply Hloc; assumption].
  unfold stored_logprob.
  rewrite (proj2 (Rltb_lt _ _)) by (simpl; apply Hlow).
  reflexivity.
Qed.

Lemma without_grad_advantage cfg rewards loc s adv s' :
  (forall a, neg_advantage loc = Some a -> Forall (Forall without_grad) a) ->
  advantage cfg (from_numpy rewards) loc s = (Ok (Some adv), s') ->
  Forall (Forall without_grad) adv.
Proof.
  intros Hloc Hrun. unfold advantage in Hrun.
  destruct (baseline_type cfg =? "simple")%string.
  { run_inv. subst.
    eapply (broadcast2_Forall sub without_grad without_grad); [| | |eassumption].
    - apply without_grad_from_numpy.
    - repeat constructor.
    - unfold without_grad. intros t1 t2 Ht1 Ht2. simpl. rewrite Ht1, Ht2. reflexivity. }
  destruct (baseline_type cfg =? "no_baseline")%string.
  { run_inv. subst.
    apply without_grad_from_numpy. }
  destruct (baseline_type cfg =? "net")%string.
  { run_inv. subst.
    eapply (broadcast2_Forall sub without_grad without_grad); [| | |eassumption].
    - apply without_grad_from_numpy.
    - apply Forall_map, Forall_forall. intros row _.
      apply Forall_map, Forall_forall. reflexivity.
    - unfold without_grad. intros t1 t2 Ht1 Ht2. simpl. rewrite Ht1, Ht2. reflexivity. }
  run_inv. apply Hloc. congruence.
Qed.

(** A mini-batch loop whose samples are all below the threshold raises,
    at the latest when [backward] is called on a loss that does not
    require grad, and leaves the pointer network as it was. *)
Lemma clamped_minibatch cfg epoch train_loop b loc i h :
  (forall state sel action,
      (fst (snd (pointer_logprobs (pointer_net (self h)) state sel action)) < -4000)%R) ->
  (forall a, neg_advantage loc = Some a -> Forall (Forall without_grad) a) ->
  forall r h',
    minibatch cfg epoch train_loop b loc i h = (r, h') ->
    (exists e, r = Raise e) /\ pointer_net (self h') = pointer_net (self h).
Proof.
  intros Hlow Hadv r h' Hrun.
  unfold minibatch in Hrun.
  apply bind_inv in Hrun as [([] & s1 & H1 & Hrun)|(e & H1 & ->)].
  2:{ split; [eauto|].
      step_fact H1 (kept (fun x => pointer_net (self x))) ltac:(frame). exact Hstep. }
  step_fact H1 (kept (fun x => pointer_net (self x))) ltac:(frame). rename Hstep into K1.
  apply bind_inv in Hrun as [(z & s2 & H2 & Hrun)|(e & H2 & ->)];
    apply lift_inv in H2 as [H2 ->]; [|split; [eauto|exact K1]].
  apply bind_inv in Hrun as [(nbv & s3 & H3 & Hrun)|(e & H3 & ->)].
  2:{ split; [eauto|].
      step_fact H3 (kept (fun x => pointer_net (self x))) ltac:(frame).
      unfold kept in *; simpl in *; congruence. }
  step_fact H3 (kept (fun x => pointer_net (self x))) ltac:(frame). rename Hstep into K3.
  apply bind_inv in Hrun as [(loc1 & s4 & H4 & Hrun)|(e & H4 & ->)].
  2:{ split; [eauto|].
      step_fact H4 (kept (fun x => pointer_net (self x))) ltac:(frame).
      unfold kept in *; simpl in *; congruence. }
  step_fact H4 (kept (fun x => pointer_net (self x))) ltac:(frame). rename Hstep into K4.
  assert (Hlps : forall lps, logprobs loc1 = Some lps -> Forall (Forall without_grad) lps).
  { refine (foldM_invariant_state
              (fun l => forall lps, logprobs l = Some lps -> Forall (Forall without_grad) lps)
              (fun s => pointer_net (self s) = pointer_net (self h)) _ _ _ _ _ _ _ _ _ _ H4).
    - intros a x s r0 s' Hs Hr.
      step_fact Hr (kept (fun x => pointer_net (self x))) ltac:(frame).
      unfold kept in *; simpl in *; congruence.
    - intros a x s a' s' Ha Hs Hr. eapply clamped_sample; eauto.
    - simpl. intros lps Hl. injection Hl as <-. eapply without_grad_zeros; eauto.
    - unfold kept in *; simpl in *; congruence. }
  apply bind_inv in Hrun as [(probs & s5 & H5 & Hrun)|(e & H5 & ->)].
  2:{ split; [eauto|].
      step_fact H5 (kept (fun x => pointer_net (self x))) ltac:(frame).
      unfold kept in *; simpl in *; congruence. }
  step_fact H5 (kept (fun x => pointer_net (self x))) ltac:(frame). rename Hstep into K5.
  apply bind_inv in Hrun as [(probs0 & s6 & H6 & Hrun)|(e & H6 & ->)];
    apply lift_inv in H6 as [H6 ->].
  2:{ split; [eauto|]. unfold kept in *; simpl in *; congruence. }
  apply bind_inv in Hrun as [([] & s7 & H7 & Hrun)|(e & H7 & ->)].
  2:{ split; [eauto|].
      step_fact H7 (kept (fun x => pointer_net (self x))) ltac:(frame).
      unfold kept in *; simpl in *; congruence. }
  step_fact H7 (kept (fun x => pointer_net (self x))) ltac:(frame). rename Hstep into K7.
  apply bind_inv in Hrun as [(adv & s8 & H8 & Hrun)|(e & H8 & ->)].
  2:{ split; [eauto|].
      step_fact H8 (kept (fun x => pointer_net (self x))) ltac:(frame).
      unfold kept in *; simpl in *; congruence. }
  step_fact H8 (kept (fun x => pointer_net (self x))) ltac:(frame). rename Hstep into K8.
  assert (Hkept : pointer_net (self s8) = pointer_net (self h))
    by (unfold kept in *; simpl in *; congruence).
  apply bind_inv in Hrun as [(neg_adv & s9 & H9 & Hrun)|(e & H9 & ->)].
  2:{ split; [eauto|].
      step_fact H9 (kept (fun x => pointer_net (self x))) ltac:(frame).
      unfold kept in *; simpl in *; congruence. }
  apply bound_ok_inv in H9 as [-> ->].
  apply bind_inv in Hrun as [(lps & s10 & H10 & Hrun)|(e & H10 & ->)].
  2:{ split; [eauto|].
      step_fact H10 (kept (fun x => pointer_net (self x))) ltac:(frame).
      unfold kept in *; simpl in *; congruence. }
  apply bound_ok_inv in H10 as [H10 ->].
  apply bind_inv in Hrun as [(prod & s11 & H11 & Hrun)|(e & H11 & ->)];
    apply lift_inv in H11 as [H11 ->]; [|split; [eauto|exact Hkept]].
  cbv zeta in Hrun.
  assert (Hsame : neg_advantage loc1 = neg_advantage loc).
  { eapply (foldM_invariant (fun l => neg_advantage l = neg_advantage loc))
      with (3 := H4); [|reflexivity].
    intros a x s a' s' Ha Hr. unfold sample_step in Hr. run_inv. subst a'. exact Ha. }
  assert (Hloss : without_grad (Torch.mean prod)).
  { apply without_grad_mean.
    eapply (broadcast2_Forall mul without_grad without_grad); [| | |exact H11].
    - eapply without_grad_advantage; [|exact H8]. rewrite Hsame. exact Hadv.
    - apply Hlps. assumption.
    - unfold without_grad. intros t1 t2 Ht1 Ht2. simpl. rewrite Ht1, Ht2. reflexivity. }
  apply bind_inv in Hrun as [([] & s12 & Hz & Hrun)|(e & Hz & ->)].
  2:{ split; [eauto|].
      step_fact Hz (kept (fun x => pointer_net (self x))) ltac:(frame).
      unfold kept in *; simpl in *; congruence. }
  step_fact Hz (kept (fun x => pointer_net (self x))) ltac:(frame). rename Hstep into Kz.
  apply bind_inv in Hrun as [([] & s13 & Hb & Hrun)|(e & Hb & ->)].
  - exfalso. unfold loss_backward, backward in Hb.
    rewrite Hloss in Hb. discriminate.
  - split; [eauto|].
    step_fact Hb (kept (fun x => pointer_net (self x))) ltac:(frame).
    unfold kept in *; simpl in *; congruence.
Qed.

(** X26. When the pointer network gives every sample a log-probability
    below -4000, every row of [logprobs] is stored detached and the
    REINFORCE loss of the first mini-batch does not require grad: the
    call of [train] raises, at the latest when [backward] is called on
    this loss, and the pointer network is not updated. *)
Theorem train_raises_when_every_sample_is_clamped cfg raw epoch h :
  (forall state sel action,
      (fst (snd (pointer_logprobs (pointer_net (self h)) state sel action)) < -4000)%R) ->
  (exists e, fst (train cfg raw epoch h) = Raise e) /\
  pointer_net (self (snd (train cfg raw epoch h))) = pointer_net (self h).
Proof.
  intros Hlow.
  destruct (train cfg raw epoch h) as [r h'] eqn:Hrun. simpl.
  unfold train in Hrun.
  apply bind_inv in Hrun as [(b & s1 & H1 & Hrun)|(e & H1 & ->)].
  2:{ split; [eauto|].
      step_fact H1 (kept (fun x => pointer_net (self x))) ltac:(frame). exact Hstep. }
  step_fact H1 (kept (fun x => pointer_net (self x))) ltac:(frame). rename Hstep into K1.
  apply bind_inv in Hrun as [(loops & s2 & H2 & Hrun)|(e & H2 & ->)];
    apply lift_inv in H2 as [H2 ->]; [|split; [eauto|exact K1]].
  apply bind_inv in Hrun as [([] & s3 & H3 & Hrun)|(e & H3 & ->)].
  2:{ split; [eauto|].
      step_fact H3 (kept (fun x => pointer_net (self x))) ltac:(frame).
      unfold kept in *; simpl in *; congruence. }
  step_fact H3 (kept (fun x => pointer_net (self x))) ltac:(frame). rename Hstep into K3.
  assert (Hw : pointer_net (self s3) = pointer_net (self h))
    by (unfold kept in *; simpl in *; congruence).
  destruct (range loops) as [|i rest] eqn:Hrange.
  - simpl in Hrun. unfold bind at 1, ret at 1 in Hrun.
    step_fact Hrun (kept (fun x => pointer_net (self x))) ltac:(frame).
    split; [|unfold kept in *; simpl in *; congruence].
    destruct r as [[]|e]; [exfalso|eauto].
    apply bind_ok_inv in Hrun as ([] & s5 & _ & Hrun).
    apply bind_ok_inv in Hrun as ([] & s6 & _ & Hrun).
    unfold report in Hrun. run_inv. discriminate.
  - simpl in Hrun.
    apply bind_inv in Hrun as [(loc & s4 & H4 & Hrun)|(e & H4 & ->)].
    + exfalso. apply bind_ok_inv in H4 as (loc1 & s5 & H5 & _).
      eapply clamped_minibatch in H5 as [[e He] _]; [discriminate| |].
      * rewrite Hw. exact Hlow.
      * discriminate.
    + apply bind_inv in H4 as [(loc1 & s5 & H5 & _)|(e1 & H5 & _)];
        eapply clamped_minibatch in H5 as [[e2 He] Hp];
        try discriminate; try (rewrite Hw; exact Hlow).
      split; [eauto|]. congruence.
Qed.

(** X27. With the 'simple' baseline and reward normalisation on, the
    rewards that enter the moving average have mean zero: a call of
    [train] sets the average to zero at epoch 1 and multiplies it by
    [critic_beta] at every other epoch, whatever the rewards are. *)
Theorem moving_average_of_normalized_rewards cfg raw epoch h b h1 ema :
  baseline_type cfg = "simple"%string ->
  normalize_reward cfg = true ->
  0 < batch_size cfg ->
  ema_of h = Some ema ->
  _process_data cfg raw h = (Ok b, h1) ->
  ema_of (snd (train cfg raw epoch h))
  = Some (if epoch =? 1 then 0 else ema * critic_beta cfg)%R.
Proof.
  intros Hb Hn Hbs He Hp.
  assert (Hmean : Np.mean (b_neg_rewards b) = 0%R).
  { pose proof Hp as Hq. unfold _process_data in Hq. rewrite Hn in Hq.
    apply bind_ok_inv in Hq as (rewards & s1 & _ & Hq).
    apply bind_ok_inv in Hq as (rewards' & s2 & H2 & Hq).
    assert (Hr : rewards' = center_scale (Np.scale (reward_scale cfg) rewards)
                              (Np.mean (Np.scale (reward_scale cfg) rewards))
                              (Np.std (Np.scale (reward_scale cfg) rewards) + 1 / 1000)%R)
      by (run_inv; congruence).
    assert (Hbr : b_neg_rewards b = rewards').
    { apply bind_ok_inv in Hq as (first & s3 & _ & Hq).
      apply bind_ok_inv in Hq as (infos & s4 & _ & Hq).
      destruct (normalize cfg); run_inv; subst b; reflexivity. }
    rewrite Hbr, Hr. apply mean_center_scale. }
  assert (He1 : ema_of h1 = Some ema).
  { step_fact Hp (kept ema_of) ltac:(frame). congruence. }
  unfold train. rewrite (bind_run _ _ _ _ _ Hp).
  rewrite (bind_run _ _ h1 h1 (if len (b_states b) <? batch_size cfg then 1
                               else ceil_div (len (b_states b)) (batch_size cfg))).
  2:{ unfold lift. rewrite train_loop_of_pos by (auto using len_nonneg). reflexivity. }
  rewrite (bind_run _ _ _ _ _ (update_baseline_simple _ _ _ _ _ Hb He1)).
  match goal with |- ema_of (snd (?m ?s)) = _ =>
    destruct (m s) as [r h'] eqn:Hr end.
  step_fact Hr (kept ema_of) ltac:(frame). unfold kept in Hstep.
  simpl. rewrite Hstep. unfold ema_of. simpl. rewrite Hmean.
  destruct (epoch =? 1); f_equal; ring.
Qed.

End Degenerate.

(** ** Runs of the toy trainer *)

Section MoreRuns.

#[local] Existing Instance Demo.toy.
Local Open Scope R_scope.

Create HintDb toy_run.

#[local] Hint Unfold train _process_data update_baseline minibatch sample_step
  advantage critic_update zero_grad loss_backward clip policy_optimizer_step
  value_optimizer_step lr_update self_save_checkpoint save_checkpoint
  HRL_save_checkpoint with_normalizer report extend_infos _train_highlevel
  hl_minibatch hl_sample_step append_infos highlevel_stats update_highlevel_baseline
  percent_optimizer_step _update_highlevel_dataset extend_buffer
  train_highlevel_policy hrl_attr hrl_assign attr_opt attr assign emit
  stored_logprob bind lift ret gets modify bound when raise : toy_run.

(** Evaluates a run of the toy trainer, deciding the comparisons of
    real numbers it meets. *)
Ltac evaluate_toy :=
  repeat (autounfold with toy_run; cbn;
          try match goal with
              | |- context [Rltb ?x ?y] =>
                  first [rewrite (Rltb_true x y) by lra
                        |rewrite (Rltb_false x y) by lra]
              | |- context [Pos.to_nat ?p] =>
                  let n := eval vm_compute in (Pos.to_nat p) in
                  change (Pos.to_nat p) with n
              end).

(** A whole call of [train] with a decaying learning rate. *)
Lemma toy_train_decaying :
  exists h',
    train (Demo.decaying "simple" 32) [Demo.episode Demo.single] 1 (Demo.fresh "simple")
    = (Ok tt, h').
Proof.
  eexists. evaluate_toy. reflexivity.
Qed.

(** A mini-batch loop with the 'simple' baseline. *)
Lemma toy_minibatch_simple :
  exists loc' h',
    minibatch (Demo.config "simple") 1 1 Demo.one unbound 0 (Demo.averaging 3)
    = (Ok loc', h').
Proof.
  eexists. eexists. evaluate_toy. reflexivity.
Qed.

(** A sample of the high-level policy, of log-probability -1. *)
Lemma toy_hl_sample_step :
  exists st' h',
    hl_sample_step [[[1]]] [1 / 2] 32 0
      ({| pointer_probs := None; logprobs := Some [[const 0]];
          neg_baseline_value := None; neg_advantage := None;
          reinforce_loss := None; critic_loss := None |}, []) 0
      (Demo.hrl_fresh "simple")
    = (Ok st', h').
Proof.
  eexists. eexists. evaluate_toy. reflexivity.
Qed.

(** *** Witnesses *)

(** X2 on the uniform distribution over two positions. *)
Lemma entropy_bounds_witness :
  0 <= _compute_sm_entropy [1 / 2; 1 / 2] <= ln (IZR (len [1 / 2; 1 / 2])).
Proof.
  apply entropy_bounds.
  - simpl. lia.
  - repeat constructor; lra.
  - unfold total. simpl. lra.
Defined.

(** X3 on two episodes: the second has one more metric, which is left
    out. *)
Lemma process_env_info_gathers_witness :
  _process_env_info [[("time"%string, [1])];
                     [("time"%string, [2]); ("nodes"%string, [7])]]
  = Ok [("time"%string, [1; 2])].
Proof.
  refine (process_env_info_gathers
            [("time"%string, [1])] [[("time"%string, [2]); ("nodes"%string, [7])]] _ _).
  - constructor; [simpl; tauto|constructor].
  - constructor; [|constructor]. intros k [<-|[]]. simpl. auto.
Defined.

(** X5 on two episodes with their solving times. *)
Lemma step_infos_agree_witness :
  exists b h',
    _process_data (Demo.config "simple") [Demo.timed 1; Demo.timed 2] (Demo.fresh "simple")
    = (Ok b, h') /\
    _process_env_info (map env_step_info [Demo.timed 1; Demo.timed 2])
    = Ok (b_step_infos b) /\
    b_step_infos b = [("solving_time"%string, [1; 2])].
Proof.
  eexists. eexists. split; [reflexivity|]. split; [|reflexivity].
  refine (step_infos_agree (Demo.config "simple") [Demo.timed 1; Demo.timed 2]
                           (Demo.fresh "simple") _ _ _ _ eq_refl).
  - repeat constructor; simpl; tauto.
  - intros r r' k [<-|[<-|[]]] [<-|[<-|[]]]; simpl; auto.
Defined.

(** X6 on two samples of one episode. *)
Lemma aggregation_in_episode_order_witness :
  exists b h',
    _process_data (Demo.config "simple") [Demo.episode Demo.uneven] (Demo.fresh "simple")
    = (Ok b, h') /\
    b_actions b = [[0; 1]; [1]]%Z /\
    b_sel_cuts_nums b = [1; 1]%Z /\
    b_states b = [[[1; 2]]; [[3; 4]]] /\
    self h' = Demo.attrs "simple".
Proof.
  eexists. eexists. split; [reflexivity|].
  destruct (aggregation_in_episode_order
              (Demo.config "simple") [Demo.episode Demo.uneven] (Demo.fresh "simple")
              _ _ eq_refl) as (Ha & Hs & Hn).
  destruct (Hn eq_refl) as [Hst Hself].
  repeat split; assumption.
Defined.

(** X7 on one sample. *)
Lemma states_normalized_after_update_witness :
  exists b h',
    _process_data (Demo.featured "simple") [Demo.episode Demo.single]
                  (Demo.measured "simple")
    = (Ok b, h') /\
    exists ms,
      mean_std (self (Demo.measured "simple")) = Some ms /\
      mean_std (self h') = Some (rms_update ms [[1]]) /\
      collect (map (_normalize_state (rms_update ms [[1]])) [[[1]]]) = Ok (b_states b).
Proof.
  eexists. eexists. split; [evaluate_toy; reflexivity|].
  exact (states_normalized_after_update
           (Demo.featured "simple") [Demo.episode Demo.single] (Demo.measured "simple")
           _ _ eq_refl eq_refl).
Defined.

(** X8 on a state of one cut and one feature. *)
Lemma normalize_state_rows_witness :
  _normalize_state tt [[3]] = Ok [[(3 - 0) / (1 + 0)]].
Proof.
  refine (normalize_state_rows tt [[3]] eq_refl _).
  repeat constructor.
Defined.

(** X9 on the trainer built without a baseline. *)
Lemma train_raises_without_simple_baseline_witness :
  let out := train (Demo.config "no_baseline") [Demo.episode Demo.single] 1
                   (Demo.fresh "no_baseline") in
  (exists e, fst out = Raise e) /\ ema_of (snd out) = None.
Proof.
  refine (train_raises_without_simple_baseline
            (Demo.config "no_baseline") [Demo.episode Demo.single] 1
            (Demo.fresh "no_baseline") _ eq_refl).
  discriminate.
Defined.

(** X10 on an episode without samples. *)
Lemma train_without_samples_witness :
  train (Demo.config "simple") [Demo.idle] 1 (Demo.fresh "simple")
  = (Raise (ValueError "need at least one array to concatenate"), Demo.fresh "simple").
Proof.
  refine (train_without_samples (Demo.config "simple") [Demo.idle] 1
                                (Demo.fresh "simple") _).
  repeat constructor.
Defined.

(** X11 on one sample. *)
Lemma train_with_batch_size_zero_witness :
  train (Demo.decaying "simple" 0) [Demo.episode Demo.single] 1 (Demo.fresh "simple")
  = (Raise ZeroDivisionError, Demo.fresh "simple").
Proof.
  exact (train_with_batch_size_zero
           (Demo.decaying "simple" 0) [Demo.episode Demo.single] 1 (Demo.fresh "simple")
           Demo.one (Demo.fresh "simple") eq_refl eq_refl).
Defined.

(** X14 with the 'simple' baseline. *)
Lemma value_network_trained_with_net_baseline_only_witness :
  let h' := snd (train (Demo.config "simple") [Demo.episode Demo.single] 1
                       (Demo.fresh "simple")) in
  value_net (self h') = 0 /\ value_optimizer (self h') = None.
Proof.
  refine (value_network_trained_with_net_baseline_only
            (Demo.config "simple") [Demo.episode Demo.single] 1 (Demo.fresh "simple") _).
  discriminate.
Defined.

(** X15 on a moving average of 2 and rewards of mean 5, at epoch 2. *)
Lemma moving_average_between_witness :
  exists ema',
    ema_of (snd (update_baseline (Demo.config "simple") [[4]; [5]; [6]] 2
                                 (Demo.averaging 2))) = Some ema' /\
    Rmin 2 (Np.mean [[4]; [5]; [6]]) <= ema' <= Rmax 2 (Np.mean [[4]; [5]; [6]]).
Proof.
  refine (moving_average_between (Demo.config "simple") [[4]; [5]; [6]] 2
                                 (Demo.averaging 2) 2 eq_refl _ eq_refl).
  simpl. lra.
Defined.

(** X16 on five samples in batches of two. *)
Lemma minibatch_rows_partition_witness :
  List.concat (map (minibatch_rows [[1]; [2]; [3]; [4]; [5]] 2 3) (range 3))
  = [[1]; [2]; [3]; [4]; [5]] /\
  map (fun i => len (minibatch_rows [[1]; [2]; [3]; [4]; [5]] 2 3 i)) (range 3)
  = minibatch_sizes (repeat tt 5) 2 3.
Proof.
  exact (minibatch_rows_partition (repeat tt 5%nat) [[1]; [2]; [3]; [4]; [5]] 2
                                  eq_refl eq_refl).
Defined.

(** X17 on a call with a decaying learning rate. *)
Lemma one_schedule_step_per_call_witness :
  exists h',
    train (Demo.decaying "simple" 32) [Demo.episode Demo.single] 1 (Demo.fresh "simple")
    = (Ok tt, h') /\
    exists b h1 loops,
      _process_data (Demo.decaying "simple" 32) [Demo.episode Demo.single]
                    (Demo.fresh "simple") = (Ok b, h1) /\
      train_loop_of (len (b_states b)) 32 = Ok loops /\
      paces h'
      = paces (Demo.fresh "simple")
        ++ List.concat (repeat (minibatch_steps (Demo.decaying "simple" 32))
                               (Z.to_nat loops))
        ++ [SchedulerStep PointerNet].
Proof.
  destruct toy_train_decaying as [h' Hrun].
  exists h'. split; [exact Hrun|].
  exact (one_schedule_step_per_call _ _ _ _ _ Hrun).
Defined.

(** X20 on a mini-batch of one sample. *)
Lemma policy_step_of_a_minibatch_witness :
  exists loc' h',
    minibatch (Demo.config "simple") 1 1 Demo.one unbound 0 (Demo.averaging 3)
    = (Ok loc', h') /\
    exists loss,
      reinforce_loss loc' = Some loss /\
      pointer_net (self h') = -3000 - 1 / 10000 * grad loss PointerNet 0%nat /\
      policy_optimizer (self h') = 1 / 10000.
Proof.
  destruct toy_minibatch_simple as (loc' & h' & Hrun).
  exists loc', h'. split; [exact Hrun|].
  exact (policy_step_of_a_minibatch _ _ _ _ _ _ _ _ _ Hrun).
Defined.

(** X19 on the trainer built from the toy arguments. *)
Lemma checkpoint_of_a_new_trainer_witness :
  save_checkpoint (Demo.config "simple") 7 (Demo.fresh "simple")
  = (Ok tt, {| self := Demo.attrs "simple";
               sink := [SaveItrParams 7 [("pointer_net"%string, Weights (-3000))]] |}) /\
  dict_get (checkpoint_of (Demo.config "simple") (Demo.attrs "simple")) "pointer_net"
  = Ok (Weights (-3000)) /\
  (In "mean"%string (keys (checkpoint_of (Demo.config "simple") (Demo.attrs "simple")))
   <-> false = true).
Proof.
  exact (checkpoint_of_a_new_trainer (Demo.args "simple") (Demo.config "simple")
                                     (Demo.attrs "simple") 7 [] eq_refl).
Defined.

(** X22 on one evaluation result, the reward being the solving time. *)
Lemma evaluate_stats_keys_witness :
  let rs := [{| ev_neg_solving_time := [1]; ev_neg_total_nodes := [2];
                ev_primaldualintegral := [3]; ev_lp_solution_value := [4];
                ev_primal_dual_gap := [5] |}] in
  exists stats,
    log_evaluate_stats "solving_time" rs = Ok stats /\
    keys stats = ["evaluating/Neg Solving time"; "evaluating/Neg Total Nodes";
                  "evaluating/PrimalDualIntegral"; "evaluating/primal_dual_gap"]%string /\
    forall k,
      In k (keys stats) <->
      In k (keys (create_stats_ordered_dict "evaluating/Neg Solving time"
                    (List.concat (map ev_neg_solving_time rs)))) \/
      In k (keys (create_stats_ordered_dict "evaluating/Neg Total Nodes"
                    (List.concat (map ev_neg_total_nodes rs)))) \/
      In k (keys (create_stats_ordered_dict "evaluating/PrimalDualIntegral"
                    (List.concat (map ev_primaldualintegral rs)))) \/
      In k (keys (create_stats_ordered_dict "evaluating/primal_dual_gap"
                    (List.concat (map ev_primal_dual_gap rs)))) \/
      ("solving_time"%string = "lp_solution_value"%string /\
       In k (keys (create_stats_ordered_dict "evaluating/lp_solution_value"
                     (flat_map ev_lp_solution_value rs)))).
Proof.
  intros rs.
  exists [("evaluating/Neg Solving time"%string, Np.mean_of [1]);
          ("evaluating/Neg Total Nodes"%string, Np.mean_of [2]);
          ("evaluating/PrimalDualIntegral"%string, Np.mean_of [3]);
          ("evaluating/primal_dual_gap"%string, Np.mean_of [5])].
  split; [reflexivity|]. split; [reflexivity|].
  exact (evaluate_stats_keys "solving_time" rs _ eq_refl).
Defined.

(** X23 on a trainer that updates every five epochs, at epoch 5. *)
Lemma highlevel_update_without_samples_witness :
  let out := train_highlevel_policy (Demo.config "simple") [Demo.idle] 5
                                    (Demo.hrl_fresh "simple") in
  fst out = Raise (ValueError "need at least one array to concatenate") /\
  hl_epoch_of (snd out) = Some 1%Z /\
  sink (snd out) = [].
Proof.
  refine (highlevel_update_without_samples
            (Demo.config "simple") [Demo.idle] 5 (Demo.hrl_fresh "simple") Demo.hrl_attrs
            [{| hl_state := []; hl_action := []; hl_neg_reward := [] |}]
            eq_refl _ eq_refl eq_refl _).
  - discriminate.
  - repeat constructor.
Defined.

(** X24 on the same call. *)
Lemma failed_highlevel_update_keeps_the_counter_witness :
  hl_epoch_of (snd (train_highlevel_policy (Demo.config "simple") [Demo.idle] 5
                                           (Demo.hrl_fresh "simple")))
  = Some 1%Z.
Proof.
  exact (failed_highlevel_update_keeps_the_counter
           (Demo.config "simple") [Demo.idle] 5 (Demo.hrl_fresh "simple")
           (ValueError "need at least one array to concatenate") eq_refl).
Defined.

(** X25 on a sample of log-probability -1. *)
Lemma highlevel_sample_clamp_witness :
  exists st' h',
    hl_sample_step [[[1]]] [1 / 2] 32 0
      ({| pointer_probs := None; logprobs := Some [[const 0]];
          neg_baseline_value := None; neg_advantage := None;
          reinforce_loss := None; critic_loss := None |}, []) 0
      (Demo.hrl_fresh "simple")
    = (Ok st', h') /\
    self h' = self (Demo.hrl_fresh "simple").
Proof.
  destruct toy_hl_sample_step as (st' & h' & Hrun).
  exists st', h'. split; [exact Hrun|].
  destruct (highlevel_sample_clamp _ _ _ _ _ _ _ _ _ Hrun)
    as (state & action & lps & hr & _ & _ & _ & _ & _ & _ & _ & _ & Hself).
  exact Hself.
Defined.

(** X26 on a pointer network of log-probability -5000. *)
Lemma train_raises_when_every_sample_is_clamped_witness :
  let out := train (Demo.config "simple") [Demo.episode Demo.single] 1
                   (Demo.with_pointer_net (-5000) (Demo.fresh "simple")) in
  (exists e, fst out = Raise e) /\ pointer_net (self (snd out)) = -5000.
Proof.
  refine (train_raises_when_every_sample_is_clamped
            (Demo.config "simple") [Demo.episode Demo.single] 1
            (Demo.with_pointer_net (-5000) (Demo.fresh "simple")) _).
  intros state sel action. simpl. lra.
Defined.

(** The exception of that call is the one of [backward]. *)
Example toy_train_clamped :
  fst (train (Demo.config "simple") [Demo.episode Demo.single] 1
             (Demo.with_pointer_net (-5000) (Demo.fresh "simple")))
  = Raise (RuntimeError "element 0 of tensors does not require grad").
Proof. evaluate_toy. reflexivity. Qed.

Lemma toy_process_averaging :
  exists b h1,
    _process_data Demo.normalizing [Demo.episode (Demo.two 0 2)] (Demo.averaging 5)
    = (Ok b, h1).
Proof. eexists. eexists. evaluate_toy. reflexivity. Qed.

(** X27 on a moving average of 5, at epoch 2. *)
Lemma moving_average_of_normalized_rewards_witness :
  ema_of (snd (train Demo.normalizing [Demo.episode (Demo.two 0 2)] 2 (Demo.averaging 5)))
  = Some (5 * (9 / 10)).
Proof.
  destruct toy_process_averaging as (b & h1 & Hp).
  refine (moving_average_of_normalized_rewards
            Demo.normalizing [Demo.episode (Demo.two 0 2)] 2 (Demo.averaging 5) b h1 5
            eq_refl eq_refl eq_refl eq_refl Hp).
Defined.

(** X28 on two episodes, the second one with its solving time. *)
Lemma extra_metric_raises_witness :
  exists k,
    ~ In k (keys (env_step_info (Demo.episode Demo.single))) /\
    fst (_process_data (Demo.config "simple") [Demo.episode Demo.single; Demo.timed 1]
                       (Demo.fresh "simple"))
    = Raise (KeyError k).
Proof.
  refine (extra_metric_raises (Demo.config "simple") (Demo.episode Demo.single)
                              [Demo.timed 1] (Demo.fresh "simple") _ _).
  - discriminate.
  - repeat constructor. simpl. tauto.
Defined.

End MoreRuns.
